(** * Synthetic e-commerce data generator: a shallow embedding of
    [scripts/generate_data.py] and the properties of its five tables.

    Python values are modelled as follows.
    - [int] is [Z]; [float] is the kernel's binary64 [float] (the same
      IEEE 754 format and rounding as CPython's), [str] is [string].
    - A [date] is its proleptic Gregorian ordinal ([date.toordinal()]);
      a [datetime] with no sub-second part is a day and a second of that day.
    - A [DataFrame] is the list of its rows, in index order, each row a record
      with the frame's columns.
    - The script draws from two generators: Python's [random] module, which
      [main] seeds, and NumPy's global generator, which pandas' [sample] uses
      and which the script never seeds.  Each is a stream of raw draws with a
      read position; every [random.*] call and every sampled row takes one
      draw.  A result is obtained from a raw draw by reduction into the range
      asked for, so every result the library can give is given by some stream.
    - Exceptions are an error result of the monad the generators run in. *)

From Stdlib Require Import ZArith List String Ascii Bool Lia Floats Reals Lra.
From Stdlib Require Import DecimalString DecimalZ DecimalN.
Import ListNotations.

Set Warnings "-inexact-float".

Local Open Scope string_scope.
Local Open Scope Z_scope.

(** ** Exceptions, generator state and the monad of the script *)

Inductive exn := ValueError | IndexError.

Record rng_state := mk_rng {
  py_draws : nat -> N;   (* the stream of Python's [random] module *)
  py_pos : nat;
  np_draws : nat -> N;   (* the stream of NumPy's global generator *)
  np_pos : nat
}.

Inductive result (A : Type) :=
| Ok (a : A) (s : rng_state)
| Raise (e : exn).
Arguments Ok {A} a s.
Arguments Raise {A} e.

Definition M (A : Type) := rng_state -> result A.

Definition ret {A} (a : A) : M A := fun s => Ok a s.
Definition raise {A} (e : exn) : M A := fun _ => Raise e.
Definition bind {A B} (c : M A) (k : A -> M B) : M B :=
  fun s => match c s with
           | Ok a s' => k a s'
           | Raise e => Raise e
           end.

Notation "x <- c ;; k" := (bind c (fun x => k))
  (at level 61, c at next level, right associativity).
Notation "' pat <- c ;; k" := (bind c (fun x => match x with pat => k end))
  (at level 61, pat pattern, c at next level, right associativity).

(** One raw draw of each generator. *)
Definition py_next : M N :=
  fun s => Ok (py_draws s (py_pos s))
              (mk_rng (py_draws s) (S (py_pos s)) (np_draws s) (np_pos s)).
Definition np_next : M N :=
  fun s => Ok (np_draws s (np_pos s))
              (mk_rng (py_draws s) (py_pos s) (np_draws s) (S (np_pos s))).

(** ** Floats *)

Definition float_of_int (z : Z) : float :=
  SF2Prim (binary_normalize prec emax z 0 false).

(** [round_half_even_div a b]: the integer nearest to [a / b], ties to even. *)
Definition round_half_even_div (a b : Z) : Z :=
  let q := a / b in
  match (2 * (a mod b) ?= b) with
  | Lt => q
  | Gt => q + 1
  | Eq => if Z.even q then q else q + 1
  end.

(** The integer nearest to [m * 2^e * 100], ties to even. *)
Definition scaled_cents (m : positive) (e : Z) : Z :=
  if 0 <=? e then Zpos m * 2 ^ e * 100
  else round_half_even_div (Zpos m * 100) (2 ^ (- e)).

(** The float nearest to [n / 100], with sign [s]. *)
Definition cents_to_float (s : bool) (n : Z) : float :=
  match n with
  | Zpos p => SF2Prim (SF64div (S754_finite s p 0) (S754_finite false 100 0))
  | _ => SF2Prim (S754_zero s)
  end.

(** Python's [round(x, 2)] on a float: the decimal with two places nearest to
    the exact value of [x] (ties to even), then the float nearest to it;
    zeros, infinities and NaN are returned as they are. *)
Definition round2 (x : float) : float :=
  match Prim2SF x with
  | S754_finite s m e => cents_to_float s (scaled_cents m e)
  | _ => x
  end.

(** ** The [random] module *)

(** [random._randbelow(n)], for [0 < n]. *)
Definition randbelow (n : Z) : M Z :=
  k <- py_next ;; ret (Z.of_N k mod n).

(** [random.random()]: [k / 2^53] for a 53-bit [k]. *)
Definition unit_float (k : Z) : float :=
  SF2Prim (binary_normalize prec emax (k mod 2 ^ 53) (-53) false).
Definition random_random : M float :=
  k <- py_next ;; ret (unit_float (Z.of_N k)).

Definition randint (a b : Z) : M Z :=
  if b <? a then raise ValueError
  else r <- randbelow (b - a + 1) ;; ret (a + r).

Definition choice {A} (seq : list A) : M A :=
  match seq with
  | [] => raise IndexError
  | x :: _ => i <- randbelow (Z.of_nat (List.length seq)) ;; ret (nth (Z.to_nat i) seq x)
  end.

Definition uniform (a b : float) : M float :=
  r <- random_random ;; ret (a + (b - a) * r)%float.

(** [itertools.accumulate] with float addition. *)
Fixpoint accumulate_from (acc : float) (ws : list float) : list float :=
  match ws with
  | [] => []
  | w :: ws' => let acc' := (acc + w)%float in acc' :: accumulate_from acc' ws'
  end.
Definition accumulate (ws : list float) : list float :=
  match ws with
  | [] => []
  | w :: ws' => w :: accumulate_from w ws'
  end.

(** [bisect.bisect_right(a, x, lo, hi)]; [fuel] bounds the halvings. *)
Fixpoint bisect (fuel : nat) (a : list float) (x : float) (lo hi : Z) : Z :=
  match fuel with
  | O => lo
  | S fuel' =>
      if lo <? hi then
        let mid := (lo + hi) / 2 in
        if (x <? nth (Z.to_nat mid) a 0)%float then bisect fuel' a x lo mid
        else bisect fuel' a x (mid + 1) hi
      else lo
  end.

(** [random.choices(population, weights=weights)[0]]. *)
Definition choices1 {A} (population : list A) (weights : list float) : M A :=
  match population with
  | [] => raise IndexError
  | d :: _ =>
      if negb (List.length weights =? List.length population)%nat then raise ValueError
      else
        let cum_weights := accumulate weights in
        let total := (last cum_weights 0 + 0)%float in
        if (total <=? 0)%float then raise ValueError
        else
          r <- random_random ;;
          let hi := Z.of_nat (List.length population) - 1 in
          let i := bisect (List.length population) cum_weights (r * total)%float 0 hi in
          ret (nth (Z.to_nat i) population d)
  end.

(** ** pandas' [DataFrame.sample] (NumPy's global generator) *)

Definition np_index (n : Z) : M Z :=
  k <- np_next ;; ret (Z.of_N k mod n).

(** [df.sample(1)], as the row taken; an empty frame raises. *)
Definition sample1 {A} (df : list A) : M A :=
  match df with
  | [] => raise ValueError
  | x :: _ => i <- np_index (Z.of_nat (List.length df)) ;; ret (nth (Z.to_nat i) df x)
  end.

(** [df.sample(n, replace=True)], as the rows taken, in order. *)
Fixpoint sample_replace {A} (n : nat) (df : list A) : M (list A) :=
  match n with
  | O => ret []
  | S n' =>
      match df with
      | [] => raise ValueError
      | x :: _ =>
          i <- np_index (Z.of_nat (List.length df)) ;;
          rest <- sample_replace n' df ;;
          ret (nth (Z.to_nat i) df x :: rest)
      end
  end.

(** ** Dates *)

Record datetime := mk_datetime { dt_day : Z; dt_sec : Z }.

Definition DAYS_BEFORE_MONTH : list Z :=
  [-1; 0; 31; 59; 90; 120; 151; 181; 212; 243; 273; 304; 334].
Definition DAYS_IN_MONTH : list Z :=
  [-1; 31; 28; 31; 30; 31; 30; 31; 31; 30; 31; 30; 31].

(** [datetime._ord2ymd]: year, month and day of an ordinal. *)
Definition ord2ymd (ordinal : Z) : Z * Z * Z :=
  let n := ordinal - 1 in
  let n400 := n / 146097 in let n := n mod 146097 in
  let year := n400 * 400 + 1 in
  let n100 := n / 36524 in let n := n mod 36524 in
  let n4 := n / 1461 in let n := n mod 1461 in
  let n1 := n / 365 in let n := n mod 365 in
  let year := year + n100 * 100 + n4 * 4 + n1 in
  if (n1 =? 4) || (n100 =? 4) then (year - 1, 12, 31)
  else
    let leapyear := (n1 =? 3) && (negb (n4 =? 24) || (n100 =? 3)) in
    let month := Z.shiftr (n + 50) 5 in
    let preceding := nth (Z.to_nat month) DAYS_BEFORE_MONTH 0
                     + (if (2 <? month) && leapyear then 1 else 0) in
    if n <? preceding then
      let month := month - 1 in
      let preceding := preceding
                       - (nth (Z.to_nat month) DAYS_IN_MONTH 0
                          + (if (month =? 2) && leapyear then 1 else 0)) in
      (year, month, n - preceding + 1)
    else (year, month, n - preceding + 1).

Definition str (z : Z) : string := NilZero.string_of_int (Z.to_int z).

(** ["%02d"] and ["%04d"]. *)
Definition pad2 (z : Z) : string :=
  if z <? 10 then "0" ++ str z else str z.
Definition pad4 (z : Z) : string :=
  if z <? 10 then "000" ++ str z
  else if z <? 100 then "00" ++ str z
  else if z <? 1000 then "0" ++ str z
  else str z.

(** [date.isoformat()]. *)
Definition date_isoformat (d : Z) : string :=
  let '(y, m, dd) := ord2ymd d in
  pad4 y ++ "-" ++ pad2 m ++ "-" ++ pad2 dd.

(** [datetime.isoformat(sep=" ")] for a datetime with no microseconds. *)
Definition isoformat (dt : datetime) : string :=
  let s := dt_sec dt in
  date_isoformat (dt_day dt) ++ " " ++ pad2 (s / 3600) ++ ":"
    ++ pad2 (s mod 3600 / 60) ++ ":" ++ pad2 (s mod 60).

(** [str.lower()] on ASCII text. *)
Definition lower_ascii (c : ascii) : ascii :=
  let n := nat_of_ascii c in
  if ((65 <=? n) && (n <=? 90))%nat then ascii_of_nat (n + 32) else c.
Fixpoint lower (s : string) : string :=
  match s with
  | EmptyString => EmptyString
  | String c s' => String (lower_ascii c) (lower s')
  end.

(** ** Loops *)

(** [range(a, b)]. *)
Definition range (a b : Z) : list Z :=
  map (fun i => a + Z.of_nat i) (seq 0 (Z.to_nat (b - a))).

(** A loop that appends one row per element: [for x in xs: rows.append(f(x))]. *)
Fixpoint for_rows {A B} (f : A -> M B) (xs : list A) : M (list B) :=
  match xs with
  | [] => ret []
  | x :: xs' => row <- f x ;; rows <- for_rows f xs' ;; ret (row :: rows)
  end.

(** ** Constants of the script *)

Definition RANDOM_SEED : Z := 42.
Definition NUM_PRODUCTS : Z := 50.
Definition NUM_CUSTOMERS : Z := 100.
Definition NUM_ORDERS : Z := 500.
Definition MAX_ITEMS_PER_ORDER : Z := 5.
Definition REVIEW_PROBABILITY : float := 0.6.

(** ** The five tables *)

Module Product.
Record t := mk {
    product_id : Z; name : string; category : string;
    price : float; cost : float; active : bool }.
End Product.

Module Customer.
Record t := mk {
    customer_id : Z; first_name : string; last_name : string; email : string;
    city : string; state : string; signup_date : string; loyalty_tier : string }.
End Customer.

Module Order.
Record t := mk {
    order_id : Z; customer_id : Z; order_date : string; order_status : string;
    shipping_method : string; order_total : float }.
Definition set_order_total (o : t) (v : float) : t :=
  mk (order_id o) (customer_id o) (order_date o) (order_status o)
     (shipping_method o) v.
End Order.

Module OrderItem.
Record t := mk {
    order_item_id : Z; order_id : Z; product_id : Z; quantity : Z;
    unit_price : float; line_total : float }.
End OrderItem.

Module Review.
Record t := mk {
    review_id : Z; order_id : Z; product_id : Z; customer_id : Z;
    rating : Z; review_date : string; review_text : string }.
End Review.

(** ** [random_date] *)

Definition random_date (start end_ : Z) : M datetime :=
  let delta_days := end_ - start in
  random_days <- randint 0 delta_days ;;
  random_seconds <- randint 0 86399 ;;
  ret (mk_datetime (start + random_days) random_seconds).

(** ** [create_products] *)

Definition categories : list string :=
  ["Electronics"; "Home"; "Outdoors"; "Sports"; "Beauty"; "Automotive"; "Toys";
   "Fashion"; "Books"; "Grocery"].
Definition adjectives : list string :=
  ["Premium"; "Compact"; "Eco"; "Smart"; "Classic"; "Deluxe"; "Lightweight";
   "Portable"; "Advanced"; "Essential"].
Definition nouns : list string :=
  ["Speaker"; "Backpack"; "Bottle"; "Lamp"; "Watch"; "Camera"; "Shoes";
   "Notebook"; "Headphones"; "Mixer"].

Definition product_row (product_id : Z) : M Product.t :=
  category <- choice categories ;;
  adjective <- choice adjectives ;;
  noun <- choice nouns ;;
  let name := (adjective ++ " " ++ noun)%string in
  u <- uniform 5 80 ;;
  let cost := round2 u in
  markup <- uniform 1.2 2.5 ;;
  let price := round2 (cost * markup)%float in
  active <- choice [true; true; true; false] ;;
  ret (Product.mk product_id name category price cost active).

Definition create_products : M (list Product.t) :=
  for_rows product_row (range 1 (NUM_PRODUCTS + 1)).

(** ** [create_customers] *)

Definition first_names : list string :=
  ["Alex"; "Jordan"; "Taylor"; "Casey"; "Morgan"; "Riley"; "Harper"; "Dakota";
   "Emerson"; "Hayden"].
Definition last_names : list string :=
  ["Smith"; "Lee"; "Garcia"; "Patel"; "Brown"; "Chen"; "Davis"; "Martinez";
   "Lopez"; "Wilson"].
Definition cities : list string :=
  ["New York"; "San Francisco"; "Chicago"; "Austin"; "Seattle"; "Boston";
   "Atlanta"; "Denver"; "Miami"; "Phoenix"].
Definition states : list string :=
  ["NY"; "CA"; "IL"; "TX"; "WA"; "MA"; "GA"; "CO"; "FL"; "AZ"].

Definition make_email (first last : string) (customer_id : Z) : string :=
  (lower first ++ "." ++ lower last ++ str customer_id ++ "@example.com")%string.

Definition customer_row (today : Z) (customer_id : Z) : M Customer.t :=
  let base_date := today - 365 in
  first <- choice first_names ;;
  last <- choice last_names ;;
  signup <- random_date base_date today ;;
  city <- choice cities ;;
  state <- choice states ;;
  loyalty_tier <- choice ["Bronze"; "Silver"; "Gold"; "Platinum"] ;;
  ret (Customer.mk customer_id first last (make_email first last customer_id)
         city state (date_isoformat (dt_day signup)) loyalty_tier).

Definition create_customers (today : Z) : M (list Customer.t) :=
  for_rows (customer_row today) (range 1 (NUM_CUSTOMERS + 1)).

(** ** [create_orders] *)

Definition statuses : list string :=
  ["pending"; "processing"; "completed"; "shipped"; "cancelled"].
Definition status_weights : list float := [0.05; 0.2; 0.4; 0.3; 0.05]%float.

Definition order_row (today : Z) (customers : list Customer.t) (order_id : Z)
  : M Order.t :=
  let start_date := today - 180 in
  customer <- sample1 customers ;;
  let customer_id := Customer.customer_id customer in
  order_dt <- random_date start_date today ;;
  status <- choices1 statuses status_weights ;;
  shipping_method <- choice ["ground"; "express"; "pickup"] ;;
  ret (Order.mk order_id customer_id (isoformat order_dt) status shipping_method 0).

Definition create_orders (today : Z) (customers : list Customer.t)
  : M (list Order.t) :=
  for_rows (order_row today customers) (range 1 (NUM_ORDERS + 1)).

(** ** [create_order_items] *)

(** The dict [order_totals]: the latest binding of a key is the one found. *)
Definition dict := list (Z * float).
Definition dict_set (k : Z) (v : float) (d : dict) : dict := (k, v) :: d.
Fixpoint dict_get (k : Z) (d : dict) : option float :=
  match d with
  | [] => None
  | (k', v) :: d' => if k =? k' then Some v else dict_get k d'
  end.

(** [series.map(d).fillna(0.0)] at one key: a missing key maps to NaN, and
    NaN, mapped or stored, is replaced by [0.0]. *)
Definition map_fillna (d : dict) (k : Z) : float :=
  match dict_get k d with
  | Some v => if is_nan v then 0%float else v
  | None => 0%float
  end.

(** The inner loop, over the products sampled for one order. *)
Fixpoint order_lines (order_id : Z) (product_choices : list Product.t)
    (rows : list OrderItem.t) (item_id : Z) (order_total : float)
  : M (list OrderItem.t * Z * float) :=
  match product_choices with
  | [] => ret (rows, item_id, order_total)
  | product :: rest =>
      quantity <- randint 1 4 ;;
      let unit_price := Product.price product in
      let line_total := round2 (unit_price * float_of_int quantity)%float in
      let row := OrderItem.mk item_id order_id (Product.product_id product)
                   quantity unit_price line_total in
      order_lines order_id rest (rows ++ [row])%list (item_id + 1)
        (order_total + line_total)%float
  end.

(** The outer loop, over the orders. *)
Fixpoint order_items_loop (orders : list Order.t) (products : list Product.t)
    (rows : list OrderItem.t) (order_totals : dict) (item_id : Z)
  : M (list OrderItem.t * dict) :=
  match orders with
  | [] => ret (rows, order_totals)
  | order :: rest =>
      num_items <- randint 1 MAX_ITEMS_PER_ORDER ;;
      product_choices <- sample_replace (Z.to_nat num_items) products ;;
      '(rows', item_id', order_total) <-
        order_lines (Order.order_id order) product_choices rows item_id 0%float ;;
      order_items_loop rest products rows'
        (dict_set (Order.order_id order) (round2 order_total) order_totals) item_id'
  end.

(** Returns the order items and the [orders] frame as the function leaves it
    (its [order_total] column is overwritten in place). *)
Definition create_order_items (orders : list Order.t) (products : list Product.t)
  : M (list OrderItem.t * list Order.t) :=
  '(rows, order_totals) <- order_items_loop orders products [] [] 1 ;;
  ret (rows,
       map (fun o => Order.set_order_total o (map_fillna order_totals (Order.order_id o)))
           orders).

(** ** [create_reviews] *)

Definition review_texts : list string :=
  ["Great quality and fast shipping."; "Decent product for the price.";
   "Exceeded expectations!"; "Not satisfied with the durability.";
   "Would definitely recommend to friends."].

Definition items_of (order_id : Z) (order_items : list OrderItem.t)
  : list OrderItem.t :=
  filter (fun i => OrderItem.order_id i =? order_id) order_items.

Fixpoint reviews_loop (today : Z) (orders : list Order.t)
    (order_items : list OrderItem.t) (review_rows : list Review.t) (review_id : Z)
  : M (list Review.t) :=
  let start_date := today - 180 in
  match orders with
  | [] => ret review_rows
  | order :: rest =>
      r <- random_random ;;
      if (REVIEW_PROBABILITY <? r)%float then
        reviews_loop today rest order_items review_rows review_id
      else
        let order_id := Order.order_id order in
        let items := items_of order_id order_items in
        match items with
        | [] => reviews_loop today rest order_items review_rows review_id
        | _ :: _ =>
            item <- sample1 items ;;
            let product_id := OrderItem.product_id item in
            review_dt <- random_date start_date today ;;
            rating <- randint 1 5 ;;
            review_text <- choice review_texts ;;
            let row := Review.mk review_id order_id product_id
                         (Order.customer_id order) rating (isoformat review_dt)
                         review_text in
            reviews_loop today rest order_items (review_rows ++ [row])%list
              (review_id + 1)
        end
  end.

Definition create_reviews (today : Z) (orders : list Order.t)
    (order_items : list OrderItem.t) : M (list Review.t) :=
  reviews_loop today orders order_items [] 1.

(** ** [main] *)

(** [random.seed(a)]: Python's generator restarts on the stream the seed
    determines; [mt] is that function of the seed.  NumPy's generator is not
    touched. *)
Definition random_seed (mt : Z -> nat -> N) (a : Z) : M unit :=
  fun s => Ok tt (mk_rng (mt a) 0 (np_draws s) (np_pos s)).

Record tables := mk_tables {
  products_csv : list Product.t;
  customers_csv : list Customer.t;
  orders_csv : list Order.t;
  order_items_csv : list OrderItem.t;
  reviews_csv : list Review.t
}.

(** [today] is what [date.today()] returns during the run. *)
Definition main (mt : Z -> nat -> N) (today : Z) : M tables :=
  _ <- random_seed mt RANDOM_SEED ;;
  products <- create_products ;;
  customers <- create_customers today ;;
  orders <- create_orders today customers ;;
  '(order_items, orders) <- create_order_items orders products ;;
  reviews <- create_reviews today orders order_items ;;
  ret (mk_tables products customers orders order_items reviews).

(** ** Vocabulary of the properties *)

(** The float sum of a list, added in list order from [0.0]: what the loop's
    [order_total += line_total] computes, and what [sum()] computes. *)
Definition fsum (xs : list float) : float := fold_left PrimFloat.add xs 0%float.

(** The sum of the [line_total] column over the rows of one order. *)
Definition sum_line_totals (order_id : Z) (order_items : list OrderItem.t) : float :=
  fsum (map OrderItem.line_total (items_of order_id order_items)).

(** [0.0 <= x]: [x] is a zero, a positive number or [+inf] (and not NaN). *)
Definition nonneg (x : float) : Prop := (0 <=? x)%float = true.

(** What one pass of the inner loop of [create_order_items] makes of a sampled
    product. *)
Definition line_of (order_id : Z) (p : Product.t) (i : OrderItem.t) : Prop :=
  OrderItem.order_id i = order_id /\
  OrderItem.product_id i = Product.product_id p /\
  OrderItem.unit_price i = Product.price p /\
  1 <= OrderItem.quantity i <= 4 /\
  OrderItem.line_total i
  = round2 (OrderItem.unit_price i * float_of_int (OrderItem.quantity i))%float.

(** The rows one pass of the outer loop appends for an order. *)
Definition group_of (products : list Product.t) (o : Order.t)
    (g : list OrderItem.t) : Prop :=
  (1 <= List.length g <= 5)%nat /\
  exists choices, Forall (fun p => In p products) choices /\
                  Forall2 (line_of (Order.order_id o)) choices g.

(** The bindings the outer loop stores in [order_totals], oldest first. *)
Definition bindings (orders : list Order.t) (groups : list (list OrderItem.t))
  : dict :=
  map (fun og => (Order.order_id (fst og),
                  round2 (fsum (map OrderItem.line_total (snd og)))))
      (combine orders groups).

(** The window [random_date(today - 180, today)] draws from. *)
Definition in_window (today : Z) (dt : datetime) : Prop :=
  today - 180 <= dt_day dt <= today /\ 0 <= dt_sec dt <= 86399.

(** [a] is strictly earlier than [b]. *)
Definition earlier (a b : datetime) : Prop :=
  dt_day a < dt_day b \/ (dt_day a = dt_day b /\ dt_sec a < dt_sec b).

(** What one pass of the loop of [create_reviews] appends, when it appends. *)
Definition review_of (today : Z) (orders : list Order.t)
    (order_items : list OrderItem.t) (r : Review.t) : Prop :=
  exists o item dt,
    In o orders /\ In item (items_of (Order.order_id o) order_items) /\
    Review.order_id r = Order.order_id o /\
    Review.customer_id r = Order.customer_id o /\
    Review.product_id r = OrderItem.product_id item /\
    Review.review_date r = isoformat dt /\ in_window today dt /\
    1 <= Review.rating r <= 5 /\ In (Review.review_text r) review_texts.

(** An ASCII decimal digit. *)
Definition is_digit (c : ascii) : bool :=
  let n := nat_of_ascii c in ((48 <=? n) && (n <=? 57))%nat.

(** The last character of the text is not a digit. *)
Definition ends_nondigit (cs : list ascii) : bool :=
  match rev cs with
  | c :: _ => negb (is_digit c)
  | [] => false
  end.

(** Reading a result without the generator state. *)
Definition value_of {A} (r : result A) : option A :=
  match r with
  | Ok a _ => Some a
  | Raise _ => None
  end.

(** ** Concrete inputs, for evaluation *)

Definition example_stream (a b : N) : nat -> N :=
  fun i => ((6364136223846793005 * (N.of_nat i + a) * (N.of_nat i + b)
             + 1442695040888963407) mod 2 ^ 64)%N.

(** A seeding function, two process states that differ in NumPy's stream
    only, and a date (2026-11-04). *)
Definition example_mt (seed : Z) : nat -> N := example_stream (Z.to_N seed) 7.
Definition example_state : rng_state :=
  mk_rng (example_stream 1 3) 0 (example_stream 5 11) 0.
Definition example_state' : rng_state :=
  mk_rng (example_stream 1 3) 0 (example_stream 6 13) 0.
Definition example_today : Z := 739924.

Definition example_products : list Product.t :=
  [Product.mk 1 "Smart Lamp" "Home" 19.99 12.5 true;
   Product.mk 2 "Eco Bottle" "Outdoors" 7.35 5.1 true;
   Product.mk 3 "Classic Watch" "Fashion" 149.5 79.9 false].
Definition example_orders : list Order.t :=
  [Order.mk 1 7 "2026-10-01 08:30:00" "completed" "ground" 0;
   Order.mk 2 3 "2026-10-17 21:04:55" "shipped" "express" 0].

(** What [create_order_items] returns on the example inputs. *)
Definition example_run : result (list OrderItem.t * list Order.t) :=
  create_order_items example_orders example_products example_state.
Definition example_items : list OrderItem.t :=
  match example_run with Ok (items, _) _ => items | Raise _ => [] end.
Definition example_orders_after : list Order.t :=
  match example_run with Ok (_, orders) _ => orders | Raise _ => [] end.
Definition example_state_after : rng_state :=
  match example_run with Ok _ s => s | Raise _ => example_state end.

(** The tables of the two example runs of [main], same seed and same date. *)
Definition example_tables : option tables :=
  value_of (main example_mt example_today example_state).
Definition example_tables' : option tables :=
  value_of (main example_mt example_today example_state').

(** ** Vocabulary of binary64 rounding *)

(** The record after [k] right shifts of [M], started at location [l0]. *)
Definition shifted (M : Z) (l0 : location) (k : Z) (rec : shr_record) : Prop :=
  shr_m rec = M / 2 ^ k /\
  (l0 = loc_Exact -> M mod 2 ^ k = 0 -> shr_r rec = false /\ shr_s rec = false).

(** The real number [2^e]. *)
Definition bpow (e : Z) : R := powerRZ 2 e.

(** The value of mantissa [m] at exponent [e]. *)
Definition F2R (m e : Z) : R := (IZR m * bpow e)%R.

(** A number with a 53-bit mantissa. *)
Definition repr (b : R) : Prop :=
  exists m e, 2 ^ 52 <= m < 2 ^ 53 /\ b = F2R m e.

(** [v] is [z] rounded to 53 bits: the 53-bit number below [z] or the one
    above, and [z] itself when it has 53 bits. *)
Definition rounds (z v : R) : Prop :=
  exists q g,
    2 ^ 52 <= q < 2 ^ 53 /\
    (F2R q g <= z < F2R (q + 1) g)%R /\
    (v = F2R q g \/ v = F2R (q + 1) g) /\
    (z = F2R q g -> v = z).

(** A 53-bit mantissa. *)
Definition normal (m : positive) : Prop := 2 ^ 52 <= Zpos m < 2 ^ 53.

(** A specification float that is a zero, positive or [+inf]. *)
Definition sf_nonneg (y : spec_float) : Prop :=
  match y with
  | S754_zero _ | S754_infinity false | S754_finite false _ _ => True
  | _ => False
  end.

(** ** Vocabulary of the further properties *)

(** A list obtained from another by dropping elements. *)
Inductive subseq {A : Type} : list A -> list A -> Prop :=
| subseq_nil : subseq [] []
| subseq_skip x l1 l2 : subseq l1 l2 -> subseq l1 (x :: l2)
| subseq_take x l1 l2 : subseq l1 l2 -> subseq (x :: l1) (x :: l2).

(** [x] is a positive float with a 53-bit mantissa whose value lies between
    [lo] and [hi]. *)
Definition finpos_in (lo hi : R) (x : float) : Prop :=
  exists m e,
    Prim2SF x = S754_finite false m e /\ normal m /\
    (lo <= F2R (Zpos m) e <= hi)%R.

(** [c] draws from Python's generator only: its outcome is decided by the
    state of that generator, and it leaves NumPy's generator as it was. *)
Definition py_only {A} (c : M A) : Prop :=
  forall s1 s2, py_draws s1 = py_draws s2 -> py_pos s1 = py_pos s2 ->
    match c s1, c s2 with
    | Ok a1 t1, Ok a2 t2 =>
        a1 = a2 /\ py_draws t1 = py_draws t2 /\ py_pos t1 = py_pos t2 /\
        (np_draws t1 = np_draws s1 /\ np_pos t1 = np_pos s1) /\
        (np_draws t2 = np_draws s2 /\ np_pos t2 = np_pos s2)
    | Raise e1, Raise e2 => e1 = e2
    | _, _ => False
    end.

(** * Properties *)

(** ** The monad *)

Arguments randbelow : simpl never.
Arguments random_random : simpl never.
Arguments randint : simpl never.
Arguments choice : simpl never.
Arguments choices1 : simpl never.
Arguments uniform : simpl never.
Arguments sample1 : simpl never.
Arguments random_date : simpl never.
Arguments round2 : simpl never.
Arguments float_of_int : simpl never.
Arguments isoformat : simpl never.
Arguments date_isoformat : simpl never.
Arguments make_email : simpl never.

Lemma bind_Ok {A B} (c : M A) (k : A -> M B) s b s2 :
  bind c k s = Ok b s2 -> exists a s1, c s = Ok a s1 /\ k a s1 = Ok b s2.
Proof.
  unfold bind. destruct (c s) as [a s1|e]; [|discriminate].
  intros H. now exists a, s1.
Qed.

Lemma bind_Ok_intro {A B} (c : M A) (k : A -> M B) s a s1 :
  c s = Ok a s1 -> bind c k s = k a s1.
Proof. unfold bind. now intros ->. Qed.

Lemma ret_Ok {A} (a b : A) s s' : ret a s = Ok b s' -> a = b /\ s = s'.
Proof. unfold ret. intros H. now inversion H. Qed.

Ltac inv_bind H :=
  let a := fresh "v" in
  let s := fresh "s" in
  let H1 := fresh "Hrun" in
  apply bind_Ok in H; destruct H as (a & s & H1 & H).

Ltac inv_ret H :=
  apply ret_Ok in H; destruct H as [? ?]; subst.

(** ** The draws *)

Lemma randbelow_total n s : exists r s', randbelow n s = Ok r s'.
Proof. unfold randbelow, bind, py_next, ret. eauto. Qed.

Lemma randbelow_range n s r s' :
  0 < n -> randbelow n s = Ok r s' -> 0 <= r < n.
Proof.
  intros Hn H. unfold randbelow, bind, py_next, ret in H.
  inversion H; subst. now apply Z.mod_pos_bound.
Qed.

Lemma random_total s : exists r s', random_random s = Ok r s'.
Proof. unfold random_random, bind, py_next, ret. eauto. Qed.

Lemma randint_range a b s r s' : randint a b s = Ok r s' -> a <= r <= b.
Proof.
  unfold randint. destruct (b <? a) eqn:E; [discriminate|].
  apply Z.ltb_ge in E. intros H. inv_bind H. inv_ret H.
  apply randbelow_range in Hrun; lia.
Qed.

Lemma randint_total a b s : a <= b -> exists r s', randint a b s = Ok r s'.
Proof.
  intros Hab. unfold randint.
  destruct (b <? a) eqn:E; [apply Z.ltb_lt in E; lia|].
  destruct (randbelow_total (b - a + 1) s) as (r & s' & H).
  rewrite (bind_Ok_intro _ _ _ _ _ H). unfold ret. eauto.
Qed.

Lemma nth_mod_In {A} (l : list A) (d : A) (k : Z) :
  l <> [] -> In (nth (Z.to_nat (k mod Z.of_nat (List.length l))) l d) l.
Proof.
  intros Hl. apply nth_In.
  assert (0 < Z.of_nat (List.length l)) by (destruct l; [congruence | simpl; lia]).
  pose proof (Z.mod_pos_bound k _ H). lia.
Qed.

Lemma choice_In {A} (l : list A) s x s' : choice l s = Ok x s' -> In x l.
Proof.
  destruct l as [|d l]; [discriminate|].
  unfold choice, randbelow, bind, py_next, ret. intros H.
  injection H as <- _. now apply (nth_mod_In (d :: l)).
Qed.

Lemma choice_total {A} (l : list A) s :
  l <> [] -> exists x s', choice l s = Ok x s'.
Proof.
  destruct l as [|d l]; [congruence|]. intros _. unfold choice.
  destruct (randbelow_total (Z.of_nat (List.length (d :: l))) s) as (r & s' & H).
  rewrite (bind_Ok_intro _ _ _ _ _ H). unfold ret. eauto.
Qed.

Lemma sample1_In {A} (df : list A) s x s' : sample1 df s = Ok x s' -> In x df.
Proof.
  destruct df as [|d l]; [discriminate|].
  unfold sample1, np_index, bind, np_next, ret. intros H.
  injection H as <- _. now apply (nth_mod_In (d :: l)).
Qed.

Lemma sample1_total {A} (df : list A) s :
  df <> [] -> exists x s', sample1 df s = Ok x s'.
Proof.
  destruct df as [|d l]; [congruence|]. intros _.
  unfold sample1, np_index, bind, np_next, ret. eauto.
Qed.

Lemma sample_replace_spec {A} (n : nat) (df : list A) s rows s' :
  sample_replace n df s = Ok rows s' ->
  List.length rows = n /\ Forall (fun x => In x df) rows.
Proof.
  revert s rows s'. induction n as [|n IH]; intros s rows s' H; simpl in H.
  - inv_ret H. split; [reflexivity | constructor].
  - destruct df as [|d l]; [discriminate|].
    inv_bind H. inv_bind H. inv_ret H.
    apply IH in Hrun0. destruct Hrun0 as [Hlen Hall].
    unfold np_index, bind, np_next, ret in Hrun. injection Hrun as <- _.
    split; [simpl; congruence|].
    constructor; [now apply (nth_mod_In (d :: l)) | assumption].
Qed.

Lemma sample_replace_total {A} (n : nat) (df : list A) s :
  df <> [] -> exists rows s', sample_replace n df s = Ok rows s'.
Proof.
  intros Hdf. revert s. induction n as [|n IH]; intros s; simpl.
  - unfold ret. eauto.
  - destruct df as [|d l]; [congruence|].
    destruct (IH (mk_rng (py_draws s) (py_pos s) (np_draws s) (S (np_pos s))))
      as (rows & s' & H).
    cbv [bind np_index np_next ret]. rewrite H. eauto.
Qed.

Lemma random_date_range start end_ s dt s' :
  random_date start end_ s = Ok dt s' ->
  start <= dt_day dt <= end_ /\ 0 <= dt_sec dt <= 86399.
Proof.
  unfold random_date. intros H. inv_bind H. inv_bind H. inv_ret H.
  apply randint_range in Hrun, Hrun0. simpl. lia.
Qed.

Lemma random_date_total start end_ s :
  start <= end_ -> exists dt s', random_date start end_ s = Ok dt s'.
Proof.
  intros Hse. unfold random_date.
  destruct (randint_total 0 (end_ - start) s) as (d & s1 & H1); [lia|].
  rewrite (bind_Ok_intro _ _ _ _ _ H1).
  destruct (randint_total 0 86399 s1) as (sec & s2 & H2); [lia|].
  rewrite (bind_Ok_intro _ _ _ _ _ H2). unfold ret. eauto.
Qed.

(** ** Row loops *)

Lemma for_rows_spec {A B} (f : A -> M B) xs s rows s' :
  for_rows f xs s = Ok rows s' ->
  Forall2 (fun x row => exists s1 s2, f x s1 = Ok row s2) xs rows.
Proof.
  revert s rows s'. induction xs as [|x xs IH]; intros s rows s' H; simpl in H.
  - inv_ret H. constructor.
  - inv_bind H. inv_bind H. inv_ret H.
    constructor; eauto.
Qed.

Lemma for_rows_total {A B} (f : A -> M B) xs :
  (forall x s, In x xs -> exists row s', f x s = Ok row s') ->
  forall s, exists rows s', for_rows f xs s = Ok rows s'.
Proof.
  induction xs as [|x xs IH]; intros Hf s; simpl.
  - unfold ret. eauto.
  - destruct (Hf x s (or_introl eq_refl)) as (row & s1 & H1).
    rewrite (bind_Ok_intro _ _ _ _ _ H1).
    destruct (IH (fun y t Hy => Hf y t (or_intror Hy)) s1) as (rows & s2 & H2).
    rewrite (bind_Ok_intro _ _ _ _ _ H2). unfold ret. eauto.
Qed.

(** ** [create_order_items] *)

Lemma order_lines_spec order_id choices rows item_id total s rows' item_id' total' s' :
  order_lines order_id choices rows item_id total s = Ok (rows', item_id', total') s' ->
  exists new,
    rows' = (rows ++ new)%list /\
    Forall2 (line_of order_id) choices new /\
    total' = fold_left PrimFloat.add (map OrderItem.line_total new) total /\
    item_id' = item_id + Z.of_nat (List.length new).
Proof.
  revert rows item_id total s.
  induction choices as [|p rest IH]; intros rows item_id total s H; simpl in H.
  - inv_ret H. injection H as <- <- <-. exists [].
    rewrite app_nil_r. repeat split; [constructor | simpl; lia].
  - inv_bind H. apply randint_range in Hrun.
    apply IH in H. destruct H as (new & -> & Hall & -> & ->).
    eexists (_ :: new). rewrite <- app_assoc. simpl.
    repeat split; try reflexivity; try lia.
    constructor; [|assumption].
    unfold line_of; simpl. repeat split; try reflexivity; lia.
Qed.

Lemma order_lines_total order_id choices rows item_id total s :
  exists r s', order_lines order_id choices rows item_id total s = Ok r s'.
Proof.
  revert rows item_id total s.
  induction choices as [|p rest IH]; intros rows item_id total s; simpl.
  - unfold ret. eauto.
  - destruct (randint_total 1 4 s) as (q & s1 & Hq); [lia|].
    rewrite (bind_Ok_intro _ _ _ _ _ Hq). apply IH.
Qed.

Lemma order_items_loop_spec orders products rows d item_id s rows' d' s' :
  order_items_loop orders products rows d item_id s = Ok (rows', d') s' ->
  exists groups,
    Forall2 (group_of products) orders groups /\
    rows' = (rows ++ List.concat groups)%list /\
    d' = (rev (bindings orders groups) ++ d)%list.
Proof.
  revert rows d item_id s.
  induction orders as [|o rest IH]; intros rows d item_id s H; simpl in H.
  - inv_ret H. injection H as <- <-. exists [].
    simpl. rewrite app_nil_r. repeat split. constructor.
  - inv_bind H. inv_bind H. inv_bind H. destruct v1 as [[rows1 id1] total1].
    apply randint_range in Hrun. apply sample_replace_spec in Hrun0.
    destruct Hrun0 as [Hlen Hin].
    apply order_lines_spec in Hrun1. destruct Hrun1 as (new & -> & Hlines & -> & ->).
    apply IH in H. destruct H as (groups & Hgroups & -> & ->).
    exists (new :: groups). split; [|split].
    + constructor; [|assumption]. split.
      * apply Forall2_length in Hlines. unfold MAX_ITEMS_PER_ORDER in Hrun. lia.
      * now exists v0.
    + simpl. now rewrite <- app_assoc.
    + unfold bindings; simpl. rewrite <- app_assoc. reflexivity.
Qed.

Lemma order_items_loop_total orders products rows d item_id s :
  products <> [] ->
  exists r s', order_items_loop orders products rows d item_id s = Ok r s'.
Proof.
  intros Hp. revert rows d item_id s.
  induction orders as [|o rest IH]; intros rows d item_id s; simpl.
  - unfold ret. eauto.
  - destruct (randint_total 1 MAX_ITEMS_PER_ORDER s) as (n & s1 & Hn);
      [unfold MAX_ITEMS_PER_ORDER; lia|].
    rewrite (bind_Ok_intro _ _ _ _ _ Hn).
    destruct (sample_replace_total (Z.to_nat n) products s1 Hp) as (ch & s2 & Hch).
    rewrite (bind_Ok_intro _ _ _ _ _ Hch).
    destruct (order_lines_total (Order.order_id o) ch rows item_id 0%float s2)
      as ([[rows1 id1] t1] & s3 & Hl).
    rewrite (bind_Ok_intro _ _ _ _ _ Hl). apply IH.
Qed.

(** The shape of every successful run of [create_order_items]. *)
Lemma create_order_items_spec orders products s items orders' s' :
  create_order_items orders products s = Ok (items, orders') s' ->
  exists groups,
    Forall2 (group_of products) orders groups /\
    items = List.concat groups /\
    orders' = map (fun o => Order.set_order_total o
                      (map_fillna (rev (bindings orders groups)) (Order.order_id o)))
                  orders.
Proof.
  unfold create_order_items. intros H. inv_bind H. destruct v as [rows d].
  inv_ret H. injection H as <- <-.
  apply order_items_loop_spec in Hrun. destruct Hrun as (groups & Hg & -> & ->).
  exists groups. rewrite app_nil_r. simpl. auto.
Qed.

Lemma create_order_items_total orders products s :
  products <> [] ->
  exists items orders' s', create_order_items orders products s = Ok (items, orders') s'.
Proof.
  intros Hp. unfold create_order_items.
  destruct (order_items_loop_total orders products [] [] 1 s Hp) as ([rows d] & s1 & H).
  rewrite (bind_Ok_intro _ _ _ _ _ H). unfold ret. eauto.
Qed.

(** *** The groups of rows and the dict of totals *)

Lemma group_items_id products o g :
  group_of products o g ->
  Forall (fun i => OrderItem.order_id i = Order.order_id o) g.
Proof.
  intros [_ (choices & _ & Hl)].
  induction Hl as [|p i ch g' Hpi _ IH]; constructor; [apply Hpi | exact IH].
Qed.

Lemma groups_ids_in products orders groups :
  Forall2 (group_of products) orders groups ->
  Forall (fun i => In (OrderItem.order_id i) (map Order.order_id orders))
         (List.concat groups).
Proof.
  induction 1 as [|o g os gs Hg _ IH]; simpl; [constructor|].
  apply Forall_app. split.
  - apply group_items_id in Hg. revert Hg. apply Forall_impl.
    intros i ->. now left.
  - revert IH. apply Forall_impl. intros i Hi. now right.
Qed.

Lemma items_of_all order_id g :
  Forall (fun i => OrderItem.order_id i = order_id) g -> items_of order_id g = g.
Proof.
  unfold items_of. induction 1 as [|i g Hi _ IH]; simpl; [reflexivity|].
  rewrite Hi, Z.eqb_refl. now f_equal.
Qed.

Lemma items_of_none order_id g :
  Forall (fun i => OrderItem.order_id i <> order_id) g -> items_of order_id g = [].
Proof.
  unfold items_of. induction 1 as [|i g Hi _ IH]; simpl; [reflexivity|].
  apply Z.eqb_neq in Hi. now rewrite Hi.
Qed.

Lemma items_of_app order_id g1 g2 :
  items_of order_id (g1 ++ g2) = (items_of order_id g1 ++ items_of order_id g2)%list.
Proof. apply filter_app. Qed.

(** With distinct order ids, the rows of an order are the group its pass
    appended. *)
Lemma groups_filter products orders groups :
  Forall2 (group_of products) orders groups ->
  NoDup (map Order.order_id orders) ->
  forall o g, In (o, g) (combine orders groups) ->
              items_of (Order.order_id o) (List.concat groups) = g.
Proof.
  induction 1 as [|o1 g1 os gs Hg Hrest IH]; intros Hnd o g Hin; simpl in *.
  - contradiction.
  - inversion Hnd as [|? ? Hnotin Hnd']; subst.
    rewrite items_of_app. destruct Hin as [Heq | Hin].
    + injection Heq as <- <-.
      rewrite (items_of_all _ _ (group_items_id _ _ _ Hg)).
      rewrite items_of_none; [apply app_nil_r|].
      apply groups_ids_in in Hrest. revert Hrest. apply Forall_impl.
      intros i Hi Heq. apply Hnotin. now rewrite <- Heq.
    + rewrite items_of_none.
      * simpl. now apply IH.
      * apply group_items_id in Hg. revert Hg. apply Forall_impl.
        intros i -> Heq. apply Hnotin. rewrite Heq.
        apply in_map. eapply in_combine_l; eassumption.
Qed.

Lemma Forall2_combine_l {A B} (R : A -> B -> Prop) xs ys x :
  Forall2 R xs ys -> In x xs -> exists y, In (x, y) (combine xs ys) /\ R x y.
Proof.
  induction 1 as [|a b xs ys Hab _ IH]; intros Hin; simpl in *; [contradiction|].
  destruct Hin as [-> | Hin].
  - exists b. auto.
  - destruct (IH Hin) as (y & Hy & HR). exists y. auto.
Qed.

Lemma in_concat_combine {A B} (xs : list A) (ys : list (list B)) i :
  List.length xs = List.length ys -> In i (List.concat ys) ->
  exists x y, In (x, y) (combine xs ys) /\ In i y.
Proof.
  revert ys. induction xs as [|x xs IH]; intros [|y ys] Hlen Hin;
    simpl in *; try contradiction; try discriminate.
  apply in_app_or in Hin. destruct Hin as [Hin | Hin].
  - exists x, y. auto.
  - destruct (IH ys) as (x' & y' & H1 & H2); [congruence | assumption |].
    exists x', y'. auto.
Qed.

Lemma dict_get_In (d : dict) k v :
  NoDup (map fst d) -> In (k, v) d -> dict_get k d = Some v.
Proof.
  induction d as [|[k' v'] d IH]; intros Hnd Hin; simpl in *; [contradiction|].
  inversion Hnd as [|? ? Hnotin Hnd']; subst.
  destruct Hin as [Heq | Hin].
  - injection Heq as -> ->. now rewrite Z.eqb_refl.
  - destruct (Z.eqb_spec k k') as [-> | _]; [|now apply IH].
    exfalso. apply Hnotin. change k' with (fst (k', v)). now apply in_map.
Qed.

Lemma bindings_keys {R : Order.t -> list OrderItem.t -> Prop} orders groups :
  Forall2 R orders groups ->
  map fst (bindings orders groups) = map Order.order_id orders.
Proof.
  unfold bindings. induction 1; simpl; [reflexivity | now f_equal].
Qed.

Lemma order_totals_lookup products orders groups o g :
  Forall2 (group_of products) orders groups ->
  NoDup (map Order.order_id orders) ->
  In (o, g) (combine orders groups) ->
  dict_get (Order.order_id o) (rev (bindings orders groups))
  = Some (round2 (fsum (map OrderItem.line_total g))).
Proof.
  intros Hg Hnd Hin. apply dict_get_In.
  - rewrite map_rev, (bindings_keys _ _ Hg). now apply NoDup_rev.
  - apply -> in_rev. unfold bindings.
    change (Order.order_id o, round2 (fsum (map OrderItem.line_total g)))
      with ((fun og : Order.t * list OrderItem.t =>
               (Order.order_id (fst og),
                round2 (fsum (map OrderItem.line_total (snd og))))) (o, g)).
    now apply in_map.
Qed.

(** What the back-fill writes: the rounded sum of the order's line totals,
    unless that is NaN, which [fillna] replaces by [0.0]. *)
Lemma create_order_items_totals orders products s items orders' s' :
  create_order_items orders products s = Ok (items, orders') s' ->
  NoDup (map Order.order_id orders) ->
  forall o, In o orders' ->
    let t := round2 (sum_line_totals (Order.order_id o) items) in
    Order.order_total o = if is_nan t then 0%float else t.
Proof.
  intros H Hnd o Ho.
  apply create_order_items_spec in H. destruct H as (groups & Hg & -> & ->).
  apply in_map_iff in Ho. destruct Ho as (o0 & <- & Ho0).
  destruct (Forall2_combine_l _ _ _ _ Hg Ho0) as (g & Hin & _).
  simpl. unfold sum_line_totals, map_fillna.
  rewrite (groups_filter _ _ _ Hg Hnd _ _ Hin).
  now rewrite (order_totals_lookup _ _ _ _ _ Hg Hnd Hin).
Qed.

Lemma create_order_items_ids orders products s items orders' s' :
  create_order_items orders products s = Ok (items, orders') s' ->
  map Order.order_id orders' = map Order.order_id orders /\
  map Order.customer_id orders' = map Order.customer_id orders /\
  map Order.order_date orders' = map Order.order_date orders.
Proof.
  intros H. apply create_order_items_spec in H.
  destruct H as (groups & _ & _ & ->).
  rewrite !map_map. simpl. auto.
Qed.

(** Every row comes from one pass of the inner loop, for an order of the frame
    and a product of the frame. *)
Lemma create_order_items_rows orders products s items orders' s' :
  create_order_items orders products s = Ok (items, orders') s' ->
  forall i, In i items ->
    exists o p, In o orders /\ In p products /\ line_of (Order.order_id o) p i.
Proof.
  intros H i Hi.
  apply create_order_items_spec in H. destruct H as (groups & Hg & -> & _).
  destruct (in_concat_combine orders groups i (Forall2_length Hg) Hi)
    as (o & g & Hog & Hig).
  assert (Ho : In o orders) by (eapply in_combine_l; eassumption).
  assert (Hgo0 : group_of products o g).
  { clear - Hg Hog. induction Hg as [|o1 g1 os gs H1 _ IH]; simpl in Hog;
      [contradiction|].
    destruct Hog as [Heq | Hin]; [injection Heq as <- <-; exact H1 | now apply IH]. }
  destruct Hgo0 as [_ (choices & Hch & Hlines)].
  clear - Ho Hch Hlines Hig.
  induction Hlines as [|p j ch g0 Hpj _ IH]; [contradiction|].
  inversion Hch; subst. destruct Hig as [-> | Hig].
  - exists o, p. auto.
  - now apply IH.
Qed.

Lemma create_order_items_counts orders products s items orders' s' :
  create_order_items orders products s = Ok (items, orders') s' ->
  NoDup (map Order.order_id orders) ->
  forall o, In o orders ->
    (1 <= List.length (items_of (Order.order_id o) items) <= 5)%nat.
Proof.
  intros H Hnd o Ho.
  apply create_order_items_spec in H. destruct H as (groups & Hg & -> & _).
  destruct (Forall2_combine_l _ _ _ _ Hg Ho) as (g & Hin & Hgo).
  rewrite (groups_filter _ _ _ Hg Hnd _ _ Hin). apply Hgo.
Qed.

(** ** [create_reviews] *)

Lemma bind_ext {A B} (c : M A) (k1 k2 : A -> M B) s :
  (forall a s1, k1 a s1 = k2 a s1) -> bind c k1 s = bind c k2 s.
Proof. intros H. unfold bind. destruct (c s); [apply H | reflexivity]. Qed.

Lemma reviews_loop_spec today orders order_items rows review_id s rows' s' :
  reviews_loop today orders order_items rows review_id s = Ok rows' s' ->
  exists new, rows' = (rows ++ new)%list /\
              Forall (review_of today orders order_items) new.
Proof.
  revert rows review_id s.
  induction orders as [|o rest IH]; intros rows review_id s H; simpl in H.
  - inv_ret H. exists []. rewrite app_nil_r. split; [reflexivity | constructor].
  - assert (Hweaken : forall new,
              Forall (review_of today rest order_items) new ->
              Forall (review_of today (o :: rest) order_items) new).
    { intros new. apply Forall_impl. intros r (o' & item & dt & Ho' & Hrest).
      exists o', item, dt. split; [now right | exact Hrest]. }
    inv_bind H.
    destruct (REVIEW_PROBABILITY <? v)%float.
    { apply IH in H. destruct H as (new & -> & Hnew). exists new. auto. }
    destruct (items_of (Order.order_id o) order_items) as [|i0 items0] eqn:Hitems.
    { apply IH in H. destruct H as (new & -> & Hnew). exists new. auto. }
    inv_bind H. inv_bind H. inv_bind H. inv_bind H.
    apply sample1_In in Hrun0. apply random_date_range in Hrun1.
    apply randint_range in Hrun2. apply choice_In in Hrun3.
    apply IH in H. destruct H as (new & -> & Hnew).
    eexists (_ :: new). rewrite <- app_assoc. split; [reflexivity|].
    constructor; [|auto].
    exists o, v0, v1. simpl. rewrite Hitems.
    unfold in_window. repeat split; auto; lia.
Qed.

Lemma reviews_loop_total today orders order_items rows review_id s :
  exists rows' s', reviews_loop today orders order_items rows review_id s = Ok rows' s'.
Proof.
  revert rows review_id s.
  induction orders as [|o rest IH]; intros rows review_id s; simpl.
  - unfold ret. eauto.
  - destruct (random_total s) as (r & s1 & Hr).
    rewrite (bind_Ok_intro _ _ _ _ _ Hr).
    destruct (REVIEW_PROBABILITY <? r)%float; [apply IH|].
    destruct (items_of (Order.order_id o) order_items) as [|i0 items0];
      [apply IH|].
    destruct (sample1_total (i0 :: items0) s1) as (item & s2 & Hi); [discriminate|].
    rewrite (bind_Ok_intro _ _ _ _ _ Hi).
    destruct (random_date_total (today - 180) today s2) as (dt & s3 & Hd); [lia|].
    rewrite (bind_Ok_intro _ _ _ _ _ Hd).
    destruct (randint_total 1 5 s3) as (rating & s4 & Hrt); [lia|].
    rewrite (bind_Ok_intro _ _ _ _ _ Hrt).
    destruct (choice_total review_texts s4) as (text & s5 & Ht); [discriminate|].
    rewrite (bind_Ok_intro _ _ _ _ _ Ht). apply IH.
Qed.

(** The loop reads an order's [order_id] and [customer_id] and nothing else of
    it. *)
Lemma reviews_loop_reads today orders1 orders2 order_items rows review_id s :
  map Order.order_id orders1 = map Order.order_id orders2 ->
  map Order.customer_id orders1 = map Order.customer_id orders2 ->
  reviews_loop today orders1 order_items rows review_id s
  = reviews_loop today orders2 order_items rows review_id s.
Proof.
  revert orders2 rows review_id s.
  induction orders1 as [|o1 rest1 IH]; intros [|o2 rest2] rows review_id s Hid Hc;
    simpl in Hid, Hc; try discriminate; [reflexivity|].
  injection Hid as Hid0 Hid. injection Hc as Hc0 Hc. simpl.
  apply bind_ext. intros r s1.
  destruct (REVIEW_PROBABILITY <? r)%float; [now apply IH|].
  rewrite Hid0, Hc0.
  destruct (items_of (Order.order_id o2) order_items) as [|i0 items0];
    [now apply IH|].
  apply bind_ext. intros item s2. apply bind_ext. intros dt s3.
  apply bind_ext. intros rating s4. apply bind_ext. intros text s5.
  now apply IH.
Qed.

Lemma create_reviews_spec today orders order_items s reviews s' :
  create_reviews today orders order_items s = Ok reviews s' ->
  Forall (review_of today orders order_items) reviews.
Proof.
  unfold create_reviews. intros H. apply reviews_loop_spec in H.
  now destruct H as (new & -> & Hnew).
Qed.

(** ** [create_orders], [create_customers], [create_products] *)

Lemma range_NoDup a b : NoDup (range a b).
Proof.
  unfold range. generalize (seq_NoDup (Z.to_nat (b - a)) 0).
  generalize (seq 0 (Z.to_nat (b - a))).
  induction 1 as [|k l Hk _ IH]; simpl; constructor; [|exact IH].
  intros Hin. apply in_map_iff in Hin. destruct Hin as (j & Hj & Hjl).
  assert (j = k) by lia. now subst.
Qed.

Lemma range_bounds a b i : In i (range a b) -> a <= i < b.
Proof.
  unfold range. intros H. apply in_map_iff in H. destruct H as (k & <- & Hk).
  apply in_seq in Hk. lia.
Qed.

Lemma order_row_spec today customers order_id s o s' :
  order_row today customers order_id s = Ok o s' ->
  Order.order_id o = order_id /\
  In (Order.customer_id o) (map Customer.customer_id customers) /\
  (exists dt, Order.order_date o = isoformat dt /\ in_window today dt) /\
  Order.order_total o = 0%float.
Proof.
  unfold order_row. intros H. inv_bind H. inv_bind H. inv_bind H. inv_bind H.
  inv_ret H. simpl.
  apply sample1_In in Hrun. apply random_date_range in Hrun0.
  repeat split; [now apply in_map|].
  exists v0. split; [reflexivity | exact Hrun0].
Qed.

Lemma create_orders_spec today customers s orders s' :
  create_orders today customers s = Ok orders s' ->
  map Order.order_id orders = range 1 (NUM_ORDERS + 1) /\
  Forall (fun o =>
            In (Order.customer_id o) (map Customer.customer_id customers) /\
            (exists dt, Order.order_date o = isoformat dt /\ in_window today dt) /\
            Order.order_total o = 0%float) orders.
Proof.
  unfold create_orders. intros H. apply for_rows_spec in H.
  induction H as [|id o ids os (s1 & s2 & Ho) _ [IH1 IH2]]; simpl.
  - split; [reflexivity | constructor].
  - apply order_row_spec in Ho. destruct Ho as (Hid & Hrest).
    split; [now f_equal | now constructor].
Qed.

Lemma choices1_total {A} (population : list A) s :
  List.length population = 5%nat ->
  exists x s', choices1 population status_weights s = Ok x s'.
Proof.
  destruct population as [|d l]; [discriminate|]. intros Hlen.
  unfold choices1. rewrite Hlen.
  change (negb (List.length status_weights =? 5)%nat) with false.
  change ((last (accumulate status_weights) 0 + 0 <=? 0)%float) with false.
  cbv iota.
  destruct (random_total s) as (r & s1 & Hr).
  rewrite (bind_Ok_intro _ _ _ _ _ Hr). unfold ret. eauto.
Qed.

Lemma create_orders_total today customers s :
  customers <> [] -> exists orders s', create_orders today customers s = Ok orders s'.
Proof.
  intros Hc. unfold create_orders. apply for_rows_total. clear s.
  intros id s _. unfold order_row.
  destruct (sample1_total customers s Hc) as (c & s1 & H1).
  rewrite (bind_Ok_intro _ _ _ _ _ H1).
  destruct (random_date_total (today - 180) today s1) as (dt & s2 & H2); [lia|].
  rewrite (bind_Ok_intro _ _ _ _ _ H2).
  destruct (choices1_total statuses s2 eq_refl) as (st & s3 & H3).
  rewrite (bind_Ok_intro _ _ _ _ _ H3).
  destruct (choice_total ["ground"; "express"; "pickup"] s3) as (sh & s4 & H4);
    [discriminate|].
  rewrite (bind_Ok_intro _ _ _ _ _ H4). unfold ret. eauto.
Qed.

Lemma customer_row_spec today customer_id s c s' :
  customer_row today customer_id s = Ok c s' ->
  Customer.customer_id c = customer_id /\
  exists first last, In first first_names /\ In last last_names /\
                     Customer.email c = make_email first last customer_id.
Proof.
  unfold customer_row. intros H. do 6 inv_bind H. inv_ret H. simpl.
  apply choice_In in Hrun, Hrun0. split; [reflexivity|].
  exists v, v0. auto.
Qed.

Lemma create_customers_spec today s customers s' :
  create_customers today s = Ok customers s' ->
  Forall2 (fun id c =>
             Customer.customer_id c = id /\
             exists first last, In first first_names /\ In last last_names /\
                                Customer.email c = make_email first last id)
          (range 1 (NUM_CUSTOMERS + 1)) customers.
Proof.
  unfold create_customers. intros H. apply for_rows_spec in H.
  revert H. apply Forall2_impl. intros id c (s1 & s2 & Hc).
  now apply customer_row_spec in Hc.
Qed.

Lemma create_customers_total today s :
  exists customers s', create_customers today s = Ok customers s'.
Proof.
  unfold create_customers. apply for_rows_total. clear s.
  intros id s _. unfold customer_row.
  destruct (choice_total first_names s) as (f & s1 & H1); [discriminate|].
  rewrite (bind_Ok_intro _ _ _ _ _ H1).
  destruct (choice_total last_names s1) as (l & s2 & H2); [discriminate|].
  rewrite (bind_Ok_intro _ _ _ _ _ H2).
  destruct (random_date_total (today - 365) today s2) as (dt & s3 & H3); [lia|].
  rewrite (bind_Ok_intro _ _ _ _ _ H3).
  destruct (choice_total cities s3) as (c & s4 & H4); [discriminate|].
  rewrite (bind_Ok_intro _ _ _ _ _ H4).
  destruct (choice_total states s4) as (st & s5 & H5); [discriminate|].
  rewrite (bind_Ok_intro _ _ _ _ _ H5).
  destruct (choice_total ["Bronze"; "Silver"; "Gold"; "Platinum"] s5)
    as (t & s6 & H6); [discriminate|].
  rewrite (bind_Ok_intro _ _ _ _ _ H6). unfold ret. eauto.
Qed.

(** ** Emails *)

Lemma chars_app (a b : string) :
  list_ascii_of_string (a ++ b)
  = (list_ascii_of_string a ++ list_ascii_of_string b)%list.
Proof. induction a as [|c a IH]; simpl; [reflexivity | now rewrite IH]. Qed.

Lemma uint_chars_digits d :
  forallb is_digit (list_ascii_of_string (NilEmpty.string_of_uint d)) = true.
Proof. induction d; simpl; auto. Qed.

Lemma str_digits z :
  0 <= z -> forallb is_digit (list_ascii_of_string (str z)) = true.
Proof.
  intros Hz. unfold str. destruct z as [|p|p]; [reflexivity | | lia].
  simpl. unfold NilZero.string_of_uint.
  destruct (Pos.to_uint p); try reflexivity; apply uint_chars_digits.
Qed.

Lemma str_inj a b : str a = str b -> a = b.
Proof.
  unfold str. intros H. apply DecimalZ.to_int_inj.
  assert (Hnn : forall z, Z.to_int z <> Decimal.Pos Decimal.Nil
                          /\ Z.to_int z <> Decimal.Neg Decimal.Nil).
  { intros [|p|p]; simpl; split; try discriminate;
      intros E; injection E as E; now apply DecimalPos.Unsigned.to_uint_nonnil in E. }
  destruct (Hnn a) as [Ha1 Ha2]. destruct (Hnn b) as [Hb1 Hb2].
  pose proof (NilZero.isi _ Ha1 Ha2) as Ea.
  pose proof (NilZero.isi _ Hb1 Hb2) as Eb.
  rewrite H in Ea. rewrite Ea in Eb. now injection Eb.
Qed.

(** Two texts that end in a run of digits after a non-digit have the same run
    when they are equal. *)
Lemma digit_run_eq (xs xs' ps ps' : list ascii) c c' :
  forallb is_digit xs = true -> forallb is_digit xs' = true ->
  is_digit c = false -> is_digit c' = false ->
  (xs ++ c :: ps = xs' ++ c' :: ps')%list -> xs = xs'.
Proof.
  revert xs'. induction xs as [|x xs IH]; intros [|x' xs'] Hd Hd' Hc Hc' E;
    simpl in *.
  - reflexivity.
  - injection E as -> _. apply andb_prop in Hd'. destruct Hd' as [Hx _]. congruence.
  - injection E as -> _. apply andb_prop in Hd. destruct Hd as [Hx _]. congruence.
  - injection E as -> E. apply andb_prop in Hd, Hd'.
    f_equal. apply IH; tauto.
Qed.

Lemma trailing_digits_eq (a a' d d' : list ascii) :
  ends_nondigit a = true -> ends_nondigit a' = true ->
  forallb is_digit d = true -> forallb is_digit d' = true ->
  (a ++ d = a' ++ d')%list -> d = d'.
Proof.
  unfold ends_nondigit. intros Ha Ha' Hd Hd' E.
  apply (f_equal (@rev ascii)) in E. rewrite !rev_app_distr in E.
  destruct (rev a) as [|c ps]; [discriminate|].
  destruct (rev a') as [|c' ps']; [discriminate|].
  apply negb_true_iff in Ha, Ha'.
  assert (Hrev : forall l, forallb is_digit l = true ->
                           forallb is_digit (rev l) = true).
  { intros l Hl. rewrite forallb_forall in *. intros x Hx.
    apply Hl. now apply in_rev. }
  assert (Hr : rev d = rev d').
  { apply (digit_run_eq _ _ ps ps' c c'); auto. }
  apply (f_equal (@rev ascii)) in Hr. now rewrite !rev_involutive in Hr.
Qed.

Lemma name_pools_end_nondigit :
  forallb (fun first =>
    forallb (fun last =>
      ends_nondigit (list_ascii_of_string (lower first ++ "." ++ lower last)))
      last_names) first_names = true.
Proof. vm_compute. reflexivity. Qed.

(** The id can be read back from an email: equal emails have equal ids. *)
Lemma make_email_inj first last id first' last' id' :
  In first first_names -> In last last_names ->
  In first' first_names -> In last' last_names ->
  0 <= id -> 0 <= id' ->
  make_email first last id = make_email first' last' id' -> id = id'.
Proof.
  intros Hf Hl Hf' Hl' Hid Hid' E. apply str_inj.
  pose proof name_pools_end_nondigit as Hpools.
  rewrite forallb_forall in Hpools.
  pose proof (Hpools _ Hf) as H1. pose proof (Hpools _ Hf') as H1'.
  rewrite forallb_forall in H1, H1'.
  specialize (H1 _ Hl). specialize (H1' _ Hl').
  unfold make_email in E.
  apply (f_equal list_ascii_of_string) in E.
  assert (Hsplit : forall f l i,
    list_ascii_of_string (lower f ++ "." ++ lower l ++ str i ++ "@example.com")
    = ((list_ascii_of_string (lower f ++ "." ++ lower l)
        ++ list_ascii_of_string (str i))
       ++ list_ascii_of_string "@example.com")%list).
  { intros f l i. rewrite !chars_app, <- !app_assoc. reflexivity. }
  rewrite !Hsplit in E. apply app_inv_tail in E.
  rewrite <- (string_of_list_ascii_of_string (str id)).
  rewrite <- (string_of_list_ascii_of_string (str id')).
  f_equal.
  eapply trailing_digits_eq; [exact H1 | exact H1' | | | exact E];
    now apply str_digits.
Qed.

Lemma Forall2_In_r {A B} (R : A -> B -> Prop) xs ys y :
  Forall2 R xs ys -> In y ys -> exists x, In x xs /\ R x y.
Proof.
  induction 1 as [|a b xs ys Hab _ IH]; intros Hin; simpl in *; [contradiction|].
  destruct Hin as [-> | Hin].
  - exists a. auto.
  - destruct (IH Hin) as (x & Hx & HR). exists x. auto.
Qed.

Lemma customers_emails_NoDup ids customers :
  Forall2 (fun id c =>
             Customer.customer_id c = id /\
             exists first last, In first first_names /\ In last last_names /\
                                Customer.email c = make_email first last id)
          ids customers ->
  NoDup ids -> Forall (fun id => 0 <= id) ids ->
  NoDup (map Customer.email customers).
Proof.
  induction 1 as [|id c ids cs (Hid & f & l & Hf & Hl & He) Hrest IH];
    intros Hnd Hpos; simpl; [constructor|].
  inversion Hnd as [|? ? Hnotin Hnd']; subst.
  inversion Hpos as [|? ? Hid0 Hpos']; subst.
  constructor; [|now apply IH].
  intros Hin. apply in_map_iff in Hin. destruct Hin as (c' & He' & Hc').
  destruct (Forall2_In_r _ _ _ _ Hrest Hc') as (id' & Hid' & _ & f' & l' & Hf' & Hl' & He'').
  apply Hnotin.
  assert (id' = Customer.customer_id c); [|now subst].
  rewrite Forall_forall in Hpos'.
  eapply make_email_inj; [exact Hf' | exact Hl' | exact Hf | exact Hl | | |];
    [now apply Hpos' | exact Hid0 | congruence].
Qed.

(** ** [create_products] *)

Lemma uniform_total a b s : exists u s', uniform a b s = Ok u s'.
Proof.
  unfold uniform. destruct (random_total s) as (r & s1 & Hr).
  rewrite (bind_Ok_intro _ _ _ _ _ Hr). unfold ret. eauto.
Qed.

Lemma uniform_spec a b s u s' :
  uniform a b s = Ok u s' -> exists k, u = (a + (b - a) * unit_float k)%float.
Proof.
  unfold uniform, random_random, bind, py_next, ret. intros H.
  injection H as <- _. eauto.
Qed.

Lemma product_row_spec product_id s p s' :
  product_row product_id s = Ok p s' ->
  Product.product_id p = product_id /\
  exists k1 k2,
    Product.cost p = round2 (5 + (80 - 5) * unit_float k1)%float /\
    Product.price p
    = round2 (Product.cost p * (1.2 + (2.5 - 1.2) * unit_float k2))%float.
Proof.
  unfold product_row. intros H. do 6 inv_bind H. inv_ret H. simpl.
  apply uniform_spec in Hrun2, Hrun3. destruct Hrun2 as (k1 & ->). destruct Hrun3 as (k2 & ->).
  split; [reflexivity|]. exists k1, k2. auto.
Qed.

Lemma product_row_total product_id s :
  exists p s', product_row product_id s = Ok p s'.
Proof.
  unfold product_row.
  destruct (choice_total categories s) as (c & s1 & H1); [discriminate|].
  rewrite (bind_Ok_intro _ _ _ _ _ H1).
  destruct (choice_total adjectives s1) as (a & s2 & H2); [discriminate|].
  rewrite (bind_Ok_intro _ _ _ _ _ H2).
  destruct (choice_total nouns s2) as (n & s3 & H3); [discriminate|].
  rewrite (bind_Ok_intro _ _ _ _ _ H3).
  destruct (uniform_total 5 80 s3) as (u & s4 & H4).
  rewrite (bind_Ok_intro _ _ _ _ _ H4).
  destruct (uniform_total 1.2 2.5 s4) as (m & s5 & H5).
  rewrite (bind_Ok_intro _ _ _ _ _ H5).
  destruct (choice_total [true; true; true; false] s5) as (b & s6 & H6);
    [discriminate|].
  rewrite (bind_Ok_intro _ _ _ _ _ H6). unfold ret. eauto.
Qed.

Lemma create_products_total s :
  exists products s', create_products s = Ok products s'.
Proof.
  unfold create_products. apply for_rows_total. intros id s1 _.
  apply product_row_total.
Qed.

Lemma create_products_spec s products s' :
  create_products s = Ok products s' ->
  Forall2 (fun id p =>
             Product.product_id p = id /\
             exists k1 k2,
               Product.cost p = round2 (5 + (80 - 5) * unit_float k1)%float /\
               Product.price p
               = round2 (Product.cost p * (1.2 + (2.5 - 1.2) * unit_float k2))%float)
          (range 1 (NUM_PRODUCTS + 1)) products.
Proof.
  unfold create_products. intros H. apply for_rows_spec in H.
  revert H. apply Forall2_impl. intros id p (s1 & s2 & Hp).
  now apply product_row_spec in Hp.
Qed.

(** ** [main] *)

Lemma for_rows_length {A B} (f : A -> M B) xs s rows s' :
  for_rows f xs s = Ok rows s' -> List.length rows = List.length xs.
Proof.
  intros H. apply for_rows_spec in H. symmetry. now apply Forall2_length in H.
Qed.

Lemma nonempty_length {A} (l : list A) : (0 < List.length l)%nat -> l <> [].
Proof. destruct l; simpl; [lia | discriminate]. Qed.

(** [main] runs the five generators in order, each on the state the one before
    left, and hands [create_reviews] the back-filled orders. *)
Lemma main_spec mt today s0 t s' :
  main mt today s0 = Ok t s' ->
  exists orders0 s1 s2 s3 s4 s5,
    random_seed mt RANDOM_SEED s0 = Ok tt s1 /\
    create_products s1 = Ok (products_csv t) s2 /\
    create_customers today s2 = Ok (customers_csv t) s3 /\
    create_orders today (customers_csv t) s3 = Ok orders0 s4 /\
    create_order_items orders0 (products_csv t) s4
    = Ok (order_items_csv t, orders_csv t) s5 /\
    create_reviews today (orders_csv t) (order_items_csv t) s5
    = Ok (reviews_csv t) s'.
Proof.
  unfold main. intros H. do 5 inv_bind H. destruct v3 as [items orders1].
  inv_bind H. inv_ret H. simpl. destruct v.
  exists v2, s, s1, s2, s3, s4. repeat split; assumption.
Qed.

Lemma bind_Ok_step {A B} (c : M A) (k : A -> M B) s a s1 r :
  c s = Ok a s1 -> k a s1 = r -> bind c k s = r.
Proof. unfold bind. now intros -> ->. Qed.

Lemma range_length a b : List.length (range a b) = Z.to_nat (b - a).
Proof. unfold range. now rewrite length_map, length_seq. Qed.

Lemma create_products_nonempty s products s' :
  create_products s = Ok products s' -> products <> [].
Proof.
  intros H. apply create_products_spec in H. apply Forall2_length in H.
  rewrite range_length in H. intros ->. discriminate H.
Qed.

Lemma create_customers_nonempty today s customers s' :
  create_customers today s = Ok customers s' -> customers <> [].
Proof.
  intros H. apply create_customers_spec in H. apply Forall2_length in H.
  rewrite range_length in H. intros ->. discriminate H.
Qed.

Lemma main_eq mt today :
  main mt today
  = (_ <- random_seed mt RANDOM_SEED ;;
     products <- create_products ;;
     customers <- create_customers today ;;
     orders <- create_orders today customers ;;
     '(order_items, orders) <- create_order_items orders products ;;
     reviews <- create_reviews today orders order_items ;;
     ret (mk_tables products customers orders order_items reviews)).
Proof. reflexivity. Qed.

Lemma main_total mt today s0 : exists t s', main mt today s0 = Ok t s'.
Proof.
  destruct (create_products_total
              (mk_rng (mt RANDOM_SEED) 0 (np_draws s0) (np_pos s0)))
    as (products & s2 & Hp).
  destruct (create_customers_total today s2) as (customers & s3 & Hc).
  destruct (create_orders_total today customers s3
              (create_customers_nonempty _ _ _ _ Hc)) as (orders & s4 & Ho).
  destruct (create_order_items_total orders products s4
              (create_products_nonempty _ _ _ Hp))
    as (items & orders' & s5 & Hi).
  destruct (reviews_loop_total today orders' items [] 1 s5) as (reviews & s6 & Hr).
  exists (mk_tables products customers orders' items reviews), s6.
  rewrite main_eq.
  eapply bind_Ok_step; [reflexivity|].
  eapply bind_Ok_step; [exact Hp|].
  eapply bind_Ok_step; [exact Hc|].
  eapply bind_Ok_step; [exact Ho|].
  eapply bind_Ok_step; [exact Hi|].
  eapply bind_Ok_step; [exact Hr|].
  reflexivity.
Qed.

(** * Binary64 arithmetic *)

(** ** Binary64 rounding, from the specification of the primitive floats *)

Lemma digits2_pos_bounds m :
  2 ^ (Zpos (digits2_pos m) - 1) <= Zpos m < 2 ^ Zpos (digits2_pos m).
Proof.
  induction m as [m IH|m IH|]; simpl digits2_pos.
  - rewrite Pos2Z.inj_succ.
    replace (Z.succ (Zpos (digits2_pos m)) - 1) with (Zpos (digits2_pos m) - 1 + 1) by lia.
    rewrite Z.pow_succ_r by lia. rewrite Z.pow_add_r by lia.
    change (2 ^ 1) with 2. lia.
  - rewrite Pos2Z.inj_succ.
    replace (Z.succ (Zpos (digits2_pos m)) - 1) with (Zpos (digits2_pos m) - 1 + 1) by lia.
    rewrite Z.pow_succ_r by lia. rewrite Z.pow_add_r by lia.
    change (2 ^ 1) with 2. lia.
  - simpl. lia.
Qed.

Lemma pow2_lt_inv a b : 0 <= a -> 0 <= b -> 2 ^ a < 2 ^ b -> a < b.
Proof.
  intros Ha Hb H. destruct (Z_lt_le_dec a b) as [|Hle]; [assumption|].
  apply (Z.pow_le_mono_r 2) in Hle; lia.
Qed.

Lemma Zdigits2_unique m d :
  0 < d -> 2 ^ (d - 1) <= Zpos m < 2 ^ d -> Zdigits2 (Zpos m) = d.
Proof.
  intros Hd [H1 H2]. simpl. pose proof (digits2_pos_bounds m) as [B1 B2].
  assert (d - 1 < Zpos (digits2_pos m)) by (apply pow2_lt_inv; lia).
  assert (Zpos (digits2_pos m) - 1 < d) by (apply pow2_lt_inv; lia).
  lia.
Qed.

Lemma shr_record_loc m l : loc_of_shr_record (shr_record_of_loc m l) = l.
Proof. destruct l as [|[| |]]; reflexivity. Qed.

Lemma shr_record_m m l : shr_m (shr_record_of_loc m l) = m.
Proof. destruct l as [|[| |]]; reflexivity. Qed.

Lemma shifted_start M l0 : shifted M l0 0 (shr_record_of_loc M l0).
Proof.
  split.
  - rewrite shr_record_m. now rewrite Z.pow_0_r, Z.div_1_r.
  - intros -> _. auto.
Qed.

Lemma shifted_step M l0 k rec :
  0 <= M -> 0 <= k -> shifted M l0 k rec -> shifted M l0 (k + 1) (shr_1 rec).
Proof.
  intros HM Hk [Hm Hex].
  assert (Hpow : 0 < 2 ^ k) by (apply Z.pow_pos_nonneg; lia).
  assert (Hdiv : M / 2 ^ (k + 1) = M / 2 ^ k / 2).
  { rewrite Z.pow_add_r, Z.pow_1_r by lia. now rewrite Z.div_div by lia. }
  assert (Hmod : M mod 2 ^ (k + 1) = M mod 2 ^ k + 2 ^ k * ((M / 2 ^ k) mod 2)).
  { rewrite Z.pow_add_r, Z.pow_1_r by lia. apply Z.rem_mul_r; lia. }
  assert (Hnn : 0 <= M / 2 ^ k) by (apply Z.div_pos; lia).
  assert (Hr : 0 <= M mod 2 ^ k) by (apply Z.mod_pos_bound; lia).
  destruct rec as [m r s]. simpl in Hm, Hex. subst m.
  assert (Hs : l0 = loc_Exact -> M mod 2 ^ (k + 1) = 0 -> r || s = false).
  { intros Hl H0. destruct Hex as [-> ->]; [assumption | | reflexivity].
    pose proof (Z.mod_pos_bound (M / 2 ^ k) 2). nia. }
  unfold shifted. rewrite Hdiv. simpl shr_1.
  destruct (M / 2 ^ k) as [|[p|p|]|p] eqn:E; simpl; try lia.
  - split; [reflexivity|]. intros Hl H0. split; [reflexivity | now apply Hs].
  - split; [rewrite Pos2Z.inj_xI; apply Z.div_unique with 1; lia|].
    intros Hl H0. exfalso. rewrite Hmod in H0.
    rewrite Pos2Z.inj_xI in H0.
    replace ((2 * Zpos p + 1) mod 2) with 1 in H0; [nia|].
    apply Z.mod_unique with (Zpos p); lia.
  - split; [rewrite Pos2Z.inj_xO; apply Z.div_unique with 0; lia|].
    intros Hl H0. split; [reflexivity | now apply Hs].
  - split; [reflexivity|].
    intros Hl H0. exfalso. rewrite Hmod in H0. change (1 mod 2) with 1 in H0. nia.
Qed.

Lemma shifted_iter M l0 p : 0 <= M ->
  forall k rec, 0 <= k -> shifted M l0 k rec ->
                shifted M l0 (k + Zpos p) (SpecFloat.iter_pos shr_1 p rec).
Proof.
  intros HM. induction p as [p IH|p IH|]; intros k rec Hk H; simpl SpecFloat.iter_pos.
  - replace (k + Zpos p~1) with (k + 1 + Zpos p + Zpos p) by lia.
    apply IH; [lia|]. apply IH; [lia|]. now apply shifted_step.
  - replace (k + Zpos p~0) with (k + Zpos p + Zpos p) by lia.
    apply IH; [lia|]. now apply IH.
  - now apply shifted_step.
Qed.

Lemma shr_spec M l e n :
  0 <= M -> 0 <= n ->
  exists rec, shr (shr_record_of_loc M l) e n = (rec, e + n) /\
              shr_m rec = M / 2 ^ n /\
              (l = loc_Exact -> M mod 2 ^ n = 0 -> loc_of_shr_record rec = loc_Exact).
Proof.
  intros HM Hn. destruct n as [|p|p]; [| |lia].
  - exists (shr_record_of_loc M l). simpl. rewrite Z.add_0_r, Z.div_1_r.
    split; [reflexivity|]. split; [apply shr_record_m|].
    intros -> _. reflexivity.
  - exists (SpecFloat.iter_pos shr_1 p (shr_record_of_loc M l)). split; [reflexivity|].
    destruct (shifted_iter M l p HM 0 _ (Z.le_refl 0) (shifted_start M l)) as [Hm Hex].
    simpl in Hm. split; [exact Hm|].
    intros Hl H0. destruct (Hex Hl H0) as [Hr Hs].
    destruct (SpecFloat.iter_pos shr_1 p (shr_record_of_loc M l)) as [m r s].
    simpl in Hr, Hs. now subst.
Qed.

Lemma round_nearest_even_cases m l :
  (round_nearest_even m l = m \/ round_nearest_even m l = m + 1) /\
  (l = loc_Exact -> round_nearest_even m l = m).
Proof.
  split; [|now intros ->].
  destruct l as [|[| |]]; simpl; auto. destruct (Z.even m); auto.
Qed.

Lemma fexp_normal e : -1021 <= e -> fexp prec emax e = e - 53.
Proof. unfold fexp, emin, prec, emax. lia. Qed.

(** Rounding a mantissa of at least 53 bits: the result is the truncation to
    53 bits or its successor, and the truncation when nothing is lost. *)
Lemma pow2_52 : 2 ^ 52 = 4503599627370496.
Proof. reflexivity. Qed.
Lemma pow2_53 : 2 ^ 53 = 9007199254740992.
Proof. reflexivity. Qed.

Ltac pow_consts := pose proof pow2_52; pose proof pow2_53.

Lemma binary_round_aux_spec mx ex lx :
  2 ^ 52 <= mx -> -1074 <= ex ->
  let n0 := Zdigits2 mx - 53 in
  let q := mx / 2 ^ n0 in
  0 <= n0 /\ 2 ^ 52 <= q < 2 ^ 53 /\
  exists m e,
    2 ^ 52 <= Zpos m < 2 ^ 53 /\ ex + n0 <= e <= ex + n0 + 1 /\
    (Zpos m * 2 ^ (e - ex - n0) = q \/ Zpos m * 2 ^ (e - ex - n0) = q + 1) /\
    (lx = loc_Exact -> mx mod 2 ^ n0 = 0 -> Zpos m * 2 ^ (e - ex - n0) = q) /\
    binary_round_aux prec emax false mx ex lx
    = if e <=? 971 then S754_finite false m e else S754_infinity false.
Proof.
  intros Hmx Hex n0 q. pow_consts.
  destruct mx as [|pm|pm]; try lia.
  pose proof (digits2_pos_bounds pm) as [D1 D2].
  simpl Zdigits2 in n0.
  assert (Hd : 53 <= Zpos (digits2_pos pm)).
  { assert (52 < Zpos (digits2_pos pm)); [apply pow2_lt_inv; lia | lia]. }
  assert (Hn0 : 0 <= n0) by (unfold n0; lia).
  assert (Hq : 2 ^ 52 <= q < 2 ^ 53).
  { unfold q.
    assert (Hp : 0 < 2 ^ n0) by (apply Z.pow_pos_nonneg; lia).
    replace (Zpos (digits2_pos pm) - 1) with (52 + n0) in D1 by (unfold n0; lia).
    replace (Zpos (digits2_pos pm)) with (53 + n0) in D2 by (unfold n0; lia).
    rewrite Z.pow_add_r in D1, D2 by lia. split.
    - apply Z.div_le_lower_bound; lia.
    - apply Z.div_lt_upper_bound; lia. }
  split; [exact Hn0|]. split; [exact Hq|].
  unfold binary_round_aux, shr_fexp.
  simpl Zdigits2.
  rewrite fexp_normal by lia.
  replace (Zpos (digits2_pos pm) + ex - 53 - ex) with n0 by (unfold n0; lia).
  destruct (shr_spec (Zpos pm) lx ex n0 ltac:(lia) Hn0) as (rec & -> & Hm & Hloc).
  fold q in Hm.
  destruct (round_nearest_even_cases (shr_m rec) (loc_of_shr_record rec)) as [Hcase Hexact].
  set (m2 := round_nearest_even (shr_m rec) (loc_of_shr_record rec)) in *.
  rewrite Hm in Hcase, Hexact.
  assert (Hm2 : 2 ^ 52 <= m2 <= 2 ^ 53) by lia.
  destruct (Z_lt_le_dec m2 (2 ^ 53)) as [Hlt | Hge].
  - (* no carry *)
    destruct m2 as [|p2|p2] eqn:E2; try lia.
    rewrite (Zdigits2_unique p2 53) by lia.
    rewrite fexp_normal by lia.
    replace (53 + (ex + n0) - 53 - (ex + n0)) with 0 by lia.
    simpl shr. simpl shr_m.
    exists p2, (ex + n0).
    replace (ex + n0 - ex - n0) with 0 by lia. rewrite Z.pow_0_r, Z.mul_1_r.
    change (emax - prec) with 971.
    repeat split; try lia.
    intros Hl Hz. apply Hexact. now apply Hloc.
  - (* carry to the next binade *)
    assert (E2 : m2 = 9007199254740992) by lia. rewrite E2.
    change (Zdigits2 9007199254740992) with 54.
    rewrite fexp_normal by lia.
    replace (54 + (ex + n0) - 53 - (ex + n0)) with 1 by lia.
    simpl shr. simpl shr_m.
    exists 4503599627370496%positive, (ex + n0 + 1).
    replace (ex + n0 + 1 - ex - n0) with 1 by lia.
    change (emax - prec) with 971.
    change (Zpos 4503599627370496 * 2 ^ 1) with 9007199254740992.
    repeat split; try lia.
    intros Hl Hz. specialize (Hexact (Hloc Hl Hz)). lia.
Qed.

(** ** Values *)

Lemma bpow_pos e : (0 < bpow e)%R.
Proof. apply powerRZ_lt. lra. Qed.

Lemma bpow_add a b : bpow (a + b) = (bpow a * bpow b)%R.
Proof. apply powerRZ_add. lra. Qed.

Lemma bpow_IZR n : 0 <= n -> bpow n = IZR (2 ^ n).
Proof.
  intros Hn. unfold bpow. destruct n as [|p|p]; [reflexivity | | lia].
  simpl. rewrite pow_IZR. now rewrite positive_nat_Z.
Qed.

Lemma bpow_le a b : a <= b -> (bpow a <= bpow b)%R.
Proof.
  intros Hab. replace b with (a + (b - a)) by lia.
  rewrite bpow_add, (bpow_IZR (b - a)) by lia.
  assert (1 <= 2 ^ (b - a)) by (apply Z.lt_pred_le; apply Z.pow_pos_nonneg; lia).
  apply IZR_le in H. pose proof (bpow_pos a). nra.
Qed.

Lemma bpow_lt a b : a < b -> (bpow a < bpow b)%R.
Proof.
  intros Hab. replace b with (a + 1 + (b - a - 1)) by lia.
  rewrite !bpow_add, (bpow_IZR (b - a - 1)), (bpow_IZR 1) by lia.
  assert (1 <= 2 ^ (b - a - 1)) by (apply Z.lt_pred_le; apply Z.pow_pos_nonneg; lia).
  apply IZR_le in H. pose proof (bpow_pos a). change (2 ^ 1) with 2. nra.
Qed.

Lemma F2R_shift m e k : 0 <= k -> F2R m (e + k) = F2R (m * 2 ^ k) e.
Proof.
  intros Hk. unfold F2R. rewrite bpow_add, (bpow_IZR k), mult_IZR by lia. ring.
Qed.

Lemma F2R_le m1 m2 e : m1 <= m2 -> (F2R m1 e <= F2R m2 e)%R.
Proof.
  intros H. apply IZR_le in H. unfold F2R. pose proof (bpow_pos e). nra.
Qed.

Lemma F2R_lt m1 m2 e : m1 < m2 -> (F2R m1 e < F2R m2 e)%R.
Proof.
  intros H. apply IZR_lt in H. unfold F2R. pose proof (bpow_pos e). nra.
Qed.

Lemma F2R_lt_inv m1 m2 e : (F2R m1 e < F2R m2 e)%R -> m1 < m2.
Proof.
  intros H. destruct (Z_lt_le_dec m1 m2) as [|Hle]; [assumption|].
  apply (F2R_le _ _ e) in Hle. lra.
Qed.

Lemma F2R_le_inv m1 m2 e : (F2R m1 e <= F2R m2 e)%R -> m1 <= m2.
Proof.
  intros H. destruct (Z_le_gt_dec m1 m2) as [|Hgt]; [assumption|].
  apply Z.gt_lt, (F2R_lt _ _ e) in Hgt. lra.
Qed.

Lemma F2R_pos m e : 0 < m -> (0 < F2R m e)%R.
Proof.
  intros H. apply IZR_lt in H. unfold F2R. pose proof (bpow_pos e). nra.
Qed.

(** Normal mantissas order by exponent first. *)
Lemma F2R_lt_exp m1 e1 m2 e2 :
  m1 < 2 ^ 53 -> 2 ^ 52 <= m2 -> e1 < e2 -> (F2R m1 e1 < F2R m2 e2)%R.
Proof.
  intros H1 H2 He. pow_consts.
  apply Rlt_le_trans with (F2R (2 ^ 53) e1); [apply F2R_lt; lia|].
  apply Rle_trans with (F2R (2 ^ 52) (e1 + 1)).
  - rewrite F2R_shift by lia. apply F2R_le. change (2 ^ 1) with 2. lia.
  - apply Rle_trans with (F2R (2 ^ 52) e2).
    + unfold F2R. pose proof (bpow_le (e1 + 1) e2 ltac:(lia)).
      assert (0 < IZR (2 ^ 52))%R by (apply IZR_lt; lia). nra.
    + apply F2R_le; lia.
Qed.

(** ** Consequences of [rounds] *)

Lemma rounds_pos z v : rounds z v -> (0 < z /\ 0 < v)%R.
Proof.
  intros (q & g & Hq & [Hz1 Hz2] & Hv & _). pow_consts.
  pose proof (F2R_pos q g ltac:(lia)). pose proof (F2R_pos (q + 1) g ltac:(lia)).
  split; [lra|]. destruct Hv; lra.
Qed.

(** A 53-bit number below [z] is below its rounding. *)
Lemma rounds_lb z v a : rounds z v -> repr a -> (a <= z)%R -> (a <= v)%R.
Proof.
  intros (q & g & Hq & [Hz1 Hz2] & Hv & _) (ma & ea & Hma & ->) Ha. pow_consts.
  assert (Hqv : (F2R q g <= v)%R).
  { destruct Hv as [-> | ->]; [lra | apply F2R_le; lia]. }
  apply Rle_trans with (F2R q g); [|exact Hqv].
  destruct (Z_le_gt_dec g ea) as [Hge | Hlt].
  - replace ea with (g + (ea - g)) in * by lia.
    rewrite F2R_shift in * by lia. apply F2R_le.
    assert (ma * 2 ^ (ea - g) < q + 1); [|lia].
    apply (F2R_lt_inv _ _ g). lra.
  - apply Rlt_le. apply F2R_lt_exp; lia.
Qed.

(** A 53-bit number above [z] is above its rounding. *)
Lemma rounds_ub z v b : rounds z v -> repr b -> (z <= b)%R -> (v <= b)%R.
Proof.
  intros (q & g & Hq & [Hz1 Hz2] & Hv & Hex) (mb & eb & Hmb & ->) Hb. pow_consts.
  destruct (Req_dec z (F2R q g)) as [Heq | Hne]; [rewrite (Hex Heq); exact Hb|].
  assert (Hlt : (F2R q g < F2R mb eb)%R) by lra.
  assert (Hvq : (v <= F2R (q + 1) g)%R).
  { destruct Hv as [-> | ->]; [apply F2R_le; lia | lra]. }
  apply Rle_trans with (F2R (q + 1) g); [exact Hvq|].
  destruct (Z_le_gt_dec g eb) as [Hge | Hgt].
  - replace eb with (g + (eb - g)) in * by lia.
    rewrite F2R_shift in * by lia. apply F2R_le.
    apply F2R_lt_inv in Hlt. lia.
  - exfalso. assert (F2R mb eb < F2R q g)%R; [apply F2R_lt_exp; lia | lra].
Qed.

(** The relative error of rounding is below [2^-52]. *)
Lemma rounds_rel z v :
  rounds z v -> (z * (1 - bpow (-52)) <= v <= z * (1 + bpow (-52)))%R.
Proof.
  intros (q & g & Hq & [Hz1 Hz2] & Hv & _). pow_consts.
  assert (Hg : (bpow g <= z * bpow (-52))%R).
  { apply Rle_trans with (F2R (2 ^ 52) g * bpow (-52))%R.
    - unfold F2R. rewrite <- (bpow_IZR 52) by lia.
      replace (bpow 52 * bpow g * bpow (-52))%R
        with (bpow g * (bpow 52 * bpow (-52)))%R by ring.
      rewrite <- bpow_add. change (bpow (52 + -52)) with 1%R. lra.
    - pose proof (bpow_pos (-52)). pose proof (F2R_le (2 ^ 52) q g ltac:(lia)). nra. }
  assert (Hq1 : F2R (q + 1) g = (F2R q g + bpow g)%R).
  { unfold F2R. rewrite plus_IZR. ring. }
  rewrite Hq1 in *. destruct Hv as [-> | ->]; split; lra.
Qed.

(** ** From the rounding of mantissas to [rounds] *)

Lemma binary_round_aux_rounds mx ex lx z :
  2 ^ 52 <= mx -> -1074 <= ex -> Zdigits2 mx + ex <= 1023 ->
  (F2R mx ex <= z < F2R (mx + 1) ex)%R ->
  (z = F2R mx ex -> lx = loc_Exact) ->
  exists m e,
    binary_round_aux prec emax false mx ex lx = S754_finite false m e /\
    2 ^ 52 <= Zpos m < 2 ^ 53 /\
    Zdigits2 mx + ex - 53 <= e <= Zdigits2 mx + ex - 52 /\
    rounds z (F2R (Zpos m) e).
Proof.
  intros Hmx Hex Hov [Hz1 Hz2] Hl.
  destruct (binary_round_aux_spec mx ex lx Hmx Hex)
    as (Hn0 & Hq & m & e & Hm & He & HW & Hexact & Hbra).
  set (n0 := Zdigits2 mx - 53) in *. set (q := mx / 2 ^ n0) in *.
  assert (Hn0eq : n0 = Zdigits2 mx - 53) by reflexivity.
  assert (Hp : 0 < 2 ^ n0) by (apply Z.pow_pos_nonneg; lia).
  assert (Hqm : q * 2 ^ n0 <= mx < (q + 1) * 2 ^ n0).
  { unfold q. pose proof (Z.mul_div_le mx (2 ^ n0) Hp).
    pose proof (Z.mul_succ_div_gt mx (2 ^ n0) Hp). lia. }
  exists m, e. replace (e <=? 971) with true in Hbra by (symmetry; apply Z.leb_le; lia).
  split; [exact Hbra|]. split; [exact Hm|]. split; [lia|].
  assert (HV : F2R (Zpos m) e = F2R (Zpos m * 2 ^ (e - ex - n0)) (ex + n0)).
  { rewrite <- F2R_shift by lia. f_equal. lia. }
  exists q, (ex + n0). split; [exact Hq|].
  rewrite !(F2R_shift _ ex n0) by lia.
  split; [|split].
  - split.
    + apply Rle_trans with (F2R mx ex); [apply F2R_le; lia | exact Hz1].
    + apply Rlt_le_trans with (F2R (mx + 1) ex); [exact Hz2 | apply F2R_le; lia].
  - rewrite HV, !(F2R_shift _ ex n0) by lia. destruct HW as [-> | ->]; auto.
  - intros Hzq. rewrite HV, (F2R_shift _ ex n0) by lia.
    assert (Hmq : mx = q * 2 ^ n0).
    { assert (mx <= q * 2 ^ n0); [|lia]. apply (F2R_le_inv _ _ ex). lra. }
    rewrite Hexact.
    + now rewrite Hzq.
    + apply Hl. rewrite Hzq. now rewrite Hmq.
    + rewrite Hmq. apply Z.mod_mul. lia.
Qed.

(** ** The operations on positive normal floats *)

Lemma Zdigits2_range M a b :
  0 <= a -> 2 ^ a <= M < 2 ^ b -> a < Zdigits2 M <= b.
Proof.
  intros Ha [H1 H2].
  assert (0 < 2 ^ a) by (apply Z.pow_pos_nonneg; lia).
  destruct M as [|p|p]; try lia.
  pose proof (digits2_pos_bounds p) as [B1 B2]. simpl.
  assert (0 <= b).
  { destruct (Z_lt_le_dec b 0) as [Hb|]; [|lia].
    rewrite (Z.pow_neg_r 2 b Hb) in H2. lia. }
  split.
  - apply pow2_lt_inv; lia.
  - assert (Zpos (digits2_pos p) - 1 < b); [apply pow2_lt_inv; lia | lia].
Qed.

Lemma normal_digits m : normal m -> Zdigits2 (Zpos m) = 53.
Proof. intros H. apply Zdigits2_unique; [lia | exact H]. Qed.

Lemma normal_valid m e :
  normal m -> -1074 <= e <= 971 -> valid_binary (S754_finite false m e) = true.
Proof.
  intros Hm He. unfold valid_binary, SpecFloat.bounded, SpecFloat.canonical_mantissa.
  pose proof (normal_digits m Hm) as Hd. simpl in Hd. rewrite Hd.
  rewrite fexp_normal by lia.
  apply andb_true_intro. split.
  - apply Z.eqb_eq. lia.
  - apply Z.leb_le. change (emax - prec) with 971. lia.
Qed.

Lemma iter_xO m d : Zpos (Pos.iter xO m d) = Zpos m * 2 ^ Zpos d.
Proof.
  induction d as [|d IH] using Pos.peano_ind.
  - simpl. lia.
  - rewrite Pos.iter_succ, Pos2Z.inj_xO, IH, Pos2Z.inj_succ, Z.pow_succ_r by lia.
    lia.
Qed.

Lemma shl_align_spec m e e' :
  e' <= e ->
  exists mz, shl_align m e e' = (mz, e') /\ Zpos mz = Zpos m * 2 ^ (e - e').
Proof.
  intros H. unfold shl_align. destruct (e' - e) as [|d|d] eqn:E; try lia.
  - exists m. replace e' with e by lia. rewrite Z.sub_diag. split; [reflexivity | simpl; lia].
  - exists (Pos.iter xO m d). split; [reflexivity|].
    rewrite iter_xO. f_equal. f_equal. lia.
Qed.

Lemma shl_align_none m e e' : e <= e' -> shl_align m e e' = (m, e).
Proof.
  intros H. unfold shl_align. destruct (e' - e) as [|d|d] eqn:E; try lia; reflexivity.
Qed.

(** Multiplication. *)
Lemma mul_finpos x y mx ex my ey :
  Prim2SF x = S754_finite false mx ex -> Prim2SF y = S754_finite false my ey ->
  normal mx -> normal my -> -1074 <= ex + ey <= 900 ->
  exists m e,
    Prim2SF (x * y) = S754_finite false m e /\ normal m /\
    ex + ey + 52 <= e <= ex + ey + 54 /\
    rounds (F2R (Zpos mx) ex * F2R (Zpos my) ey) (F2R (Zpos m) e).
Proof.
  intros Hx Hy Hmx Hmy He. unfold normal in *. pow_consts.
  rewrite mul_spec, Hx, Hy. unfold SF64mul, SFmul. cbn [xorb].
  rewrite Pos2Z.inj_mul.
  assert (Hprod : 2 ^ 104 <= Zpos mx * Zpos my < 2 ^ 106).
  { change (2 ^ 104) with (2 ^ 52 * 2 ^ 52). change (2 ^ 106) with (2 ^ 53 * 2 ^ 53). nia. }
  pose proof (Zdigits2_range _ 104 106 ltac:(lia) Hprod) as Hd.
  destruct (binary_round_aux_rounds (Zpos mx * Zpos my) (ex + ey) loc_Exact
              (F2R (Zpos mx) ex * F2R (Zpos my) ey))
    as (m & e & Hr & Hm & Hex & Hrounds).
  - change (2 ^ 104) with 20282409603651670423947251286016 in Hprod. lia.
  - lia.
  - lia.
  - assert (E : (F2R (Zpos mx) ex * F2R (Zpos my) ey
                 = F2R (Zpos mx * Zpos my) (ex + ey))%R).
    { unfold F2R. rewrite mult_IZR, bpow_add. ring. }
    rewrite E. split; [lra | apply F2R_lt; lia].
  - reflexivity.
  - exists m, e. repeat split; try assumption; lia.
Qed.

(** Addition. *)
Lemma add_finpos x y mx ex my ey :
  Prim2SF x = S754_finite false mx ex -> Prim2SF y = S754_finite false my ey ->
  normal mx -> normal my -> -1074 <= ex <= 900 -> -1074 <= ey <= 900 ->
  exists m e,
    Prim2SF (x + y) = S754_finite false m e /\ normal m /\
    Z.max ex ey <= e <= Z.max ex ey + 2 /\
    rounds (F2R (Zpos mx) ex + F2R (Zpos my) ey) (F2R (Zpos m) e).
Proof.
  intros Hx Hy Hmx Hmy Hex Hey. unfold normal in *. pow_consts.
  rewrite add_spec, Hx, Hy. unfold SF64add, SFadd. cbn [cond_Zopp].
  set (ez := Z.min ex ey).
  destruct (shl_align_spec mx ex ez ltac:(unfold ez; lia)) as (ax & -> & Hax).
  destruct (shl_align_spec my ey ez ltac:(unfold ez; lia)) as (ay & -> & Hay).
  cbn [fst].
  assert (Hpx : 0 < 2 ^ (ex - ez)) by (apply Z.pow_pos_nonneg; unfold ez; lia).
  assert (Hpy : 0 < 2 ^ (ey - ez)) by (apply Z.pow_pos_nonneg; unfold ez; lia).
  set (emx := Z.max ex ey).
  assert (Hsum : 2 ^ (52 + (emx - ez)) <= Zpos ax + Zpos ay < 2 ^ (54 + (emx - ez))).
  { rewrite Hax, Hay.
    assert (HA : 2 ^ (ex - ez) <= 2 ^ (emx - ez))
      by (apply Z.pow_le_mono_r; unfold emx, ez; lia).
    assert (HB : 2 ^ (ey - ez) <= 2 ^ (emx - ez))
      by (apply Z.pow_le_mono_r; unfold emx, ez; lia).
    assert (Hc : 2 ^ (ex - ez) = 2 ^ (emx - ez) \/ 2 ^ (ey - ez) = 2 ^ (emx - ez)).
    { destruct (Z_le_dec ex ey); [right | left]; f_equal; unfold emx, ez; lia. }
    rewrite !Z.pow_add_r by (unfold emx, ez; lia).
    change (2 ^ 54) with (2 * 2 ^ 53).
    destruct Hc as [Hc | Hc]; nia. }
  assert (Hsd := Zdigits2_range (Zpos ax + Zpos ay) (52 + (emx - ez)) (54 + (emx - ez))
                   ltac:(unfold emx, ez; lia) Hsum).
  change (Zpos ax + Zpos ay) with (Zpos (ax + ay)) in *.
  unfold binary_normalize, binary_round.
  rewrite shl_align_none.
  2:{ rewrite fexp_normal; simpl Zdigits2 in Hsd; unfold emx, ez in *; lia. }
  destruct (binary_round_aux_rounds (Zpos (ax + ay)) ez loc_Exact
              (F2R (Zpos mx) ex + F2R (Zpos my) ey))
    as (m & e & Hr & Hm & He & Hrounds).
  - assert (2 ^ 52 <= 2 ^ (52 + (emx - ez)));
      [apply Z.pow_le_mono_r; unfold emx, ez; lia | lia].
  - unfold ez; lia.
  - unfold emx, ez in *; lia.
  - assert (E : (F2R (Zpos mx) ex + F2R (Zpos my) ey = F2R (Zpos (ax + ay)) ez)%R).
    { rewrite Pos2Z.inj_add, Hax, Hay.
      replace ex with (ez + (ex - ez)) at 1 by lia.
      replace ey with (ez + (ey - ez)) at 1 by lia.
      rewrite !F2R_shift by (unfold ez; lia).
      unfold F2R. rewrite plus_IZR. ring. }
    rewrite E. split; [lra | apply F2R_lt; lia].
  - reflexivity.
  - exists m, e. repeat split; try assumption; unfold emx, ez in *; lia.
Qed.

(** Comparison. *)
Lemma compare_finpos mx ex my ey :
  normal mx -> normal my ->
  match SFcompare (S754_finite false mx ex) (S754_finite false my ey) with
  | Some Lt => (F2R (Zpos mx) ex < F2R (Zpos my) ey)%R
  | Some Eq => F2R (Zpos mx) ex = F2R (Zpos my) ey
  | Some Gt => (F2R (Zpos my) ey < F2R (Zpos mx) ex)%R
  | None => False
  end.
Proof.
  intros Hmx Hmy. unfold normal in *. simpl SFcompare.
  destruct (Z.compare_spec ex ey) as [-> | Hlt | Hgt].
  - change (Pos.compare_cont Eq mx my) with (Pos.compare mx my).
    destruct (Pos.compare_spec mx my) as [-> | H | H].
    + reflexivity.
    + apply F2R_lt. lia.
    + apply F2R_lt. lia.
  - apply F2R_lt_exp; lia.
  - apply F2R_lt_exp; lia.
Qed.

Lemma ltb_finpos x y mx ex my ey :
  Prim2SF x = S754_finite false mx ex -> Prim2SF y = S754_finite false my ey ->
  normal mx -> normal my ->
  (F2R (Zpos mx) ex < F2R (Zpos my) ey)%R -> (x <? y)%float = true.
Proof.
  intros Hx Hy Hmx Hmy H. rewrite ltb_spec, Hx, Hy. unfold SFltb.
  pose proof (compare_finpos mx ex my ey Hmx Hmy) as C.
  destruct (SFcompare _ _) as [[| |]|]; try reflexivity; try lra; contradiction.
Qed.

Lemma leb_finpos x y mx ex my ey :
  Prim2SF x = S754_finite false mx ex -> Prim2SF y = S754_finite false my ey ->
  normal mx -> normal my ->
  (F2R (Zpos mx) ex <= F2R (Zpos my) ey)%R -> (x <=? y)%float = true.
Proof.
  intros Hx Hy Hmx Hmy H. rewrite leb_spec, Hx, Hy. unfold SFleb.
  pose proof (compare_finpos mx ex my ey Hmx Hmy) as C.
  destruct (SFcompare _ _) as [[| |]|]; try reflexivity; try lra; contradiction.
Qed.

(** A mantissa of at most 53 bits is normalized without loss. *)
Lemma binary_round_exact pm e0 :
  let d := Zpos (digits2_pos pm) in
  d <= 53 -> -1074 <= e0 + d - 53 <= 971 ->
  exists mz, binary_round prec emax false pm e0 = S754_finite false mz (e0 + d - 53) /\
             normal mz /\ Zpos mz = Zpos pm * 2 ^ (53 - d).
Proof.
  intros d Hd He. pow_consts. unfold binary_round. fold d.
  rewrite fexp_normal by lia.
  destruct (shl_align_spec pm e0 (d + e0 - 53) ltac:(lia)) as (mz & -> & Hmz).
  replace (e0 - (d + e0 - 53)) with (53 - d) in Hmz by lia.
  pose proof (digits2_pos_bounds pm) as [B1 B2]. fold d in B1, B2.
  assert (Hn : normal mz).
  { unfold normal. rewrite Hmz.
    assert (Hp : 0 < 2 ^ (53 - d)) by (apply Z.pow_pos_nonneg; lia).
    replace (2 ^ 52) with (2 ^ (d - 1) * 2 ^ (53 - d))
      by (rewrite <- Z.pow_add_r by lia; f_equal; lia).
    replace (2 ^ 53) with (2 ^ d * 2 ^ (53 - d))
      by (rewrite <- Z.pow_add_r by lia; f_equal; lia).
    nia. }
  exists mz. split; [|split; [exact Hn | exact Hmz]].
  destruct (binary_round_aux_spec (Zpos mz) (d + e0 - 53) loc_Exact)
    as (_ & _ & m & e & Hm & Hee & _ & Hexact & ->); [apply Hn | lia |].
  rewrite (normal_digits mz Hn) in *.
  replace (53 - 53) with 0 in * by lia. rewrite Z.pow_0_r, Z.div_1_r in *.
  specialize (Hexact eq_refl (Z.mod_1_r _)).
  assert (Hee' : e = d + e0 - 53).
  { destruct (Z.eq_dec e (d + e0 - 53)) as [|Hne]; [assumption|].
    assert (E1 : e - (d + e0 - 53) - 0 = 1) by lia. rewrite E1 in Hexact.
    change (2 ^ 1) with 2 in Hexact. unfold normal in Hn. lia. }
  subst e. replace (d + e0 - 53 - (d + e0 - 53) - 0) with 0 in Hexact by lia.
  rewrite Z.pow_0_r, Z.mul_1_r in Hexact. injection Hexact as ->.
  replace (d + e0 - 53 <=? 971) with true by (symmetry; apply Z.leb_le; lia).
  f_equal. lia.
Qed.

(** ** [random.random()] *)

Lemma unit_float_spec k :
  Prim2SF (unit_float k) = S754_zero false \/
  exists m e,
    Prim2SF (unit_float k) = S754_finite false m e /\ normal m /\
    -105 <= e <= -53 /\
    (F2R (Zpos m) e <= 1 - bpow (-53))%R.
Proof.
  unfold unit_float. pow_consts.
  pose proof (Z.mod_pos_bound k (2 ^ 53) ltac:(lia)) as Hk.
  destruct (k mod 2 ^ 53) as [|p|p] eqn:E; [left | right | lia].
  - apply Prim2SF_SF2Prim. reflexivity.
  - unfold binary_normalize.
    assert (Hd : 0 < Zdigits2 (Zpos p) <= 53).
    { destruct (Zdigits2_range (Zpos p) 0 53 ltac:(lia)); [simpl; lia | lia]. }
    simpl Zdigits2 in Hd.
    destruct (binary_round_exact p (-53) ltac:(lia) ltac:(lia)) as (mz & -> & Hn & Hmz).
    exists mz, (-53 + Zpos (digits2_pos p) - 53).
    split; [apply Prim2SF_SF2Prim, normal_valid; [assumption | lia]|].
    split; [exact Hn|]. split; [lia|].
    assert (HV : F2R (Zpos mz) (-53 + Zpos (digits2_pos p) - 53) = F2R (Zpos p) (-53)).
    { rewrite Hmz, <- F2R_shift by lia. f_equal. lia. }
    rewrite HV. unfold F2R.
    assert (Hp : (IZR (Zpos p) <= IZR (2 ^ 53) - 1)%R).
    { rewrite <- minus_IZR. apply IZR_le. lia. }
    rewrite <- (bpow_IZR 53) in Hp by lia.
    assert (Hb : (bpow 53 * bpow (-53) = 1)%R).
    { rewrite <- bpow_add. reflexivity. }
    pose proof (bpow_pos (-53)). nra.
Qed.

(** ** Rounding to two decimals *)

Lemma round_half_even_div_near a b :
  0 <= a -> 0 < b ->
  let n := round_half_even_div a b in
  0 <= n /\ 2 * Z.abs (n * b - a) <= b.
Proof.
  intros Ha Hb n. unfold round_half_even_div in n.
  pose proof (Z.div_mod a b ltac:(lia)) as Hdm.
  pose proof (Z.mod_pos_bound a b Hb) as Hr.
  assert (Hq : 0 <= a / b) by (apply Z.div_pos; lia).
  subst n. destruct (Z.compare_spec (2 * (a mod b)) b) as [H|H|H];
    [destruct (Z.even (a / b))| |]; split; nia.
Qed.

(** [scaled_cents m e] is within one half of [100 * m * 2^e]. *)
Lemma scaled_cents_near m e :
  -1074 <= e ->
  let n := scaled_cents m e in
  0 <= n /\ (Rabs (IZR n - 100 * F2R (Zpos m) e) <= 1 / 2)%R.
Proof.
  intros He n. unfold scaled_cents in n.
  destruct (Z.leb_spec 0 e) as [Hpos | Hneg]; subst n.
  - assert (0 < 2 ^ e) by (apply Z.pow_pos_nonneg; lia).
    split; [nia|].
    unfold F2R. rewrite (bpow_IZR e) by lia. rewrite !mult_IZR.
    replace (IZR (Zpos m) * IZR (2 ^ e) * 100 - 100 * (IZR (Zpos m) * IZR (2 ^ e)))%R
      with 0%R by ring.
    rewrite Rabs_R0. lra.
  - assert (Hb : 0 < 2 ^ (- e)) by (apply Z.pow_pos_nonneg; lia).
    destruct (round_half_even_div_near (Zpos m * 100) (2 ^ (- e)) ltac:(lia) Hb)
      as [Hn Hnear].
    split; [exact Hn|].
    set (n := round_half_even_div (Zpos m * 100) (2 ^ (- e))) in *.
    assert (Hbe : (bpow e * IZR (2 ^ (- e)) = 1)%R).
    { rewrite <- (bpow_IZR (- e)) by lia. rewrite <- bpow_add.
      replace (e + - e) with 0 by lia. reflexivity. }
    assert (HB : (0 < IZR (2 ^ (- e)))%R) by (apply IZR_lt; lia).
    assert (Hnr : (2 * Rabs (IZR n * IZR (2 ^ (- e)) - IZR (Zpos m) * 100)
                   <= IZR (2 ^ (- e)))%R).
    { rewrite <- !mult_IZR, <- minus_IZR, <- abs_IZR, <- (mult_IZR 2).
      apply IZR_le. exact Hnear. }
    unfold F2R.
    replace (IZR n - 100 * (IZR (Zpos m) * bpow e))%R
      with ((IZR n * IZR (2 ^ (- e)) - IZR (Zpos m) * 100) * bpow e)%R
      by (replace (IZR n) with (IZR n * (bpow e * IZR (2 ^ (- e))))%R at 2
            by (rewrite Hbe; ring); ring).
    rewrite Rabs_mult, (Rabs_pos_eq (bpow e)) by (apply Rlt_le, bpow_pos).
    pose proof (bpow_pos e) as Hp.
    pose proof (Rabs_pos (IZR n * IZR (2 ^ (- e)) - IZR (Zpos m) * 100)).
    apply Rmult_le_reg_r with (IZR (2 ^ (- e))); [exact HB|].
    replace (Rabs (IZR n * IZR (2 ^ (- e)) - IZR (Zpos m) * 100) * bpow e
             * IZR (2 ^ (- e)))%R
      with (Rabs (IZR n * IZR (2 ^ (- e)) - IZR (Zpos m) * 100)
            * (bpow e * IZR (2 ^ (- e))))%R by ring.
    rewrite Hbe. lra.
Qed.

(** The quotient that [SFdiv] rounds when it divides [p] by 100. *)
Lemma div100_core p :
  exists q e' l,
    SFdiv_core_binary prec emax (Zpos p) 0 100 0 = (q, e', l) /\
    2 ^ 52 <= q /\ -59 <= e' <= 0 /\
    Zdigits2 q + e' <= Z.max 60 (Zdigits2 (Zpos p)) /\
    (F2R q e' <= IZR (Zpos p) / 100 < F2R (q + 1) e')%R /\
    (IZR (Zpos p) / 100 = F2R q e' -> l = loc_Exact)%R.
Proof.
  pow_consts. unfold SFdiv_core_binary.
  change (Zdigits2 100) with 7.
  pose proof (digits2_pos_bounds p) as [B1 B2].
  set (d1 := Zdigits2 (Zpos p)). assert (Hd1 : d1 = Zpos (digits2_pos p)) by reflexivity.
  replace (d1 + 0 - (7 + 0)) with (d1 - 7) by lia.
  rewrite fexp_normal by lia. change (0 - 0) with 0.
  set (e' := Z.min (d1 - 7 - 53) 0).
  assert (He' : -59 <= e' <= 0) by (unfold e'; lia).
  set (m' := match 0 - e' with Zpos _ => Z.shiftl (Zpos p) (0 - e') | 0 => Zpos p | Zneg _ => 0 end).
  assert (Hm' : m' = Zpos p * 2 ^ (- e')).
  { unfold m'. destruct (0 - e') as [|s|s] eqn:Es; try lia.
    - replace (- e') with 0 by lia. simpl. lia.
    - rewrite Z.shiftl_mul_pow2 by lia. f_equal. f_equal. lia. }
  assert (Hm59 : 2 ^ (Z.max 60 d1 - 1) <= m' < 2 ^ (Z.max 60 d1 - e' + e') /\
                 Z.max 60 d1 = d1 - e').
  { replace (Z.max 60 d1 - e' + e') with (Z.max 60 d1) by lia.
    assert (Hmax : Z.max 60 d1 = d1 - e') by (unfold e'; lia).
    split; [|exact Hmax]. rewrite Hm', Hmax.
    assert (0 < 2 ^ (- e')) by (apply Z.pow_pos_nonneg; lia).
    replace (d1 - e' - 1) with (d1 - 1 + - e') by lia.
    replace (d1 - e') with (d1 + - e') by lia.
    rewrite !Z.pow_add_r by lia. rewrite Hd1. nia. }
  destruct Hm59 as [[Hm1 Hm2] Hmax].
  replace (Z.max 60 d1 - e' + e') with (Z.max 60 d1) in Hm2 by lia.
  assert (H59 : 2 ^ 59 <= m').
  { apply Z.le_trans with (2 ^ (Z.max 60 d1 - 1)); [|exact Hm1].
    apply Z.pow_le_mono_r; lia. }
  change (2 ^ 59) with 576460752303423488 in H59.
  pose proof (Z_div_mod m' 100 ltac:(lia)) as Hdm.
  destruct (Z.div_eucl m' 100) as [q r]. destruct Hdm as [Hdm Hr].
  exists q, e', (new_location 100 r). split; [reflexivity|].
  assert (Hq52 : 2 ^ 52 <= q) by lia.
  split; [exact Hq52|]. split; [exact He'|].
  assert (Hpe : (IZR (Zpos p) = F2R m' e')%R).
  { rewrite Hm'. rewrite <- (F2R_shift _ e' (- e')) by lia.
    unfold F2R. replace (e' + - e') with 0 by lia.
    change (bpow 0) with 1%R. ring. }
  split; [|split].
  - assert (q < 2 ^ Z.max 60 d1) by lia.
    destruct (Zdigits2_range q 52 (Z.max 60 d1) ltac:(lia) ltac:(lia)). lia.
  - rewrite Hpe. unfold F2R. pose proof (bpow_pos e').
    assert (Hlo : (IZR q * 100 <= IZR m')%R).
    { rewrite <- mult_IZR. apply IZR_le. lia. }
    assert (Hhi : (IZR m' < IZR (q + 1) * 100)%R).
    { rewrite <- mult_IZR. apply IZR_lt. lia. }
    split.
    + apply Rmult_le_reg_r with 100%R; [lra|].
      replace (IZR m' * bpow e' / 100 * 100)%R with (IZR m' * bpow e')%R by field.
      nra.
    + apply Rmult_lt_reg_r with 100%R; [lra|].
      replace (IZR m' * bpow e' / 100 * 100)%R with (IZR m' * bpow e')%R by field.
      nra.
  - intros Hz. rewrite Hpe in Hz. unfold F2R in Hz.
    assert (Hmq : (IZR m' = IZR (100 * q))%R).
    { rewrite mult_IZR. pose proof (bpow_pos e').
      apply Rmult_eq_reg_r with (bpow e'); [|lra].
      lra. }
    apply eq_IZR in Hmq. assert (r = 0) by lia. subst r. reflexivity.
Qed.

(** The float nearest to [p / 100]. *)
Lemma cents_to_float_spec p :
  Zdigits2 (Zpos p) <= 1000 ->
  exists m e,
    Prim2SF (cents_to_float false (Zpos p)) = S754_finite false m e /\
    normal m /\ -59 <= e <= Z.max 60 (Zdigits2 (Zpos p)) - 52 /\
    rounds (IZR (Zpos p) / 100) (F2R (Zpos m) e).
Proof.
  intros Hd. unfold cents_to_float, SF64div, SFdiv. cbn [xorb].
  destruct (div100_core p) as (q & e' & l & -> & Hq & He' & Hdq & Hz & Hl).
  pow_consts.
  destruct (binary_round_aux_rounds q e' l (IZR (Zpos p) / 100))
    as (m & e & Hr & Hm & He & Hrounds); try assumption; try lia.
  assert (Hdq52 : 52 < Zdigits2 q) by (apply (Zdigits2_range q 52 (Zdigits2 q)); [lia|];
    split; [lia|]; destruct q; try lia; apply digits2_pos_bounds).
  rewrite Hr. exists m, e.
  split; [apply Prim2SF_SF2Prim, normal_valid; [exact Hm | lia]|].
  split; [exact Hm|]. split; [lia | exact Hrounds].
Qed.

(** ** Floats that are not negative and not NaN *)

Lemma nonneg_iff x : nonneg x <-> sf_nonneg (Prim2SF x).
Proof.
  unfold nonneg. rewrite leb_spec.
  replace (Prim2SF 0) with (S754_zero false) by reflexivity.
  unfold SFleb. destruct (Prim2SF x) as [s|s| |s m e]; simpl;
    try destruct s; simpl; split; intros H; try discriminate; auto; contradiction.
Qed.

Lemma nonneg_not_nan x : nonneg x -> is_nan x = false.
Proof.
  intros H. apply nonneg_iff in H. unfold is_nan. rewrite eqb_spec.
  unfold SFeqb. destruct (Prim2SF x) as [s|s| |s m e]; simpl in *;
    try destruct s; try contradiction; try reflexivity.
  now rewrite Z.compare_refl, Pos.compare_cont_refl.
Qed.

Lemma shr_fexp_nonneg M e l :
  0 <= M -> 0 <= shr_m (fst (shr_fexp prec emax M e l)).
Proof.
  intros HM. unfold shr_fexp.
  set (n := fexp prec emax (Zdigits2 M + e) - e).
  destruct (Z_le_dec 0 n) as [Hn | Hn].
  - destruct (shr_spec M l e n HM Hn) as (rec & -> & Hm & _). simpl. rewrite Hm.
    apply Z.div_pos; [lia | apply Z.pow_pos_nonneg; lia].
  - destruct n as [|p|p]; try lia. simpl. now rewrite shr_record_m.
Qed.

Lemma binary_round_aux_nonneg mx ex lx :
  0 <= mx -> sf_nonneg (binary_round_aux prec emax false mx ex lx).
Proof.
  intros Hmx. unfold binary_round_aux.
  pose proof (shr_fexp_nonneg mx ex lx Hmx) as H1.
  destruct (shr_fexp prec emax mx ex lx) as [mrs e1]. simpl in H1.
  destruct (round_nearest_even_cases (shr_m mrs) (loc_of_shr_record mrs)) as [Hc _].
  assert (H2 : 0 <= round_nearest_even (shr_m mrs) (loc_of_shr_record mrs)) by lia.
  pose proof (shr_fexp_nonneg _ e1 loc_Exact H2) as H3.
  destruct (shr_fexp prec emax _ e1 loc_Exact) as [mrs2 e2]. simpl in H3.
  destruct (shr_m mrs2) as [|p|p]; try lia; [exact I|].
  destruct (Z.leb _ _); exact I.
Qed.

Lemma mul_nonneg x y my ey :
  nonneg x -> Prim2SF y = S754_finite false my ey -> nonneg (x * y).
Proof.
  intros Hx Hy. apply nonneg_iff in Hx. apply nonneg_iff.
  rewrite mul_spec, Hy. unfold SF64mul, SFmul.
  destruct (Prim2SF x) as [s|s| |s m e]; simpl in Hx; try destruct s;
    try contradiction; simpl; auto.
  apply binary_round_aux_nonneg. lia.
Qed.

Lemma add_nonneg x y : nonneg x -> nonneg y -> nonneg (x + y).
Proof.
  intros Hx Hy. apply nonneg_iff in Hx, Hy. apply nonneg_iff.
  rewrite add_spec. unfold SF64add, SFadd.
  destruct (Prim2SF x) as [sx|sx| |sx mx ex]; simpl in Hx; try contradiction;
    destruct (Prim2SF y) as [sy|sy| |sy my ey]; simpl in Hy; try contradiction;
    try destruct sx; try destruct sy; try contradiction; simpl; auto.
  unfold binary_round.
  destruct (shl_align _ _ _) as [mz ez]. apply binary_round_aux_nonneg. lia.
Qed.

Lemma cents_to_float_nonneg p : nonneg (cents_to_float false (Zpos p)).
Proof.
  apply nonneg_iff. unfold cents_to_float, SF64div, SFdiv. cbn [xorb].
  destruct (div100_core p) as (q & e' & l & -> & Hq & He' & _).
  destruct (binary_round_aux_spec q e' l Hq ltac:(lia))
    as (Hn0 & _ & m & e & Hm & He & _ & _ & ->).
  destruct (Z.leb_spec e 971) as [Hle | Hgt].
  - rewrite Prim2SF_SF2Prim; [exact I|]. apply normal_valid; [exact Hm | lia].
  - rewrite Prim2SF_SF2Prim; [exact I | reflexivity].
Qed.

Lemma round2_nonneg x : nonneg x -> nonneg (round2 x).
Proof.
  intros Hx. unfold round2. pose proof Hx as Hx'. apply nonneg_iff in Hx'.
  destruct (Prim2SF x) as [s|s| |s m e] eqn:E; try exact Hx.
  destruct s; [contradiction|].
  destruct (scaled_cents m e) as [|p|p].
  - apply nonneg_iff. unfold cents_to_float.
    rewrite Prim2SF_SF2Prim; [exact I | reflexivity].
  - apply cents_to_float_nonneg.
  - apply nonneg_iff. unfold cents_to_float.
    rewrite Prim2SF_SF2Prim; [exact I | reflexivity].
Qed.

Lemma float_of_int_quantity q :
  1 <= q <= 4 ->
  exists m e, Prim2SF (float_of_int q) = S754_finite false m e.
Proof.
  intros Hq.
  assert (Hc : q = 1 \/ q = 2 \/ q = 3 \/ q = 4) by lia.
  destruct Hc as [-> | [-> | [-> | ->]]].
  - exists 4503599627370496%positive, (-52). reflexivity.
  - exists 4503599627370496%positive, (-51). reflexivity.
  - exists 6755399441055744%positive, (-51). reflexivity.
  - exists 4503599627370496%positive, (-50). reflexivity.
Qed.

Lemma fold_add_nonneg xs acc :
  nonneg acc -> Forall nonneg xs -> nonneg (fold_left PrimFloat.add xs acc).
Proof.
  revert acc. induction xs as [|x xs IH]; intros acc Ha Hxs; simpl; [exact Ha|].
  inversion Hxs; subst. apply IH; [now apply add_nonneg | assumption].
Qed.

(** ** [random.uniform] and the price of a product *)

Lemma rounds_rel' z v :
  rounds z v -> (0.999999 * z <= v <= 1.000001 * z)%R.
Proof.
  intros H. pose proof (rounds_rel z v H) as [H1 H2].
  destruct (rounds_pos z v H) as [Hz _].
  assert (He : (bpow (-52) * IZR (2 ^ 52) = 1)%R).
  { rewrite <- (bpow_IZR 52) by lia. rewrite <- bpow_add. reflexivity. }
  change (2 ^ 52) with 4503599627370496 in He.
  pose proof (bpow_pos (-52)) as Hp. split; nra.
Qed.

Lemma normal_repr m e : normal m -> repr (F2R (Zpos m) e).
Proof. intros H. now exists (Zpos m), e. Qed.

(** [a + d * random()] lies between [a] and [b] when [a + d <= b]. *)
Lemma uniform_range a d b ma ea md ed mb eb k :
  Prim2SF a = S754_finite false ma ea -> Prim2SF d = S754_finite false md ed ->
  Prim2SF b = S754_finite false mb eb ->
  normal ma -> normal md -> normal mb ->
  -60 <= ea <= 60 -> -60 <= ed <= 60 ->
  (F2R (Zpos ma) ea + F2R (Zpos md) ed <= F2R (Zpos mb) eb)%R ->
  exists m e,
    Prim2SF (a + d * unit_float k) = S754_finite false m e /\ normal m /\
    -60 <= e <= 63 /\
    (F2R (Zpos ma) ea <= F2R (Zpos m) e <= F2R (Zpos mb) eb)%R.
Proof.
  intros Ha Hd Hb Hma Hmd Hmb Hea Hed Hsum.
  assert (Hdpos : (0 < F2R (Zpos md) ed)%R) by (apply F2R_pos; lia).
  destruct (unit_float_spec k) as [Hr | (mr & er & Hr & Hmr & Her & Hvr)].
  - exists ma, ea.
    assert (Ht : Prim2SF (d * unit_float k) = S754_zero false).
    { rewrite mul_spec, Hd, Hr. reflexivity. }
    split; [rewrite add_spec, Ha, Ht; reflexivity|].
    split; [exact Hma|]. split; [lia | lra].
  - destruct (mul_finpos d (unit_float k) md ed mr er Hd Hr Hmd Hmr ltac:(lia))
      as (mt & et & Ht & Hmt & Het & Hrt).
    assert (Hrpos : (0 < F2R (Zpos mr) er)%R) by (apply F2R_pos; lia).
    pose proof (bpow_pos (-53)) as Hb53.
    assert (Htd : (F2R (Zpos mt) et <= F2R (Zpos md) ed)%R).
    { apply (rounds_ub _ _ _ Hrt (normal_repr md ed Hmd)). nra. }
    destruct (rounds_pos _ _ Hrt) as [_ Htpos].
    destruct (add_finpos a (d * unit_float k) ma ea mt et Ha Ht Hma Hmt
                ltac:(lia) ltac:(lia))
      as (m & e & Hu & Hm & He & Hru).
    exists m, e. split; [exact Hu|]. split; [exact Hm|]. split; [lia|].
    split.
    + apply (rounds_lb _ _ _ Hru (normal_repr ma ea Hma)). lra.
    + apply (rounds_ub _ _ _ Hru (normal_repr mb eb Hmb)). lra.
Qed.

Lemma Rabs_le_bounds x b : (Rabs x <= b -> - b <= x <= b)%R.
Proof. unfold Rabs. destruct (Rcase_abs x); lra. Qed.

(** [round(x, 2)] of a positive normal [x] of moderate size. *)
Lemma round2_finpos x mx ex :
  Prim2SF x = S754_finite false mx ex -> -1074 <= ex ->
  (1 <= F2R (Zpos mx) ex <= 1000000)%R ->
  exists n m e,
    Prim2SF (round2 x) = S754_finite false m e /\ normal m /\ -59 <= e <= 8 /\
    (Rabs (IZR n - 100 * F2R (Zpos mx) ex) <= 1 / 2)%R /\
    rounds (IZR n / 100) (F2R (Zpos m) e).
Proof.
  intros Hx Hex Hv. unfold round2. rewrite Hx.
  destruct (scaled_cents_near mx ex Hex) as [Hn Hnear].
  set (n := scaled_cents mx ex) in *.
  apply Rabs_le_bounds in Hnear.
  assert (Hn1 : 1 <= n < 2 ^ 27).
  { split.
    - apply le_IZR. lra.
    - apply lt_IZR. change (2 ^ 27) with 134217728. lra. }
  destruct n as [|p|p] eqn:En; try lia.
  destruct (cents_to_float_spec p) as (m & e & Hr & Hm & He & Hrd).
  { destruct (Zdigits2_range (Zpos p) 0 27 ltac:(lia)); simpl in *; lia. }
  exists (Zpos p), m, e. split; [exact Hr|]. split; [exact Hm|].
  split.
  { destruct (Zdigits2_range (Zpos p) 0 27 ltac:(lia)); simpl in *; lia. }
  split; [apply Rabs_le; lra | exact Hrd].
Qed.

Lemma bpow_neg n : 0 <= n -> (bpow (- n) * IZR (2 ^ n) = 1)%R.
Proof.
  intros Hn. rewrite <- (bpow_IZR n) by lia. rewrite <- bpow_add.
  replace (- n + n) with 0 by lia. reflexivity.
Qed.

(** The cost and the price of one product, from the two draws behind them:
    [uniform(5, 80)] lies in [5, 80], [uniform(1.2, 2.5)] in [1.2, 2.5], and
    the rounded price is above the rounded cost. *)
Lemma price_above_cost k1 k2 :
  let u := (5 + (80 - 5) * unit_float k1)%float in
  let markup := (1.2 + (2.5 - 1.2) * unit_float k2)%float in
  let cost := round2 u in
  let price := round2 (cost * markup)%float in
  (5 <=? u)%float = true /\ (u <=? 80)%float = true /\
  (1.2 <=? markup)%float = true /\ (markup <=? 2.5)%float = true /\
  (cost <? price)%float = true /\ nonneg price.
Proof.
  intros u markup cost price.
  assert (H5 : Prim2SF 5 = S754_finite false 5629499534213120 (-50)) by reflexivity.
  assert (H80 : Prim2SF 80 = S754_finite false 5629499534213120 (-46)) by reflexivity.
  assert (H75 : Prim2SF (80 - 5) = S754_finite false 5277655813324800 (-46))
    by reflexivity.
  assert (H12 : Prim2SF 1.2 = S754_finite false 5404319552844595 (-52)) by reflexivity.
  assert (H25 : Prim2SF 2.5 = S754_finite false 5629499534213120 (-51)) by reflexivity.
  assert (H13 : Prim2SF (2.5 - 1.2) = S754_finite false 5854679515581645 (-52))
    by reflexivity.
  assert (N1 : normal 5629499534213120) by (unfold normal; pow_consts; lia).
  assert (N2 : normal 5277655813324800) by (unfold normal; pow_consts; lia).
  assert (N3 : normal 5404319552844595) by (unfold normal; pow_consts; lia).
  assert (N4 : normal 5854679515581645) by (unfold normal; pow_consts; lia).
  pose proof (bpow_neg 46 ltac:(lia)) as B46. change (2 ^ 46) with 70368744177664 in B46.
  pose proof (bpow_neg 50 ltac:(lia)) as B50. change (2 ^ 50) with 1125899906842624 in B50.
  pose proof (bpow_neg 51 ltac:(lia)) as B51. change (2 ^ 51) with 2251799813685248 in B51.
  pose proof (bpow_neg 52 ltac:(lia)) as B52. change (2 ^ 52) with 4503599627370496 in B52.
  change (- (46)) with (-46) in B46. change (- (50)) with (-50) in B50.
  change (- (51)) with (-51) in B51. change (- (52)) with (-52) in B52.
  (* the two draws *)
  destruct (uniform_range 5 (80 - 5) 80 _ _ _ _ _ _ k1 H5 H75 H80 N1 N2 N1
              ltac:(lia) ltac:(lia)) as (mu & eu & Hu & Hmu & Heu & Hvu);
    [unfold F2R; lra|].
  destruct (uniform_range 1.2 (2.5 - 1.2) 2.5 _ _ _ _ _ _ k2 H12 H13 H25 N3 N4 N1
              ltac:(lia) ltac:(lia)) as (mm & em & Hm & Hmm & Hem & Hvm);
    [unfold F2R; lra|].
  fold u in Hu. fold markup in Hm.
  set (vu := F2R (Zpos mu) eu) in *. set (vm := F2R (Zpos mm) em) in *.
  assert (Vu : (5 <= vu <= 80)%R) by (unfold F2R in Hvu; lra).
  assert (Vm : (1.19 <= vm <= 2.5)%R) by (unfold F2R in Hvm; lra).
  split; [apply (leb_finpos _ _ _ _ _ _ H5 Hu N1 Hmu), Hvu|].
  split; [apply (leb_finpos _ _ _ _ _ _ Hu H80 Hmu N1), Hvu|].
  split; [apply (leb_finpos _ _ _ _ _ _ H12 Hm N3 Hmm), Hvm|].
  split; [apply (leb_finpos _ _ _ _ _ _ Hm H25 Hmm N1), Hvm|].
  (* the cost *)
  destruct (round2_finpos u mu eu Hu ltac:(lia) ltac:(fold vu; lra))
    as (nc & mc & ec & Hc & Hmc & Hec & Hnc & Hrc).
  fold cost in Hc. fold vu in Hnc. apply Rabs_le_bounds in Hnc.
  apply rounds_rel' in Hrc. set (vc := F2R (Zpos mc) ec) in *.
  assert (Vc : (4.99 <= vc <= 80.1)%R) by lra.
  (* the product and the price *)
  destruct (mul_finpos cost markup mc ec mm em Hc Hm Hmc Hmm ltac:(lia))
    as (my & ey & Hy & Hmy & Hey & Hry).
  apply rounds_rel' in Hry. fold vc vm in Hry.
  set (vy := F2R (Zpos my) ey) in *.
  assert (Vcm : (1.19 * vc <= vc * vm <= 2.5 * vc)%R) by nra.
  destruct (round2_finpos (cost * markup) my ey Hy ltac:(lia) ltac:(fold vy; lra))
    as (np & mp & ep & Hp & Hmp & Hep & Hnp & Hrp).
  fold price in Hp. fold vy in Hnp. apply Rabs_le_bounds in Hnp.
  apply rounds_rel' in Hrp.
  split; [|apply nonneg_iff; rewrite Hp; exact I].
  apply (ltb_finpos _ _ _ _ _ _ Hc Hp Hmc Hmp). fold vc. lra.
Qed.

(** * The claims *)

Lemma NoDup_map_eq {A B} (f : A -> B) (l : list A) x y :
  NoDup (map f l) -> In x l -> In y l -> f x = f y -> x = y.
Proof.
  induction l as [|a l IH]; intros Hnd Hx Hy Hf; simpl in *; [contradiction|].
  inversion Hnd as [|? ? Hnotin Hnd']; subst.
  destruct Hx as [-> | Hx], Hy as [-> | Hy]; auto.
  - exfalso. apply Hnotin. rewrite Hf. now apply in_map.
  - exfalso. apply Hnotin. rewrite <- Hf. now apply in_map.
Qed.

(** C2. Every review that [create_reviews] produces names a product of one of
    the order items of the review's order, and carries the customer of that
    order; and [create_reviews] always returns. *)
Theorem reviews_reference_purchases :
  forall today orders order_items s,
  exists reviews s',
    create_reviews today orders order_items s = Ok reviews s' /\
    forall r, In r reviews ->
      In (Review.product_id r)
         (map OrderItem.product_id (items_of (Review.order_id r) order_items)) /\
      (exists o, In o orders /\ Order.order_id o = Review.order_id r /\
                 Order.customer_id o = Review.customer_id r) /\
      (NoDup (map Order.order_id orders) ->
       forall o, In o orders -> Order.order_id o = Review.order_id r ->
                 Order.customer_id o = Review.customer_id r).
Proof.
  intros today orders order_items s.
  destruct (reviews_loop_total today orders order_items [] 1 s) as (reviews & s' & H).
  exists reviews, s'. split; [exact H|].
  apply create_reviews_spec in H. rewrite Forall_forall in H.
  intros r Hr. destruct (H r Hr) as (o & item & dt & Ho & Hitem & Hid & Hc & Hp & _).
  split; [|split].
  - rewrite Hid, Hp. now apply in_map.
  - exists o. auto.
  - intros Hnd o' Ho' Hid'.
    assert (o' = o) by (eapply NoDup_map_eq; eauto; congruence).
    now subst.
Qed.

(** C3. In every run of [main] the five tables are produced, every order item
    carries the id of an order of the orders table and the id of a product of
    the products table, and every order carries the id of a customer of the
    customers table. *)
Theorem referential_integrity :
  forall mt today s0,
  exists t s',
    main mt today s0 = Ok t s' /\
    (forall i, In i (order_items_csv t) ->
       In (OrderItem.order_id i) (map Order.order_id (orders_csv t)) /\
       In (OrderItem.product_id i) (map Product.product_id (products_csv t))) /\
    (forall o, In o (orders_csv t) ->
       In (Order.customer_id o) (map Customer.customer_id (customers_csv t))).
Proof.
  intros mt today s0. destruct (main_total mt today s0) as (t & s' & H).
  exists t, s'. split; [exact H|].
  apply main_spec in H.
  destruct H as (orders0 & s1 & s2 & s3 & s4 & s5 & _ & _ & _ & Ho & Hi & _).
  pose proof (create_order_items_ids _ _ _ _ _ _ Hi) as (Hids & Hcs & _).
  split.
  - intros i Hin.
    destruct (create_order_items_rows _ _ _ _ _ _ Hi i Hin)
      as (o & p & Ho' & Hp & Hoid & Hpid & _).
    split.
    + rewrite Hids, Hoid. now apply in_map.
    + rewrite Hpid. now apply in_map.
  - intros o Hin.
    apply create_orders_spec in Ho. destruct Ho as [_ Hall].
    apply (in_map Order.customer_id) in Hin. rewrite Hcs in Hin.
    apply in_map_iff in Hin. destruct Hin as (o0 & <- & Ho0).
    rewrite Forall_forall in Hall. now apply Hall.
Qed.

(** C6. Every order item that [create_order_items] produces has a quantity
    from 1 to 4, a [unit_price] that is the price of a product of the products
    frame with the item's [product_id], and
    [line_total = round(unit_price * quantity, 2)]. *)
Theorem order_item_lines :
  forall orders products s items orders' s',
    create_order_items orders products s = Ok (items, orders') s' ->
    forall i, In i items ->
      1 <= OrderItem.quantity i <= 4 /\
      OrderItem.line_total i
      = round2 (OrderItem.unit_price i * float_of_int (OrderItem.quantity i))%float /\
      exists p, In p products /\
                Product.product_id p = OrderItem.product_id i /\
                Product.price p = OrderItem.unit_price i.
Proof.
  intros orders products s items orders' s' H i Hi.
  destruct (create_order_items_rows _ _ _ _ _ _ H i Hi)
    as (o & p & _ & Hp & _ & Hpid & Hprice & Hq & Hl).
  repeat split; try lia; [exact Hl|].
  exists p. auto.
Qed.

Lemma order_item_lines_witness :
  create_order_items example_orders example_products example_state
  = Ok (example_items, example_orders_after) example_state_after /\
  Forall (fun i =>
    1 <= OrderItem.quantity i <= 4 /\
    OrderItem.line_total i
    = round2 (OrderItem.unit_price i * float_of_int (OrderItem.quantity i))%float /\
    exists p, In p example_products /\
              Product.product_id p = OrderItem.product_id i /\
              Product.price p = OrderItem.unit_price i) example_items.
Proof.
  assert (E : create_order_items example_orders example_products example_state
              = Ok (example_items, example_orders_after) example_state_after)
    by (vm_compute; reflexivity).
  split; [exact E|].
  apply Forall_forall. intros i Hi.
  exact (order_item_lines _ _ _ _ _ _ E i Hi).
Defined.

(** C7. When the order ids of the frame are distinct, [create_order_items]
    produces at least 1 and at most 5 order items for every order of the
    frame it is given, and so for every order of the frame it hands back. *)
Theorem order_item_counts :
  forall orders products s items orders' s',
    create_order_items orders products s = Ok (items, orders') s' ->
    NoDup (map Order.order_id orders) ->
    (forall o, In o orders ->
       1 <= Z.of_nat (List.length (items_of (Order.order_id o) items))
         <= MAX_ITEMS_PER_ORDER) /\
    (forall o, In o orders' ->
       1 <= Z.of_nat (List.length (items_of (Order.order_id o) items))
         <= MAX_ITEMS_PER_ORDER).
Proof.
  intros orders products s items orders' s' H Hnd.
  assert (Hin : forall o, In o orders ->
            1 <= Z.of_nat (List.length (items_of (Order.order_id o) items))
              <= MAX_ITEMS_PER_ORDER).
  { intros o Ho.
    pose proof (create_order_items_counts _ _ _ _ _ _ H Hnd o Ho).
    unfold MAX_ITEMS_PER_ORDER. lia. }
  split; [exact Hin|]. intros o Ho.
  pose proof (create_order_items_ids _ _ _ _ _ _ H) as (Hids & _).
  apply (in_map Order.order_id) in Ho. rewrite Hids in Ho.
  apply in_map_iff in Ho. destruct Ho as (o0 & <- & Ho0).
  exact (Hin o0 Ho0).
Qed.

Lemma order_item_counts_witness :
  create_order_items example_orders example_products example_state
  = Ok (example_items, example_orders_after) example_state_after /\
  NoDup (map Order.order_id example_orders) /\
  (forall o, In o example_orders ->
     1 <= Z.of_nat (List.length (items_of (Order.order_id o) example_items))
       <= MAX_ITEMS_PER_ORDER) /\
  (forall o, In o example_orders_after ->
     1 <= Z.of_nat (List.length (items_of (Order.order_id o) example_items))
       <= MAX_ITEMS_PER_ORDER).
Proof.
  assert (E : create_order_items example_orders example_products example_state
              = Ok (example_items, example_orders_after) example_state_after)
    by (vm_compute; reflexivity).
  assert (Hnd : NoDup (map Order.order_id example_orders)).
  { simpl. repeat constructor; simpl; intuition discriminate. }
  split; [exact E|]. split; [exact Hnd|].
  exact (order_item_counts _ _ _ _ _ _ E Hnd).
Defined.

(** C8. [create_customers] always returns; each email is
    [first.last<id>@example.com] in lower case with the row's own id, the ids
    are distinct, and so are the emails. *)
Theorem customer_emails_distinct :
  forall today s,
  exists customers s',
    create_customers today s = Ok customers s' /\
    NoDup (map Customer.email customers) /\
    NoDup (map Customer.customer_id customers) /\
    forall c, In c customers ->
      exists first last,
        Customer.email c
        = (lower first ++ "." ++ lower last ++ str (Customer.customer_id c)
           ++ "@example.com")%string.
Proof.
  intros today s.
  destruct (create_customers_total today s) as (customers & s' & H).
  exists customers, s'. split; [exact H|].
  apply create_customers_spec in H. split; [|split].
  - apply (customers_emails_NoDup _ _ H (range_NoDup _ _)).
    apply Forall_forall. intros id Hid. apply range_bounds in Hid. lia.
  - assert (Hids : map Customer.customer_id customers = range 1 (NUM_CUSTOMERS + 1)).
    { clear - H. induction H as [|id c ids cs [Hid _] _ IH]; simpl;
        [reflexivity | now f_equal]. }
    rewrite Hids. apply range_NoDup.
  - intros c Hc.
    destruct (Forall2_In_r _ _ _ _ H Hc) as (id & _ & Hid & f & l & _ & _ & He).
    exists f, l. now rewrite He, Hid.
Qed.

(** C9. [create_reviews] never raises, and an order with no order items gets
    no review. *)
Theorem reviews_skip_empty_orders :
  forall today orders order_items s,
  exists reviews s',
    create_reviews today orders order_items s = Ok reviews s' /\
    forall o, In o orders ->
      items_of (Order.order_id o) order_items = [] ->
      forall r, In r reviews -> Review.order_id r <> Order.order_id o.
Proof.
  intros today orders order_items s.
  destruct (reviews_loop_total today orders order_items [] 1 s) as (reviews & s' & H).
  exists reviews, s'. split; [exact H|].
  apply create_reviews_spec in H. rewrite Forall_forall in H.
  intros o Ho Hempty r Hr Heq.
  destruct (H r Hr) as (o' & item & dt & _ & Hitem & Hid & _).
  rewrite <- Hid, Heq, Hempty in Hitem. contradiction.
Qed.

(** ** Review dates and order dates *)

Lemma example_first_rows :
  option_map (fun t => (nth_error (reviews_csv t) 0, nth_error (orders_csv t) 0))
             example_tables
  = Some (Some (Review.mk 1 1 38 79 5 "2026-09-09 03:25:57"
                  "Would definitely recommend to friends."),
          Some (Order.mk 1 79 "2026-10-22 14:38:23" "processing" "pickup" 448.44)).
Proof. vm_compute. reflexivity. Qed.

(** C10. The review loop reads nothing of an order but its [order_id] and
    [customer_id], so review dates do not depend on order dates; review dates
    and order dates are drawn from the same window, the 180 days up to today;
    and in the example run of [main] the first review is dated before the
    order it reviews. *)
Theorem review_dates_ignore_order_dates :
  (forall today orders1 orders2 order_items s,
     map Order.order_id orders1 = map Order.order_id orders2 ->
     map Order.customer_id orders1 = map Order.customer_id orders2 ->
     create_reviews today orders1 order_items s
     = create_reviews today orders2 order_items s) /\
  (forall today orders order_items s,
   exists reviews s',
     create_reviews today orders order_items s = Ok reviews s' /\
     forall r, In r reviews ->
       exists dt, Review.review_date r = isoformat dt /\ in_window today dt) /\
  (forall today customers s orders s',
     create_orders today customers s = Ok orders s' ->
     forall o, In o orders ->
       exists dt, Order.order_date o = isoformat dt /\ in_window today dt) /\
  (exists t r o dt_r dt_o,
     example_tables = Some t /\
     In r (reviews_csv t) /\ In o (orders_csv t) /\
     Review.order_id r = Order.order_id o /\
     Review.review_date r = isoformat dt_r /\ in_window example_today dt_r /\
     Order.order_date o = isoformat dt_o /\ in_window example_today dt_o /\
     earlier dt_r dt_o).
Proof.
  split; [|split; [|split]].
  - intros today orders1 orders2 order_items s Hid Hc.
    unfold create_reviews. now apply reviews_loop_reads.
  - intros today orders order_items s.
    destruct (reviews_loop_total today orders order_items [] 1 s)
      as (reviews & s' & H).
    exists reviews, s'. split; [exact H|].
    apply create_reviews_spec in H. rewrite Forall_forall in H.
    intros r Hr. destruct (H r Hr) as (o & item & dt & _ & _ & _ & _ & _ & Hd & Hw & _).
    exists dt. auto.
  - intros today customers s orders s' H o Ho.
    apply create_orders_spec in H. destruct H as [_ Hall].
    rewrite Forall_forall in Hall. apply (Hall o Ho).
  - pose proof example_first_rows as E.
    destruct example_tables as [t|]; [|discriminate E].
    cbn [option_map] in E. injection E as Er Eo.
    exists t, (Review.mk 1 1 38 79 5 "2026-09-09 03:25:57"
                 "Would definitely recommend to friends."),
      (Order.mk 1 79 "2026-10-22 14:38:23" "processing" "pickup" 448.44),
      (mk_datetime 739868 12357), (mk_datetime 739911 52703).
    split; [reflexivity|].
    split; [apply (nth_error_In _ 0); exact Er|].
    split; [apply (nth_error_In _ 0); exact Eo|].
    split; [reflexivity|].
    split; [vm_compute; reflexivity|].
    split; [unfold in_window, example_today; simpl; lia|].
    split; [vm_compute; reflexivity|].
    split; [unfold in_window, example_today; simpl; lia|].
    left. simpl. lia.
Qed.

(** ** Determinism *)

Lemma bind_seed_eq {B} mt a (k : unit -> M B) s :
  bind (random_seed mt a) k s
  = k tt (mk_rng (mt a) 0 (np_draws s) (np_pos s)).
Proof. reflexivity. Qed.

(** [main] reseeds Python's generator: its result does not depend on the
    state of that generator at the start. *)
Lemma main_reseeds mt today s :
  main mt today s
  = main mt today (mk_rng (mt RANDOM_SEED) 0 (np_draws s) (np_pos s)).
Proof.
  rewrite main_eq, !bind_seed_eq. cbn [np_draws np_pos]. reflexivity.
Qed.

(** With the seed, the date and the state of NumPy's generator fixed, the
    tables are fixed. *)
Lemma main_determined mt today s1 s2 :
  np_draws s1 = np_draws s2 -> np_pos s1 = np_pos s2 ->
  main mt today s1 = main mt today s2.
Proof.
  intros Hd Hp. rewrite (main_reseeds mt today s1), (main_reseeds mt today s2).
  now rewrite Hd, Hp.
Qed.

(** C4. Two runs of [main] with the same seed on the same day, started with
    the same state of Python's generator and different states of NumPy's
    generator, write different tables: the customers of the first orders
    differ. *)
Theorem same_seed_different_tables :
  py_draws example_state = py_draws example_state' /\
  py_pos example_state = py_pos example_state' /\
  option_map (fun t => map Order.customer_id (firstn 2 (orders_csv t))) example_tables
  = Some [79; 84] /\
  option_map (fun t => map Order.customer_id (firstn 2 (orders_csv t))) example_tables'
  = Some [82; 70] /\
  example_tables <> example_tables'.
Proof.
  assert (H1 : option_map (fun t => map Order.customer_id (firstn 2 (orders_csv t)))
                 example_tables = Some [79; 84]) by (vm_compute; reflexivity).
  assert (H2 : option_map (fun t => map Order.customer_id (firstn 2 (orders_csv t)))
                 example_tables' = Some [82; 70]) by (vm_compute; reflexivity).
  split; [reflexivity|]. split; [reflexivity|].
  split; [exact H1|]. split; [exact H2|].
  intros E. rewrite E, H2 in H1. discriminate H1.
Qed.

(** ** Prices and totals *)

Lemma line_total_nonneg products order_id p i :
  Forall (fun p => nonneg (Product.price p)) products ->
  In p products -> line_of order_id p i -> nonneg (OrderItem.line_total i).
Proof.
  intros Hprices Hp (_ & _ & Hprice & Hq & ->).
  rewrite Forall_forall in Hprices.
  destruct (float_of_int_quantity _ Hq) as (m & e & Hf).
  apply round2_nonneg. eapply mul_nonneg; [|exact Hf].
  rewrite Hprice. now apply Hprices.
Qed.

(** C5. [create_products] always returns; for every product, [cost] is
    [round(u, 2)] for a draw [u] with [5 <= u <= 80], [price] is
    [round(cost * markup, 2)] for a draw [markup] with
    [1.2 <= markup <= 2.5], and [cost < price]. *)
Theorem product_price_above_cost :
  forall s,
  exists products s',
    create_products s = Ok products s' /\
    forall p, In p products ->
      exists u markup,
        (5 <=? u)%float = true /\ (u <=? 80)%float = true /\
        Product.cost p = round2 u /\
        (1.2 <=? markup)%float = true /\ (markup <=? 2.5)%float = true /\
        Product.price p = round2 (Product.cost p * markup)%float /\
        (Product.cost p <? Product.price p)%float = true.
Proof.
  intros s. destruct (create_products_total s) as (products & s' & H).
  exists products, s'. split; [exact H|].
  apply create_products_spec in H. intros p Hp.
  destruct (Forall2_In_r _ _ _ _ H Hp) as (id & _ & _ & k1 & k2 & Hcost & Hprice).
  destruct (price_above_cost k1 k2) as (Hu1 & Hu2 & Hm1 & Hm2 & Hlt & _).
  exists (5 + (80 - 5) * unit_float k1)%float,
         (1.2 + (2.5 - 1.2) * unit_float k2)%float.
  rewrite Hprice, Hcost. repeat split; assumption.
Qed.

Lemma create_products_prices_nonneg s products s' :
  create_products s = Ok products s' ->
  Forall (fun p => nonneg (Product.price p)) products.
Proof.
  intros H. apply create_products_spec in H. apply Forall_forall. intros p Hp.
  destruct (Forall2_In_r _ _ _ _ H Hp) as (id & _ & _ & k1 & k2 & Hcost & Hprice).
  rewrite Hprice, Hcost. apply price_above_cost.
Qed.

(** With distinct order ids and prices that are not negative, the back-fill
    writes the rounded sum itself. *)
Lemma create_order_items_totals_nonneg orders products s items orders' s' :
  create_order_items orders products s = Ok (items, orders') s' ->
  NoDup (map Order.order_id orders) ->
  Forall (fun p => nonneg (Product.price p)) products ->
  forall o, In o orders' ->
    Order.order_total o = round2 (sum_line_totals (Order.order_id o) items) /\
    Forall (fun i =>
              OrderItem.line_total i
              = round2 (OrderItem.unit_price i
                        * float_of_int (OrderItem.quantity i))%float)
           (items_of (Order.order_id o) items).
Proof.
  intros H Hnd Hprices o Ho.
  assert (Hrows : forall i, In i (items_of (Order.order_id o) items) ->
            exists o' p, In o' orders /\ In p products /\
                         line_of (Order.order_id o') p i).
  { intros i Hi. apply filter_In in Hi. destruct Hi as [Hi _].
    exact (create_order_items_rows _ _ _ _ _ _ H i Hi). }
  split.
  - rewrite (create_order_items_totals _ _ _ _ _ _ H Hnd o Ho).
    rewrite nonneg_not_nan; [reflexivity|].
    apply round2_nonneg. unfold sum_line_totals, fsum.
    apply fold_add_nonneg; [reflexivity|].
    apply Forall_forall. intros x Hx. apply in_map_iff in Hx.
    destruct Hx as (i & <- & Hi).
    destruct (Hrows i Hi) as (o' & p & _ & Hp & Hline).
    exact (line_total_nonneg _ _ _ _ Hprices Hp Hline).
  - apply Forall_forall. intros i Hi.
    destruct (Hrows i Hi) as (o' & p & _ & _ & Hline). apply Hline.
Qed.



(** X15. In every run of [main], every order's total is the rounded sum of
    the line totals of its order items. *)
Lemma main_order_totals mt today s0 :
  exists t s',
    main mt today s0 = Ok t s' /\
    forall o, In o (orders_csv t) ->
      Order.order_total o
      = round2 (sum_line_totals (Order.order_id o) (order_items_csv t)).
Proof.
  destruct (main_total mt today s0) as (t & s' & H).
  exists t, s'. split; [exact H|].
  apply main_spec in H.
  destruct H as (orders0 & s1 & s2 & s3 & s4 & s5 & _ & Hp & _ & Ho & Hi & _).
  apply create_products_prices_nonneg in Hp.
  apply create_orders_spec in Ho. destruct Ho as [Hids _].
  assert (Hnd : NoDup (map Order.order_id orders0))
    by (rewrite Hids; apply range_NoDup).
  intros o Hin.
  apply (create_order_items_totals_nonneg _ _ _ _ _ _ Hi Hnd Hp o Hin).
Qed.

(** * Further properties of the generators *)

(** ** Ranges *)

Lemma range_nil a b : b <= a -> range a b = [].
Proof. intros H. unfold range. replace (Z.to_nat (b - a)) with O by lia. reflexivity. Qed.

Lemma range_cons a b : a < b -> range a b = a :: range (a + 1) b.
Proof.
  intros H. unfold range.
  replace (Z.to_nat (b - a)) with (S (Z.to_nat (b - (a + 1)))) by lia.
  simpl seq. simpl map. f_equal; [lia|].
  rewrite <- seq_shift, map_map. apply map_ext. intros i. lia.
Qed.

Lemma range_app a b c : a <= b -> b <= c -> (range a b ++ range b c)%list = range a c.
Proof.
  intros Hab Hbc. remember (Z.to_nat (b - a)) as n eqn:En.
  revert a Hab En. induction n as [|n IH]; intros a Hab En.
  - assert (a = b) by lia. subst. now rewrite (range_nil b b) by lia.
  - rewrite (range_cons a b), (range_cons a c) by lia. simpl. f_equal.
    apply IH; lia.
Qed.

Lemma range_ids_length a b l :
  a <= b -> range a b = l -> b = a + Z.of_nat (List.length l).
Proof. intros Hab <-. rewrite range_length. lia. Qed.

(** ** Subsequences *)

Lemma subseq_In {A} (l1 l2 : list A) x : subseq l1 l2 -> In x l1 -> In x l2.
Proof. induction 1; simpl; intuition. Qed.

Lemma subseq_length {A} (l1 l2 : list A) :
  subseq l1 l2 -> (List.length l1 <= List.length l2)%nat.
Proof. induction 1; simpl; lia. Qed.

Lemma subseq_NoDup {A} (l1 l2 : list A) : subseq l1 l2 -> NoDup l2 -> NoDup l1.
Proof.
  induction 1 as [|x l1 l2 Hs IH|x l1 l2 Hs IH]; intros Hnd.
  - constructor.
  - inversion Hnd; subst. auto.
  - inversion Hnd as [|? ? Hnotin Hnd']; subst. constructor; [|auto].
    intros Hin. apply Hnotin. eapply subseq_In; eassumption.
Qed.

(** ** [random_date] *)

Lemma randint_empty a b s : b < a -> randint a b s = Raise ValueError.
Proof.
  intros H. unfold randint. apply Z.ltb_lt in H. now rewrite H.
Qed.

(** ** [random.choices] *)

Lemma bisect_range fuel a x lo hi :
  lo <= hi -> lo <= bisect fuel a x lo hi <= hi.
Proof.
  revert lo hi. induction fuel as [|fuel IH]; intros lo hi Hle; simpl; [lia|].
  destruct (Z.ltb_spec lo hi) as [Hlt | Hge]; [|lia].
  assert (lo <= (lo + hi) / 2 < hi).
  { split; [apply Z.div_le_lower_bound; lia | apply Z.div_lt_upper_bound; lia]. }
  destruct (x <? nth (Z.to_nat ((lo + hi) / 2)) a 0)%float.
  - specialize (IH lo ((lo + hi) / 2) ltac:(lia)). lia.
  - specialize (IH ((lo + hi) / 2 + 1) hi ltac:(lia)). lia.
Qed.

Lemma choices1_In {A} (population : list A) weights s x s' :
  choices1 population weights s = Ok x s' -> In x population.
Proof.
  unfold choices1. destruct population as [|d l]; [discriminate|].
  destruct (negb _); [discriminate|].
  destruct (_ <=? 0)%float; [discriminate|].
  intros H. apply bind_Ok in H. destruct H as (r & s1 & _ & H).
  apply ret_Ok in H. destruct H as [<- _].
  apply nth_In.
  pose proof (bisect_range (List.length (d :: l)) (accumulate weights)
                (r * (last (accumulate weights) 0 + 0))%float 0
                (Z.of_nat (List.length (d :: l)) - 1)) as Hb.
  simpl List.length in *. lia.
Qed.

(** ** Rows *)

Lemma for_rows_raise {A B} (f : A -> M B) x xs s e :
  f x s = Raise e -> for_rows f (x :: xs) s = Raise e.
Proof. intros H. simpl. unfold bind. now rewrite H. Qed.

Lemma Forall2_range_ids {A} (P : Z -> A -> Prop) (id_of : A -> Z) ids rows :
  Forall2 P ids rows -> (forall id r, P id r -> id_of r = id) ->
  map id_of rows = ids.
Proof.
  intros H HP. induction H as [|id r ids rows Hr _ IH]; simpl; [reflexivity|].
  f_equal; [now apply HP | exact IH].
Qed.

Lemma product_row_shape product_id s p s' :
  product_row product_id s = Ok p s' ->
  Product.product_id p = product_id /\
  In (Product.category p) categories /\
  (exists adjective noun,
     In adjective adjectives /\ In noun nouns /\
     Product.name p = (adjective ++ " " ++ noun)%string) /\
  exists k1 k2,
    Product.cost p = round2 (5 + (80 - 5) * unit_float k1)%float /\
    Product.price p
    = round2 (Product.cost p * (1.2 + (2.5 - 1.2) * unit_float k2))%float.
Proof.
  unfold product_row. intros H.
  apply bind_Ok in H. destruct H as (c & s1 & Hc & H).
  apply bind_Ok in H. destruct H as (a & s2 & Ha & H).
  apply bind_Ok in H. destruct H as (n & s3 & Hn & H).
  apply bind_Ok in H. destruct H as (u & s4 & Hu & H).
  apply bind_Ok in H. destruct H as (m & s5 & Hm & H).
  apply bind_Ok in H. destruct H as (b & s6 & Hb & H).
  apply ret_Ok in H. destruct H as [<- _]. simpl.
  apply choice_In in Hc, Ha, Hn.
  apply uniform_spec in Hu, Hm. destruct Hu as (k1 & ->). destruct Hm as (k2 & ->).
  split; [reflexivity|]. split; [exact Hc|].
  split; [exists a, n; auto|]. exists k1, k2. auto.
Qed.

Lemma customer_row_shape today customer_id s c s' :
  customer_row today customer_id s = Ok c s' ->
  Customer.customer_id c = customer_id /\
  In (Customer.first_name c) first_names /\
  In (Customer.last_name c) last_names /\
  In (Customer.city c) cities /\ In (Customer.state c) states /\
  In (Customer.loyalty_tier c) ["Bronze"; "Silver"; "Gold"; "Platinum"] /\
  exists d, Customer.signup_date c = date_isoformat d /\
            today - 365 <= d <= today.
Proof.
  unfold customer_row. intros H.
  apply bind_Ok in H. destruct H as (f & s1 & Hf & H).
  apply bind_Ok in H. destruct H as (l & s2 & Hl & H).
  apply bind_Ok in H. destruct H as (dt & s3 & Hd & H).
  apply bind_Ok in H. destruct H as (ci & s4 & Hci & H).
  apply bind_Ok in H. destruct H as (st & s5 & Hst & H).
  apply bind_Ok in H. destruct H as (t & s6 & Ht & H).
  apply ret_Ok in H. destruct H as [<- _]. simpl.
  apply choice_In in Hf, Hl, Hci, Hst, Ht.
  apply random_date_range in Hd.
  repeat split; try assumption. exists (dt_day dt). split; [reflexivity | lia].
Qed.

Lemma order_row_shape today customers order_id s o s' :
  order_row today customers order_id s = Ok o s' ->
  Order.order_id o = order_id /\
  In (Order.order_status o) statuses /\
  In (Order.shipping_method o) ["ground"; "express"; "pickup"] /\
  Order.order_total o = 0%float.
Proof.
  unfold order_row. intros H.
  apply bind_Ok in H. destruct H as (c & s1 & Hc & H).
  apply bind_Ok in H. destruct H as (dt & s2 & Hd & H).
  apply bind_Ok in H. destruct H as (st & s3 & Hst & H).
  apply bind_Ok in H. destruct H as (sh & s4 & Hsh & H).
  apply ret_Ok in H. destruct H as [<- _]. simpl.
  apply choices1_In in Hst. apply choice_In in Hsh. auto.
Qed.

(** ** The ids that [create_order_items] gives *)

Lemma order_lines_ids order_id choices rows item_id total s rows' item_id' total' s' :
  order_lines order_id choices rows item_id total s = Ok (rows', item_id', total') s' ->
  item_id' = item_id + Z.of_nat (List.length choices) /\
  map OrderItem.order_item_id rows'
  = (map OrderItem.order_item_id rows ++ range item_id item_id')%list.
Proof.
  revert rows item_id total s.
  induction choices as [|p rest IH]; intros rows item_id total s H; simpl in H.
  - apply ret_Ok in H. destruct H as [H _]. injection H as <- <- <-.
    rewrite range_nil, app_nil_r by lia. simpl. split; [lia | reflexivity].
  - apply bind_Ok in H. destruct H as (q & s1 & _ & H).
    apply IH in H. destruct H as [-> Hids].
    split; [simpl List.length; lia|].
    rewrite Hids, map_app, <- app_assoc. simpl.
    now rewrite (range_cons item_id) by lia.
Qed.

Lemma order_items_loop_ids orders products rows d item_id s rows' d' s' :
  order_items_loop orders products rows d item_id s = Ok (rows', d') s' ->
  exists item_id',
    item_id <= item_id' /\
    map OrderItem.order_item_id rows'
    = (map OrderItem.order_item_id rows ++ range item_id item_id')%list.
Proof.
  revert rows d item_id s.
  induction orders as [|o rest IH]; intros rows d item_id s H; simpl in H.
  - apply ret_Ok in H. destruct H as [H _]. injection H as <- <-.
    exists item_id. rewrite range_nil, app_nil_r by lia. split; [lia | reflexivity].
  - apply bind_Ok in H. destruct H as (n & s1 & _ & H).
    apply bind_Ok in H. destruct H as (ch & s2 & _ & H).
    apply bind_Ok in H. destruct H as ([[rows1 id1] t1] & s3 & Hl & H).
    apply order_lines_ids in Hl. destruct Hl as [Hid1 Hrows1].
    apply IH in H. destruct H as (id' & Hle & Hrows').
    exists id'. split; [lia|].
    rewrite Hrows', Hrows1, <- app_assoc. f_equal. apply range_app; lia.
Qed.

Lemma create_order_items_item_ids orders products s items orders' s' :
  create_order_items orders products s = Ok (items, orders') s' ->
  map OrderItem.order_item_id items = range 1 (1 + Z.of_nat (List.length items)).
Proof.
  unfold create_order_items. intros H.
  apply bind_Ok in H. destruct H as ([rows d] & s1 & Hl & H).
  apply ret_Ok in H. destruct H as [H _]. injection H as <- _.
  apply order_items_loop_ids in Hl. destruct Hl as (id' & Hle & Hids).
  simpl in Hids. rewrite Hids. f_equal.
  apply (f_equal (@List.length Z)) in Hids.
  rewrite length_map, range_length in Hids. lia.
Qed.

Lemma groups_length products orders groups :
  Forall2 (group_of products) orders groups ->
  (List.length orders <= List.length (List.concat groups)
   <= 5 * List.length orders)%nat.
Proof.
  induction 1 as [|o g os gs [Hg _] _ IH]; simpl; [lia|].
  rewrite length_app. lia.
Qed.

(** ** The ids that [create_reviews] gives *)

Lemma reviews_loop_ids today orders order_items rows review_id s rows' s' :
  reviews_loop today orders order_items rows review_id s = Ok rows' s' ->
  exists new,
    rows' = (rows ++ new)%list /\
    map Review.review_id new
    = range review_id (review_id + Z.of_nat (List.length new)) /\
    subseq (map Review.order_id new) (map Order.order_id orders).
Proof.
  revert rows review_id s.
  induction orders as [|o rest IH]; intros rows review_id s H; simpl in H.
  - apply ret_Ok in H. destruct H as [<- _]. exists [].
    rewrite app_nil_r, range_nil by (simpl; lia).
    repeat split. constructor.
  - apply bind_Ok in H. destruct H as (r & s1 & _ & H).
    destruct (REVIEW_PROBABILITY <? r)%float.
    { apply IH in H. destruct H as (new & -> & Hids & Hsub).
      exists new. repeat split; [exact Hids | now constructor]. }
    destruct (items_of (Order.order_id o) order_items) as [|i0 items0].
    { apply IH in H. destruct H as (new & -> & Hids & Hsub).
      exists new. repeat split; [exact Hids | now constructor]. }
    apply bind_Ok in H. destruct H as (item & s2 & _ & H).
    apply bind_Ok in H. destruct H as (dt & s3 & _ & H).
    apply bind_Ok in H. destruct H as (rating & s4 & _ & H).
    apply bind_Ok in H. destruct H as (text & s5 & _ & H).
    apply IH in H. destruct H as (new & -> & Hids & Hsub).
    eexists (_ :: new). rewrite <- app_assoc. split; [reflexivity|].
    split.
    + simpl map. rewrite Hids. simpl List.length.
      rewrite (range_cons review_id) by lia. f_equal. f_equal. lia.
    + simpl. now constructor.
Qed.

(** ** Amounts: floats between two bounds *)

Lemma finpos_in_weaken lo hi lo' hi' x :
  finpos_in lo hi x -> (lo' <= lo)%R -> (hi <= hi')%R -> finpos_in lo' hi' x.
Proof.
  intros (m & e & Hx & Hm & Hv) Hlo Hhi. exists m, e.
  split; [exact Hx|]. split; [exact Hm | lra].
Qed.

(** The exponent of a 53-bit number between 1 and a million. *)
Lemma normal_exp_bounds m e :
  normal m -> (1 <= F2R (Zpos m) e <= 1000000)%R -> -52 <= e <= -32.
Proof.
  intros Hm Hv. unfold normal in Hm. pow_consts.
  assert (Hm1 : (4503599627370496 <= IZR (Zpos m))%R) by (apply IZR_le; lia).
  assert (Hm2 : (IZR (Zpos m) < 9007199254740992)%R) by (apply IZR_lt; lia).
  split.
  - destruct (Z_le_gt_dec (-52) e) as [|Hlt]; [assumption | exfalso].
    pose proof (bpow_le e (-53) ltac:(lia)) as Hb.
    pose proof (bpow_neg 53 ltac:(lia)) as B. change (2 ^ 53) with 9007199254740992 in B.
    change (- (53)) with (-53) in B.
    pose proof (bpow_pos e). unfold F2R in Hv. nra.
  - destruct (Z_le_gt_dec e (-32)) as [|Hgt]; [assumption | exfalso].
    pose proof (bpow_le (-31) e ltac:(lia)) as Hb.
    pose proof (bpow_neg 31 ltac:(lia)) as B. change (2 ^ 31) with 2147483648 in B.
    change (- (31)) with (-31) in B.
    pose proof (bpow_pos (-31)). unfold F2R in Hv. nra.
Qed.

(** A positive integer below [2^53] has a 53-bit mantissa. *)
Lemma repr_Z n : 0 < n < 2 ^ 53 -> repr (IZR n).
Proof.
  intros Hn. pow_consts.
  destruct n as [|p|p]; try lia.
  pose proof (digits2_pos_bounds p) as [B1 B2].
  set (d := Zpos (digits2_pos p)) in *.
  assert (Hd : 1 <= d <= 53).
  { split; [unfold d; lia|].
    assert (d - 1 < 53); [apply pow2_lt_inv; lia | lia]. }
  exists (Zpos p * 2 ^ (53 - d)), (- (53 - d)).
  assert (Hp : 2 ^ (d - 1) * 2 ^ (53 - d) = 2 ^ 52).
  { rewrite <- Z.pow_add_r by lia. f_equal. lia. }
  assert (Hq : 2 ^ d * 2 ^ (53 - d) = 2 ^ 53).
  { rewrite <- Z.pow_add_r by lia. f_equal. lia. }
  assert (0 < 2 ^ (53 - d)) by (apply Z.pow_pos_nonneg; lia).
  split; [nia|].
  rewrite <- (F2R_shift (Zpos p) (- (53 - d)) (53 - d)) by lia.
  replace (- (53 - d) + (53 - d)) with 0 by lia.
  unfold F2R. change (bpow 0) with 1%R. ring.
Qed.

Lemma finpos_in_leb_l a ma ea lo hi x :
  Prim2SF a = S754_finite false ma ea -> normal ma ->
  (F2R (Zpos ma) ea <= lo)%R -> finpos_in lo hi x -> (a <=? x)%float = true.
Proof.
  intros Ha Hma Hlo (m & e & Hx & Hm & Hv).
  apply (leb_finpos _ _ _ _ _ _ Ha Hx Hma Hm). lra.
Qed.

Lemma finpos_in_leb_r b mb eb lo hi x :
  Prim2SF b = S754_finite false mb eb -> normal mb ->
  (hi <= F2R (Zpos mb) eb)%R -> finpos_in lo hi x -> (x <=? b)%float = true.
Proof.
  intros Hb Hmb Hhi (m & e & Hx & Hm & Hv).
  apply (leb_finpos _ _ _ _ _ _ Hx Hb Hm Hmb). lra.
Qed.

(** [round(x, 2)] keeps [x] between two whole bounds. *)
Lemma round2_in lo hi x :
  1 <= lo -> hi <= 1000000 ->
  finpos_in (IZR lo) (IZR hi) x -> finpos_in (IZR lo) (IZR hi) (round2 x).
Proof.
  intros Hlo Hhi (m & e & Hx & Hm & Hv). pow_consts.
  assert (Hlo' : (1 <= IZR lo)%R) by (apply IZR_le; lia).
  assert (Hhi' : (IZR hi <= 1000000)%R) by (apply IZR_le; lia).
  pose proof (normal_exp_bounds m e Hm ltac:(lra)) as He.
  destruct (round2_finpos x m e Hx ltac:(lia) ltac:(lra))
    as (n & m' & e' & Hr & Hm' & He' & Hn & Hrd).
  apply Rabs_le_bounds in Hn.
  assert (Hn' : 100 * lo <= n <= 100 * hi).
  { assert (100 * lo - 1 < n) by (apply lt_IZR; rewrite minus_IZR, mult_IZR; lra).
    assert (n < 100 * hi + 1) by (apply lt_IZR; rewrite plus_IZR, mult_IZR; lra).
    lia. }
  assert (Rn : (IZR lo <= IZR n / 100 <= IZR hi)%R).
  { destruct Hn' as [I1 I2]. apply IZR_le in I1, I2. rewrite mult_IZR in I1, I2.
    lra. }
  assert (Hlo2 : (0 < IZR lo)%R) by lra.
  assert (Hhi2 : lo <= hi) by (apply le_IZR; lra).
  exists m', e'. split; [exact Hr|]. split; [exact Hm'|]. split.
  - apply (rounds_lb _ _ _ Hrd (repr_Z lo ltac:(lia))). lra.
  - apply (rounds_ub _ _ _ Hrd (repr_Z hi ltac:(lia))). lra.
Qed.

(** The product of two amounts. *)
Lemma mul_in lo1 hi1 lo2 hi2 x y :
  1 <= lo1 -> 1 <= lo2 -> hi1 * hi2 <= 1000000 ->
  finpos_in (IZR lo1) (IZR hi1) x -> finpos_in (IZR lo2) (IZR hi2) y ->
  finpos_in (IZR (lo1 * lo2)) (IZR (hi1 * hi2)) (x * y)%float.
Proof.
  intros Hlo1 Hlo2 Hhi (mx & ex & Hx & Hmx & Hvx) (my & ey & Hy & Hmy & Hvy).
  pow_consts.
  assert (L1 : (1 <= IZR lo1)%R) by (apply IZR_le; lia).
  assert (L2 : (1 <= IZR lo2)%R) by (apply IZR_le; lia).
  assert (Hh1 : 1 <= hi1) by (apply le_IZR; lra).
  assert (Hh2 : 1 <= hi2) by (apply le_IZR; lra).
  assert (U : (IZR (hi1 * hi2) <= 1000000)%R) by (apply IZR_le; lia).
  assert (U1 : (IZR hi1 <= 1000000)%R) by (apply IZR_le; nia).
  assert (U2 : (IZR hi2 <= 1000000)%R) by (apply IZR_le; nia).
  pose proof (normal_exp_bounds mx ex Hmx ltac:(lra)) as Hex.
  pose proof (normal_exp_bounds my ey Hmy ltac:(lra)) as Hey.
  destruct (mul_finpos x y mx ex my ey Hx Hy Hmx Hmy ltac:(lia))
    as (m & e & Hz & Hm & He & Hrd).
  assert (Hl1 : lo1 <= hi1) by (apply le_IZR; lra).
  assert (Hl2 : lo2 <= hi2) by (apply le_IZR; lra).
  assert (Hll : 0 < lo1 * lo2 <= hi1 * hi2) by nia.
  exists m, e. split; [exact Hz|]. split; [exact Hm|]. split.
  - apply (rounds_lb _ _ _ Hrd (repr_Z (lo1 * lo2) ltac:(lia))).
    rewrite mult_IZR. nra.
  - apply (rounds_ub _ _ _ Hrd (repr_Z (hi1 * hi2) ltac:(lia))).
    rewrite mult_IZR. nra.
Qed.

(** The sum of two amounts. *)
Lemma add_in lo1 hi1 lo2 hi2 x y :
  1 <= lo1 -> 1 <= lo2 -> hi1 + hi2 <= 1000000 ->
  finpos_in (IZR lo1) (IZR hi1) x -> finpos_in (IZR lo2) (IZR hi2) y ->
  finpos_in (IZR (lo1 + lo2)) (IZR (hi1 + hi2)) (x + y)%float.
Proof.
  intros Hlo1 Hlo2 Hhi (mx & ex & Hx & Hmx & Hvx) (my & ey & Hy & Hmy & Hvy).
  pow_consts.
  assert (L1 : (1 <= IZR lo1)%R) by (apply IZR_le; lia).
  assert (L2 : (1 <= IZR lo2)%R) by (apply IZR_le; lia).
  assert (Hh1 : 1 <= hi1) by (apply le_IZR; lra).
  assert (Hh2 : 1 <= hi2) by (apply le_IZR; lra).
  assert (U1 : (IZR hi1 <= 1000000)%R) by (apply IZR_le; lia).
  assert (U2 : (IZR hi2 <= 1000000)%R) by (apply IZR_le; lia).
  pose proof (normal_exp_bounds mx ex Hmx ltac:(lra)) as Hex.
  pose proof (normal_exp_bounds my ey Hmy ltac:(lra)) as Hey.
  destruct (add_finpos x y mx ex my ey Hx Hy Hmx Hmy ltac:(lia) ltac:(lia))
    as (m & e & Hz & Hm & He & Hrd).
  assert (Hl1 : lo1 <= hi1) by (apply le_IZR; lra).
  assert (Hl2 : lo2 <= hi2) by (apply le_IZR; lra).
  exists m, e. split; [exact Hz|]. split; [exact Hm|]. split.
  - apply (rounds_lb _ _ _ Hrd (repr_Z (lo1 + lo2) ltac:(lia))).
    rewrite plus_IZR. lra.
  - apply (rounds_ub _ _ _ Hrd (repr_Z (hi1 + hi2) ltac:(lia))).
    rewrite plus_IZR. lra.
Qed.

(** [0.0 + x] is [x]. *)
Lemma add_zero_in lo hi x :
  finpos_in lo hi x -> finpos_in lo hi (0 + x)%float.
Proof.
  intros (m & e & Hx & Hm & Hv). exists m, e.
  split; [|split; assumption].
  rewrite add_spec, Hx. reflexivity.
Qed.

(** The float of a quantity is the quantity. *)
Lemma float_of_int_in q :
  1 <= q <= 4 -> finpos_in (IZR q) (IZR q) (float_of_int q).
Proof.
  intros Hq. pow_consts.
  pose proof (bpow_neg 50 ltac:(lia)) as B50. change (2 ^ 50) with 1125899906842624 in B50.
  pose proof (bpow_neg 51 ltac:(lia)) as B51. change (2 ^ 51) with 2251799813685248 in B51.
  pose proof (bpow_neg 52 ltac:(lia)) as B52. change (2 ^ 52) with 4503599627370496 in B52.
  change (- (50)) with (-50) in B50.
  change (- (51)) with (-51) in B51. change (- (52)) with (-52) in B52.
  assert (Hc : q = 1 \/ q = 2 \/ q = 3 \/ q = 4) by lia.
  destruct Hc as [-> | [-> | [-> | ->]]].
  - exists 4503599627370496%positive, (-52). split; [reflexivity|].
    split; [unfold normal; lia | unfold F2R; lra].
  - exists 4503599627370496%positive, (-51). split; [reflexivity|].
    split; [unfold normal; lia | unfold F2R; lra].
  - exists 6755399441055744%positive, (-51). split; [reflexivity|].
    split; [unfold normal; lia | unfold F2R; lra].
  - exists 4503599627370496%positive, (-50). split; [reflexivity|].
    split; [unfold normal; lia | unfold F2R; lra].
Qed.

(** ** The ranges of cost and price *)

(** The rounded cost stays in [5, 80] and the rounded price in [6, 200]:
    [5 * 1.2] rounds up to [6.00] and [80 * 2.5] is [200] exactly. *)
Lemma cost_price_in k1 k2 :
  let cost := round2 (5 + (80 - 5) * unit_float k1)%float in
  let price := round2 (cost * (1.2 + (2.5 - 1.2) * unit_float k2))%float in
  finpos_in 5 80 cost /\ finpos_in 6 200 price.
Proof.
  intros cost price.
  set (u := (5 + (80 - 5) * unit_float k1)%float) in *.
  set (markup := (1.2 + (2.5 - 1.2) * unit_float k2)%float) in *.
  assert (H5 : Prim2SF 5 = S754_finite false 5629499534213120 (-50)) by reflexivity.
  assert (H80 : Prim2SF 80 = S754_finite false 5629499534213120 (-46)) by reflexivity.
  assert (H75 : Prim2SF (80 - 5) = S754_finite false 5277655813324800 (-46))
    by reflexivity.
  assert (H12 : Prim2SF 1.2 = S754_finite false 5404319552844595 (-52)) by reflexivity.
  assert (H25 : Prim2SF 2.5 = S754_finite false 5629499534213120 (-51)) by reflexivity.
  assert (H13 : Prim2SF (2.5 - 1.2) = S754_finite false 5854679515581645 (-52))
    by reflexivity.
  assert (N1 : normal 5629499534213120) by (unfold normal; pow_consts; lia).
  assert (N2 : normal 5277655813324800) by (unfold normal; pow_consts; lia).
  assert (N3 : normal 5404319552844595) by (unfold normal; pow_consts; lia).
  assert (N4 : normal 5854679515581645) by (unfold normal; pow_consts; lia).
  assert (N7 : normal 6755399441055743) by (unfold normal; pow_consts; lia).
  pose proof (bpow_neg 46 ltac:(lia)) as B46. change (2 ^ 46) with 70368744177664 in B46.
  pose proof (bpow_neg 50 ltac:(lia)) as B50. change (2 ^ 50) with 1125899906842624 in B50.
  pose proof (bpow_neg 51 ltac:(lia)) as B51. change (2 ^ 51) with 2251799813685248 in B51.
  pose proof (bpow_neg 52 ltac:(lia)) as B52. change (2 ^ 52) with 4503599627370496 in B52.
  change (- (46)) with (-46) in B46. change (- (50)) with (-50) in B50.
  change (- (51)) with (-51) in B51. change (- (52)) with (-52) in B52.
  (* the two draws *)
  destruct (uniform_range 5 (80 - 5) 80 _ _ _ _ _ _ k1 H5 H75 H80 N1 N2 N1
              ltac:(lia) ltac:(lia)) as (mu & eu & Hu & Hmu & Heu & Hvu);
    [unfold F2R; lra|].
  destruct (uniform_range 1.2 (2.5 - 1.2) 2.5 _ _ _ _ _ _ k2 H12 H13 H25 N3 N4 N1
              ltac:(lia) ltac:(lia)) as (mm & em & Hm & Hmm & Hem & Hvm);
    [unfold F2R; lra|].
  fold u in Hu. fold markup in Hm.
  set (vm := F2R (Zpos mm) em) in *.
  assert (Vu : finpos_in (IZR 5) (IZR 80) u).
  { exists mu, eu. split; [exact Hu|]. split; [exact Hmu|]. unfold F2R in *. lra. }
  assert (Vm : (5404319552844595 * bpow (-52) <= vm <= 2.5)%R)
    by (unfold F2R in Hvm; lra).
  (* the cost *)
  pose proof (round2_in 5 80 u ltac:(lia) ltac:(lia) Vu) as Vc. fold cost in Vc.
  split; [exact Vc|].
  destruct Vc as (mc & ec & Hc & Hmc & Vc).
  pose proof (normal_exp_bounds mc ec Hmc ltac:(lra)) as Hec.
  set (vc := F2R (Zpos mc) ec) in *.
  (* the product and the price *)
  destruct (mul_finpos cost markup mc ec mm em Hc Hm Hmc Hmm ltac:(lia))
    as (my & ey & Hy & Hmy & Hey & Hry).
  fold vc vm in Hry. set (vy := F2R (Zpos my) ey) in *.
  assert (Vcm : (5 * (5404319552844595 * bpow (-52)) <= vc * vm <= 200)%R).
  { pose proof (bpow_pos (-52)). split; nra. }
  assert (Vy1 : (F2R 6755399441055743 (-50) <= vy)%R).
  { apply (rounds_lb _ _ _ Hry (normal_repr _ _ N7)). unfold F2R.
    pose proof (bpow_add (-52) 2) as Hb. change (-52 + 2) with (-50) in Hb.
    rewrite (bpow_IZR 2) in Hb by lia. change (2 ^ 2) with 4 in Hb. lra. }
  assert (Vy2 : (vy <= 200)%R).
  { apply (rounds_ub _ _ _ Hry (repr_Z 200 ltac:(pow_consts; lia))). lra. }
  assert (Vy : (5.99 <= vy <= 200)%R) by (unfold F2R in Vy1; lra).
  destruct (round2_finpos (cost * markup) my ey Hy ltac:(lia) ltac:(fold vy; lra))
    as (np & mp & ep & Hp & Hmp & Hep & Hnp & Hrp).
  fold price in Hp. fold vy in Hnp. apply Rabs_le_bounds in Hnp.
  assert (Inp : 600 <= np <= 20000).
  { assert (599 < np) by (apply lt_IZR; unfold F2R in Vy1; lra).
    assert (np < 20001) by (apply lt_IZR; lra). lia. }
  assert (Rnp : (6 <= IZR np / 100 <= 200)%R).
  { destruct Inp as [I1 I2]. apply IZR_le in I1, I2. lra. }
  exists mp, ep. split; [exact Hp|]. split; [exact Hmp|]. split.
  - apply (rounds_lb _ _ _ Hrp (repr_Z 6 ltac:(pow_consts; lia))). lra.
  - apply (rounds_ub _ _ _ Hrp (repr_Z 200 ltac:(pow_consts; lia))). lra.
Qed.

(** A line total: a price in [6, 200] times a quantity in [1, 4], rounded. *)
Lemma line_total_in price q :
  finpos_in 6 200 price -> 1 <= q <= 4 ->
  finpos_in 6 800 (round2 (price * float_of_int q)%float).
Proof.
  intros Hp Hq.
  pose proof (mul_in 6 200 q q price (float_of_int q) ltac:(lia) ltac:(lia)
                ltac:(lia) Hp (float_of_int_in q Hq)) as Hm.
  assert (Hm' : finpos_in (IZR 6) (IZR 800) (price * float_of_int q)%float).
  { apply (finpos_in_weaken _ _ _ _ _ Hm); apply IZR_le; lia. }
  exact (round2_in 6 800 _ ltac:(lia) ltac:(lia) Hm').
Qed.

(** The running sum over [j] line totals already added and the rest. *)
Lemma fold_add_in xs acc j :
  1 <= j -> j + Z.of_nat (List.length xs) <= 1000 ->
  finpos_in (IZR (6 * j)) (IZR (800 * j)) acc ->
  Forall (finpos_in 6 800) xs ->
  finpos_in (IZR (6 * (j + Z.of_nat (List.length xs))))
            (IZR (800 * (j + Z.of_nat (List.length xs))))
            (fold_left PrimFloat.add xs acc).
Proof.
  revert acc j. induction xs as [|x xs IH]; intros acc j Hj Hlen Hacc Hxs.
  - simpl. now replace (j + 0) with j by lia.
  - inversion Hxs as [|? ? Hx Hrest]; subst. simpl fold_left.
    simpl List.length in *.
    replace (j + Z.of_nat (S (List.length xs)))
      with ((j + 1) + Z.of_nat (List.length xs)) in * by lia.
    apply IH; [lia | lia | | exact Hrest].
    pose proof (add_in (6 * j) (800 * j) 6 800 acc x ltac:(lia) ltac:(lia)
                  ltac:(lia) Hacc Hx) as Ha.
    now replace (6 * (j + 1)) with (6 * j + 6) by lia;
      replace (800 * (j + 1)) with (800 * j + 800) by lia.
Qed.

(** The rounded sum of between one and five line totals. *)
Lemma order_total_in xs :
  (1 <= List.length xs <= 5)%nat -> Forall (finpos_in 6 800) xs ->
  finpos_in 6 4000 (round2 (fsum xs)).
Proof.
  intros Hlen Hxs. destruct xs as [|x xs]; [simpl in Hlen; lia|].
  inversion Hxs as [|? ? Hx Hrest]; subst.
  unfold fsum. simpl fold_left. simpl List.length in Hlen.
  pose proof (fold_add_in xs (0 + x)%float 1 ltac:(lia) ltac:(lia)
                (add_zero_in _ _ _ Hx) Hrest) as Hsum.
  apply (finpos_in_weaken (IZR 6) (IZR 4000)); [|lra|lra].
  apply round2_in; [lia | lia |].
  apply (finpos_in_weaken _ _ _ _ _ Hsum); apply IZR_le; lia.
Qed.

(** ** Generators that use Python's [random] only *)

Lemma py_only_ret {A} (a : A) : py_only (ret a).
Proof. intros s1 s2 Hd Hp. simpl. repeat split; assumption. Qed.

Lemma py_only_raise {A} e : py_only (@raise A e).
Proof. intros s1 s2 Hd Hp. reflexivity. Qed.

Lemma py_only_py_next : py_only py_next.
Proof.
  intros s1 s2 Hd Hp. unfold py_next. simpl. rewrite Hd, Hp. repeat split; assumption.
Qed.

Lemma py_only_bind {A B} (c : M A) (k : A -> M B) :
  py_only c -> (forall a, py_only (k a)) -> py_only (bind c k).
Proof.
  intros Hc Hk s1 s2 Hd Hp. unfold bind.
  specialize (Hc s1 s2 Hd Hp).
  destruct (c s1) as [a1 t1|e1], (c s2) as [a2 t2|e2]; try contradiction;
    [|exact Hc].
  destruct Hc as (<- & Hd' & Hp' & [Hn1 Hn1'] & [Hn2 Hn2']).
  specialize (Hk a1 t1 t2 Hd' Hp').
  destruct (k a1 t1) as [b1 u1|e1], (k a1 t2) as [b2 u2|e2]; try contradiction;
    [|exact Hk].
  destruct Hk as (Hb & Hd'' & Hp'' & [Hm1 Hm1'] & [Hm2 Hm2']).
  repeat split; congruence.
Qed.

Ltac py_only_steps :=
  repeat first
    [ apply py_only_ret | apply py_only_raise | apply py_only_py_next
    | apply py_only_bind; [|intros ?] ].

Lemma py_only_randbelow n : py_only (randbelow n).
Proof. unfold randbelow. py_only_steps. Qed.

Lemma py_only_random : py_only random_random.
Proof. unfold random_random. py_only_steps. Qed.

Lemma py_only_randint a b : py_only (randint a b).
Proof.
  unfold randint. destruct (b <? a); [apply py_only_raise|].
  apply py_only_bind; [apply py_only_randbelow | intros; apply py_only_ret].
Qed.

Lemma py_only_choice {A} (seq : list A) : py_only (choice seq).
Proof.
  unfold choice. destruct seq; [apply py_only_raise|].
  apply py_only_bind; [apply py_only_randbelow | intros; apply py_only_ret].
Qed.

Lemma py_only_uniform a b : py_only (uniform a b).
Proof.
  unfold uniform.
  apply py_only_bind; [apply py_only_random | intros; apply py_only_ret].
Qed.

Lemma py_only_random_date start end_ : py_only (random_date start end_).
Proof.
  unfold random_date.
  repeat (apply py_only_bind; [apply py_only_randint | intros ?]).
  apply py_only_ret.
Qed.

Lemma py_only_for_rows {A B} (f : A -> M B) xs :
  (forall x, py_only (f x)) -> py_only (for_rows f xs).
Proof.
  intros Hf. induction xs as [|x xs IH]; simpl; [apply py_only_ret|].
  apply py_only_bind; [apply Hf | intros row].
  apply py_only_bind; [exact IH | intros rows; apply py_only_ret].
Qed.

Lemma py_only_create_products : py_only create_products.
Proof.
  unfold create_products. apply py_only_for_rows. intros id. unfold product_row.
  repeat first
    [ apply py_only_ret
    | apply py_only_bind;
      [first [apply py_only_choice | apply py_only_uniform] | intros ?] ].
Qed.

Lemma py_only_create_customers today : py_only (create_customers today).
Proof.
  unfold create_customers. apply py_only_for_rows. intros id. unfold customer_row.
  repeat first
    [ apply py_only_ret
    | apply py_only_bind;
      [first [apply py_only_choice | apply py_only_random_date] | intros ?] ].
Qed.

Lemma py_only_Ok {A} (c : M A) s1 s2 a1 t1 a2 t2 :
  py_only c -> py_draws s1 = py_draws s2 -> py_pos s1 = py_pos s2 ->
  c s1 = Ok a1 t1 -> c s2 = Ok a2 t2 ->
  a1 = a2 /\ py_draws t1 = py_draws t2 /\ py_pos t1 = py_pos t2 /\
  np_draws t1 = np_draws s1 /\ np_pos t1 = np_pos s1.
Proof.
  intros Hc Hd Hp H1 H2. specialize (Hc s1 s2 Hd Hp). rewrite H1, H2 in Hc.
  tauto.
Qed.

(** ** The rows of the three row loops *)

Lemma create_products_shape s products s' :
  create_products s = Ok products s' ->
  Forall2 (fun id p => exists s1 s2, product_row id s1 = Ok p s2)
          (range 1 (NUM_PRODUCTS + 1)) products.
Proof. unfold create_products. intros H. now apply for_rows_spec in H. Qed.

Lemma create_customers_shape today s customers s' :
  create_customers today s = Ok customers s' ->
  Forall2 (fun id c => exists s1 s2, customer_row today id s1 = Ok c s2)
          (range 1 (NUM_CUSTOMERS + 1)) customers.
Proof. unfold create_customers. intros H. now apply for_rows_spec in H. Qed.

Lemma create_orders_shape today customers s orders s' :
  create_orders today customers s = Ok orders s' ->
  Forall2 (fun id o => exists s1 s2, order_row today customers id s1 = Ok o s2)
          (range 1 (NUM_ORDERS + 1)) orders.
Proof. unfold create_orders. intros H. now apply for_rows_spec in H. Qed.

(** ** Further properties *)

(** X1. [random_date(start, end)] raises [ValueError] when [end] is before
    [start]; otherwise it returns a datetime whose day lies in
    [start .. end] and whose second of the day lies in [0 .. 86399]. *)
Theorem random_date_window :
  forall start end_ s,
    (end_ < start -> random_date start end_ s = Raise ValueError) /\
    (start <= end_ ->
     exists dt s',
       random_date start end_ s = Ok dt s' /\
       start <= dt_day dt <= end_ /\ 0 <= dt_sec dt <= 86399).
Proof.
  intros start end_ s. split.
  - intros H. unfold random_date, bind.
    rewrite randint_empty by lia. reflexivity.
  - intros H. destruct (random_date_total start end_ s H) as (dt & s' & Hdt).
    exists dt, s'. split; [exact Hdt|]. exact (random_date_range _ _ _ _ _ Hdt).
Qed.

(** X2. [create_orders] raises [ValueError] on an empty customers frame;
    otherwise it returns [NUM_ORDERS] orders whose ids are 1, 2, ... in row
    order, each with a status of the five, a shipping method of the three
    and the placeholder total [0.0]. *)
Theorem create_orders_rows :
  forall today customers s,
    (customers = [] -> create_orders today customers s = Raise ValueError) /\
    (customers <> [] ->
     exists orders s',
       create_orders today customers s = Ok orders s' /\
       map Order.order_id orders = range 1 (NUM_ORDERS + 1) /\
       forall o, In o orders ->
         In (Order.order_status o) statuses /\
         In (Order.shipping_method o) ["ground"; "express"; "pickup"] /\
         Order.order_total o = 0%float).
Proof.
  intros today customers s. split.
  - intros ->. unfold create_orders.
    rewrite (range_cons 1 (NUM_ORDERS + 1)) by (unfold NUM_ORDERS; lia).
    apply for_rows_raise. reflexivity.
  - intros Hc. destruct (create_orders_total today customers s Hc) as (orders & s' & H).
    exists orders, s'. split; [exact H|].
    apply create_orders_shape in H. split.
    + apply (Forall2_range_ids _ _ _ _ H).
      intros id o (s1 & s2 & Ho). apply order_row_shape in Ho. apply Ho.
    + intros o Ho. destruct (Forall2_In_r _ _ _ _ H Ho) as (id & _ & s1 & s2 & Hrow).
      apply order_row_shape in Hrow. tauto.
Qed.

(** X3. The rows of [create_order_items] are numbered 1, 2, ... in row
    order, and there are between one and [MAX_ITEMS_PER_ORDER] times as many
    rows as orders. *)
Theorem order_item_ids_consecutive :
  forall orders products s items orders' s',
    create_order_items orders products s = Ok (items, orders') s' ->
    map OrderItem.order_item_id items = range 1 (1 + Z.of_nat (List.length items)) /\
    Z.of_nat (List.length orders) <= Z.of_nat (List.length items)
    <= MAX_ITEMS_PER_ORDER * Z.of_nat (List.length orders).
Proof.
  intros orders products s items orders' s' H. split.
  - exact (create_order_items_item_ids _ _ _ _ _ _ H).
  - apply create_order_items_spec in H. destruct H as (groups & Hg & -> & _).
    apply groups_length in Hg. unfold MAX_ITEMS_PER_ORDER. lia.
Qed.

Lemma order_item_ids_consecutive_witness :
  create_order_items example_orders example_products example_state
  = Ok (example_items, example_orders_after) example_state_after /\
  map OrderItem.order_item_id example_items
  = range 1 (1 + Z.of_nat (List.length example_items)) /\
  Z.of_nat (List.length example_orders) <= Z.of_nat (List.length example_items)
  <= MAX_ITEMS_PER_ORDER * Z.of_nat (List.length example_orders).
Proof.
  assert (E : create_order_items example_orders example_products example_state
              = Ok (example_items, example_orders_after) example_state_after)
    by (vm_compute; reflexivity).
  split; [exact E|].
  exact (order_item_ids_consecutive _ _ _ _ _ _ E).
Defined.

(** X4. [create_order_items] hands back the orders frame with the same rows
    in the same order, and changes no column of it but [order_total]. *)
Theorem create_order_items_keeps_orders :
  forall orders products s items orders' s',
    create_order_items orders products s = Ok (items, orders') s' ->
    Forall2 (fun o o' => o' = Order.set_order_total o (Order.order_total o'))
            orders orders'.
Proof.
  intros orders products s items orders' s' H.
  apply create_order_items_spec in H. destruct H as (groups & _ & _ & ->).
  generalize (rev (bindings orders groups)). intros d.
  induction orders as [|o rest IH]; simpl; constructor; auto.
Qed.

Lemma create_order_items_keeps_orders_witness :
  create_order_items example_orders example_products example_state
  = Ok (example_items, example_orders_after) example_state_after /\
  Forall2 (fun o o' => o' = Order.set_order_total o (Order.order_total o'))
          example_orders example_orders_after.
Proof.
  assert (E : create_order_items example_orders example_products example_state
              = Ok (example_items, example_orders_after) example_state_after)
    by (vm_compute; reflexivity).
  split; [exact E|].
  exact (create_order_items_keeps_orders _ _ _ _ _ _ E).
Defined.

(** X5. With at least one order and an empty products frame,
    [create_order_items] raises [ValueError]: the sample of the first order
    cannot be drawn. *)
Theorem create_order_items_no_products :
  forall o rest s, create_order_items (o :: rest) [] s = Raise ValueError.
Proof.
  intros o rest s. unfold create_order_items.
  destruct (randint_total 1 MAX_ITEMS_PER_ORDER s) as (n & s1 & Hn);
    [unfold MAX_ITEMS_PER_ORDER; lia|].
  pose proof (randint_range _ _ _ _ _ Hn) as Hr.
  assert (Hloop : order_items_loop (o :: rest) [] [] [] 1 s = Raise ValueError).
  { simpl. eapply bind_Ok_step; [exact Hn|].
    destruct (Z.to_nat n) as [|n'] eqn:En; [lia|]. reflexivity. }
  unfold bind. now rewrite Hloop.
Qed.

(** X6. [create_reviews] always returns.  Its rows are numbered 1, 2, ... in
    row order; their order ids are those of the orders frame with some left
    out, in the same order, so that no order gets two reviews when the order
    ids are distinct and there are at most as many reviews as orders. *)
Theorem create_reviews_rows :
  forall today orders order_items s,
    exists reviews s',
      create_reviews today orders order_items s = Ok reviews s' /\
      map Review.review_id reviews
      = range 1 (1 + Z.of_nat (List.length reviews)) /\
      subseq (map Review.order_id reviews) (map Order.order_id orders) /\
      (List.length reviews <= List.length orders)%nat /\
      (NoDup (map Order.order_id orders) ->
       NoDup (map Review.order_id reviews)).
Proof.
  intros today orders order_items s. unfold create_reviews.
  destruct (reviews_loop_total today orders order_items [] 1 s) as (reviews & s' & H).
  exists reviews, s'. split; [exact H|].
  apply reviews_loop_ids in H. destruct H as (new & -> & Hids & Hsub).
  simpl. split; [exact Hids|]. split; [exact Hsub|]. split.
  - apply subseq_length in Hsub. now rewrite !length_map in Hsub.
  - intros Hnd. exact (subseq_NoDup _ _ Hsub Hnd).
Qed.

(** X7. [create_products] always returns [NUM_PRODUCTS] products whose ids
    are 1, 2, ... in row order; every category is one of the ten categories
    and every name is an adjective of the list, a space and a noun of the
    list. *)
Theorem create_products_rows :
  forall s,
    exists products s',
      create_products s = Ok products s' /\
      map Product.product_id products = range 1 (NUM_PRODUCTS + 1) /\
      forall p, In p products ->
        In (Product.category p) categories /\
        exists adjective noun,
          In adjective adjectives /\ In noun nouns /\
          Product.name p = (adjective ++ " " ++ noun)%string.
Proof.
  intros s. destruct (create_products_total s) as (products & s' & H).
  exists products, s'. split; [exact H|].
  apply create_products_shape in H. split.
  - apply (Forall2_range_ids _ _ _ _ H).
    intros id p (s1 & s2 & Hp). apply product_row_shape in Hp. apply Hp.
  - intros p Hp. destruct (Forall2_In_r _ _ _ _ H Hp) as (id & _ & s1 & s2 & Hrow).
    apply product_row_shape in Hrow. tauto.
Qed.

(** X8. Every product of [create_products] has a cost between 5 and 80 and
    a price between 6 and 200. *)
Theorem create_products_ranges :
  forall s,
    exists products s',
      create_products s = Ok products s' /\
      forall p, In p products ->
        (5 <=? Product.cost p)%float = true /\
        (Product.cost p <=? 80)%float = true /\
        (6 <=? Product.price p)%float = true /\
        (Product.price p <=? 200)%float = true.
Proof.
  intros s. destruct (create_products_total s) as (products & s' & H).
  exists products, s'. split; [exact H|].
  apply create_products_spec in H. intros p Hp.
  destruct (Forall2_In_r _ _ _ _ H Hp) as (id & _ & _ & k1 & k2 & Hcost & Hprice).
  rewrite Hprice, Hcost.
  destruct (cost_price_in k1 k2) as [Hc Hpr].
  assert (N1 : normal 5629499534213120) by (unfold normal; pow_consts; lia).
  assert (N5 : normal 6755399441055744) by (unfold normal; pow_consts; lia).
  assert (N6 : normal 7036874417766400) by (unfold normal; pow_consts; lia).
  pose proof (bpow_neg 45 ltac:(lia)) as B45. change (2 ^ 45) with 35184372088832 in B45.
  pose proof (bpow_neg 46 ltac:(lia)) as B46. change (2 ^ 46) with 70368744177664 in B46.
  pose proof (bpow_neg 50 ltac:(lia)) as B50. change (2 ^ 50) with 1125899906842624 in B50.
  change (- (45)) with (-45) in B45.
  change (- (46)) with (-46) in B46. change (- (50)) with (-50) in B50.
  split; [apply (finpos_in_leb_l 5 5629499534213120 (-50) _ _ _ eq_refl N1) in Hc;
          [exact Hc | unfold F2R; lra]|].
  split; [apply (finpos_in_leb_r 80 5629499534213120 (-46) _ _ _ eq_refl N1) in Hc;
          [exact Hc | unfold F2R; lra]|].
  split; [apply (finpos_in_leb_l 6 6755399441055744 (-50) _ _ _ eq_refl N5) in Hpr;
          [exact Hpr | unfold F2R; lra]|].
  apply (finpos_in_leb_r 200 7036874417766400 (-45) _ _ _ eq_refl N6) in Hpr;
    [exact Hpr | unfold F2R; lra].
Qed.

(** X9. [create_customers] always returns [NUM_CUSTOMERS] customers whose
    ids are 1, 2, ... in row order; names, city, state and loyalty tier come
    from their lists, and the signup date is the ISO text of a day of the
    last 365 days, today included. *)
Theorem create_customers_rows :
  forall today s,
    exists customers s',
      create_customers today s = Ok customers s' /\
      map Customer.customer_id customers = range 1 (NUM_CUSTOMERS + 1) /\
      forall c, In c customers ->
        In (Customer.first_name c) first_names /\
        In (Customer.last_name c) last_names /\
        In (Customer.city c) cities /\ In (Customer.state c) states /\
        In (Customer.loyalty_tier c) ["Bronze"; "Silver"; "Gold"; "Platinum"] /\
        exists d, Customer.signup_date c = date_isoformat d /\
                  today - 365 <= d <= today.
Proof.
  intros today s. destruct (create_customers_total today s) as (customers & s' & H).
  exists customers, s'. split; [exact H|].
  apply create_customers_shape in H. split.
  - apply (Forall2_range_ids _ _ _ _ H).
    intros id c (s1 & s2 & Hc). apply customer_row_shape in Hc. apply Hc.
  - intros c Hc. destruct (Forall2_In_r _ _ _ _ H Hc) as (id & _ & s1 & s2 & Hrow).
    apply customer_row_shape in Hrow. tauto.
Qed.

(** X10. In every run of [main] the id column of each of the five tables is
    1, 2, ... in row order, hence without duplicates; there are
    [NUM_PRODUCTS] products, [NUM_CUSTOMERS] customers, [NUM_ORDERS] orders,
    between [NUM_ORDERS] and [MAX_ITEMS_PER_ORDER * NUM_ORDERS] order items
    and at most [NUM_ORDERS] reviews. *)
Theorem main_table_ids :
  forall mt today s0,
    exists t s',
      main mt today s0 = Ok t s' /\
      map Product.product_id (products_csv t) = range 1 (NUM_PRODUCTS + 1) /\
      map Customer.customer_id (customers_csv t) = range 1 (NUM_CUSTOMERS + 1) /\
      map Order.order_id (orders_csv t) = range 1 (NUM_ORDERS + 1) /\
      map OrderItem.order_item_id (order_items_csv t)
      = range 1 (1 + Z.of_nat (List.length (order_items_csv t))) /\
      NUM_ORDERS <= Z.of_nat (List.length (order_items_csv t))
      <= MAX_ITEMS_PER_ORDER * NUM_ORDERS /\
      map Review.review_id (reviews_csv t)
      = range 1 (1 + Z.of_nat (List.length (reviews_csv t))) /\
      Z.of_nat (List.length (reviews_csv t)) <= NUM_ORDERS.
Proof.
  intros mt today s0. destruct (main_total mt today s0) as (t & s' & H).
  exists t, s'. split; [exact H|].
  apply main_spec in H.
  destruct H as (orders0 & s1 & s2 & s3 & s4 & s5 & _ & Hp & Hc & Ho & Hi & Hr).
  assert (Hpid : map Product.product_id (products_csv t)
                 = range 1 (NUM_PRODUCTS + 1)).
  { apply create_products_spec in Hp.
    apply (Forall2_range_ids _ _ _ _ Hp). intros id p [Hid _]. exact Hid. }
  assert (Hcid : map Customer.customer_id (customers_csv t)
                 = range 1 (NUM_CUSTOMERS + 1)).
  { apply create_customers_spec in Hc.
    apply (Forall2_range_ids _ _ _ _ Hc). intros id c [Hid _]. exact Hid. }
  assert (Hoid : map Order.order_id orders0 = range 1 (NUM_ORDERS + 1)).
  { apply create_orders_spec in Ho. destruct Ho as [Hoid _]. exact Hoid. }
  assert (Hlen : Z.of_nat (List.length orders0) = NUM_ORDERS).
  { apply (f_equal (@List.length Z)) in Hoid.
    rewrite length_map, range_length in Hoid. rewrite Hoid.
    unfold NUM_ORDERS. lia. }
  pose proof (create_order_items_ids _ _ _ _ _ _ Hi) as (Hoid' & _).
  pose proof (create_order_items_item_ids _ _ _ _ _ _ Hi) as Hiid.
  assert (Hlen' : List.length (orders_csv t) = List.length orders0).
  { apply (f_equal (@List.length Z)) in Hoid'.
    rewrite !length_map in Hoid'. exact Hoid'. }
  assert (Hicount : NUM_ORDERS <= Z.of_nat (List.length (order_items_csv t))
                    <= MAX_ITEMS_PER_ORDER * NUM_ORDERS).
  { apply create_order_items_spec in Hi. destruct Hi as (groups & Hg & -> & _).
    apply groups_length in Hg. rewrite <- Hlen. unfold MAX_ITEMS_PER_ORDER. lia. }
  unfold create_reviews in Hr. apply reviews_loop_ids in Hr.
  destruct Hr as (new & Hnew & Hrid & Hsub). simpl in Hnew. rewrite Hnew.
  apply subseq_length in Hsub. rewrite !length_map in Hsub.
  split; [exact Hpid|]. split; [exact Hcid|].
  split; [rewrite Hoid'; exact Hoid|]. split; [exact Hiid|].
  split; [exact Hicount|]. split; [exact Hrid | lia].
Qed.

(** X11. In every run of [main] every review names an order of the orders
    table together with that order's customer, a customer of the customers
    table and a product of the products table. *)
Theorem main_review_references :
  forall mt today s0,
    exists t s',
      main mt today s0 = Ok t s' /\
      forall r, In r (reviews_csv t) ->
        (exists o, In o (orders_csv t) /\
                   Review.order_id r = Order.order_id o /\
                   Review.customer_id r = Order.customer_id o) /\
        In (Review.customer_id r) (map Customer.customer_id (customers_csv t)) /\
        In (Review.product_id r) (map Product.product_id (products_csv t)).
Proof.
  intros mt today s0. destruct (main_total mt today s0) as (t & s' & H).
  exists t, s'. split; [exact H|].
  apply main_spec in H.
  destruct H as (orders0 & s1 & s2 & s3 & s4 & s5 & _ & Hp & Hc & Ho & Hi & Hr).
  apply create_reviews_spec in Hr. rewrite Forall_forall in Hr.
  intros r Hin. destruct (Hr r Hin)
    as (o & item & dt & Ho' & Hitem & Hoid & Hcid & Hpid & _).
  split; [exists o; auto|]. split.
  - rewrite Hcid.
    pose proof (create_order_items_ids _ _ _ _ _ _ Hi) as (_ & Hcust & _).
    assert (Hin' : In (Order.customer_id o) (map Order.customer_id (orders_csv t)))
      by now apply in_map.
    rewrite Hcust in Hin'. apply in_map_iff in Hin'.
    destruct Hin' as (o0 & <- & Ho0).
    apply create_orders_spec in Ho. destruct Ho as [_ Hall].
    rewrite Forall_forall in Hall. now apply Hall.
  - rewrite Hpid. apply filter_In in Hitem. destruct Hitem as [Hitem _].
    destruct (create_order_items_rows _ _ _ _ _ _ Hi item Hitem)
      as (o' & p & _ & Hp' & (_ & -> & _)).
    now apply in_map.
Qed.

(** X12. The products and the customers of a run of [main] are decided by
    the seed and the date alone: two runs from any two states of the two
    generators write the same products table and the same customers table. *)
Theorem products_customers_reproducible :
  forall mt today s1 s2,
    exists t1 s1' t2 s2',
      main mt today s1 = Ok t1 s1' /\ main mt today s2 = Ok t2 s2' /\
      products_csv t1 = products_csv t2 /\
      customers_csv t1 = customers_csv t2.
Proof.
  intros mt today s1 s2.
  destruct (main_total mt today s1) as (t1 & s1' & H1).
  destruct (main_total mt today s2) as (t2 & s2' & H2).
  exists t1, s1', t2, s2'. split; [exact H1|]. split; [exact H2|].
  apply main_spec in H1, H2.
  destruct H1 as (oa & a1 & a2 & a3 & a4 & a5 & Hsa & Hpa & Hca & _).
  destruct H2 as (ob & b1 & b2 & b3 & b4 & b5 & Hsb & Hpb & Hcb & _).
  unfold random_seed in Hsa, Hsb.
  injection Hsa as <-. injection Hsb as <-.
  destruct ((fun Hd Hp => py_only_Ok _ _ _ _ _ _ _ py_only_create_products
                                      Hd Hp Hpa Hpb) eq_refl eq_refl)
    as (Hprod & Hd & Hpos & _).
  split; [exact Hprod|].
  now destruct (py_only_Ok _ _ _ _ _ _ _ (py_only_create_customers today)
                  Hd Hpos Hca Hcb).
Qed.

(** X13. [create_products] and [create_customers] draw from Python's
    generator only: what they return is decided by the state of that
    generator, and NumPy's generator is left as it was. *)
Theorem products_customers_python_only :
  py_only create_products /\ forall today, py_only (create_customers today).
Proof.
  split; [exact py_only_create_products | exact py_only_create_customers].
Qed.

(** X14. In every run of [main] every unit price lies between 6 and 200,
    every line total between 6 and 800 and every order total between 6 and
    4000: no order keeps the placeholder [0.0]. *)
Theorem main_amounts_positive :
  forall mt today s0,
    exists t s',
      main mt today s0 = Ok t s' /\
      (forall i, In i (order_items_csv t) ->
         (6 <=? OrderItem.unit_price i)%float = true /\
         (OrderItem.unit_price i <=? 200)%float = true /\
         (6 <=? OrderItem.line_total i)%float = true /\
         (OrderItem.line_total i <=? 800)%float = true) /\
      (forall o, In o (orders_csv t) ->
         (6 <=? Order.order_total o)%float = true /\
         (Order.order_total o <=? 4000)%float = true).
Proof.
  intros mt today s0. destruct (main_total mt today s0) as (t & s' & H).
  exists t, s'. split; [exact H|].
  apply main_spec in H.
  destruct H as (orders0 & s1 & s2 & s3 & s4 & s5 & _ & Hp & _ & Ho & Hi & _).
  assert (H6 : Prim2SF 6 = S754_finite false 6755399441055744 (-50)) by reflexivity.
  assert (H200 : Prim2SF 200 = S754_finite false 7036874417766400 (-45))
    by reflexivity.
  assert (H800 : Prim2SF 800 = S754_finite false 7036874417766400 (-43))
    by reflexivity.
  assert (H4000 : Prim2SF 4000 = S754_finite false 8796093022208000 (-41))
    by reflexivity.
  assert (N5 : normal 6755399441055744) by (unfold normal; pow_consts; lia).
  assert (N6 : normal 7036874417766400) by (unfold normal; pow_consts; lia).
  assert (N8 : normal 8796093022208000) by (unfold normal; pow_consts; lia).
  pose proof (bpow_neg 41 ltac:(lia)) as B41. change (2 ^ 41) with 2199023255552 in B41.
  pose proof (bpow_neg 43 ltac:(lia)) as B43. change (2 ^ 43) with 8796093022208 in B43.
  pose proof (bpow_neg 45 ltac:(lia)) as B45. change (2 ^ 45) with 35184372088832 in B45.
  pose proof (bpow_neg 50 ltac:(lia)) as B50. change (2 ^ 50) with 1125899906842624 in B50.
  change (- (41)) with (-41) in B41. change (- (43)) with (-43) in B43.
  change (- (45)) with (-45) in B45. change (- (50)) with (-50) in B50.
  assert (Hprices : forall p, In p (products_csv t) ->
                      finpos_in 6 200 (Product.price p)).
  { apply create_products_spec in Hp. intros p Hin.
    destruct (Forall2_In_r _ _ _ _ Hp Hin) as (id & _ & _ & k1 & k2 & Hcost & Hprice).
    rewrite Hprice, Hcost. apply cost_price_in. }
  assert (Hlines : forall i, In i (order_items_csv t) ->
                     finpos_in 6 200 (OrderItem.unit_price i) /\
                     finpos_in 6 800 (OrderItem.line_total i)).
  { intros i Hin.
    destruct (create_order_items_rows _ _ _ _ _ _ Hi i Hin)
      as (o & p & _ & Hpin & (_ & _ & Hup & Hq & Hlt)).
    assert (Hu : finpos_in 6 200 (OrderItem.unit_price i))
      by (rewrite Hup; now apply Hprices).
    split; [exact Hu|]. rewrite Hlt. now apply line_total_in. }
  split.
  - intros i Hin. destruct (Hlines i Hin) as [Hu Hl].
    split; [apply (finpos_in_leb_l 6 _ _ _ _ _ H6 N5) in Hu;
            [exact Hu | unfold F2R; lra]|].
    split; [apply (finpos_in_leb_r 200 _ _ _ _ _ H200 N6) in Hu;
            [exact Hu | unfold F2R; lra]|].
    split; [apply (finpos_in_leb_l 6 _ _ _ _ _ H6 N5) in Hl;
            [exact Hl | unfold F2R; lra]|].
    apply (finpos_in_leb_r 800 _ _ _ _ _ H800 N6) in Hl;
      [exact Hl | unfold F2R; lra].
  - intros o Hin.
    apply create_orders_spec in Ho. destruct Ho as [Hids _].
    assert (Hnd : NoDup (map Order.order_id orders0))
      by (rewrite Hids; apply range_NoDup).
    assert (Hpn : Forall (fun p => nonneg (Product.price p)) (products_csv t))
      by exact (create_products_prices_nonneg _ _ _ Hp).
    destruct (create_order_items_totals_nonneg _ _ _ _ _ _ Hi Hnd Hpn o Hin)
      as [Htot _].
    pose proof (create_order_items_ids _ _ _ _ _ _ Hi) as (Hoid & _).
    assert (Hin0 : In (Order.order_id o) (map Order.order_id orders0))
      by (rewrite <- Hoid; now apply in_map).
    apply in_map_iff in Hin0. destruct Hin0 as (o0 & Heq & Hin0).
    pose proof (create_order_items_counts _ _ _ _ _ _ Hi Hnd o0 Hin0) as Hcount.
    rewrite Heq in Hcount.
    assert (Hsum : finpos_in 6 4000 (Order.order_total o)).
    { rewrite Htot. unfold sum_line_totals. apply order_total_in.
      - now rewrite length_map.
      - apply Forall_forall. intros x Hx. apply in_map_iff in Hx.
        destruct Hx as (i & <- & Hix). apply filter_In in Hix.
        destruct Hix as [Hix _]. now apply Hlines. }
    split; [apply (finpos_in_leb_l 6 _ _ _ _ _ H6 N5) in Hsum;
            [exact Hsum | unfold F2R; lra]|].
    apply (finpos_in_leb_r 4000 _ _ _ _ _ H4000 N8) in Hsum;
      [exact Hsum | unfold F2R; lra].
Qed.

(** X16. In every run of [main] every order has between one and five order
    items. *)
Theorem main_order_item_counts :
  forall mt today s0,
    exists t s',
      main mt today s0 = Ok t s' /\
      forall o, In o (orders_csv t) ->
        (1 <= List.length (items_of (Order.order_id o) (order_items_csv t)) <= 5)%nat.
Proof.
  intros mt today s0. destruct (main_total mt today s0) as (t & s' & H).
  exists t, s'. split; [exact H|].
  apply main_spec in H.
  destruct H as (orders0 & s1 & s2 & s3 & s4 & s5 & _ & _ & _ & Ho & Hi & _).
  apply create_orders_spec in Ho. destruct Ho as [Hids _].
  assert (Hnd : NoDup (map Order.order_id orders0))
    by (rewrite Hids; apply range_NoDup).
  intros o Hin.
  pose proof (create_order_items_ids _ _ _ _ _ _ Hi) as (Hoid & _).
  assert (Hin0 : In (Order.order_id o) (map Order.order_id orders0))
    by (rewrite <- Hoid; now apply in_map).
  apply in_map_iff in Hin0. destruct Hin0 as (o0 & Heq & Hin0).
  rewrite <- Heq.
  exact (create_order_items_counts _ _ _ _ _ _ Hi Hnd o0 Hin0).
Qed.
